(** * scanner-service: orchestrator, adapter mapping and in-memory store

    A shallow embedding of the Go sources of the scanner service
    ([internal/features/scan/domain], [internal/features/scan/repository],
    [internal/adapters], [pkg/errors]) and the properties proved about them.

    Conventions of the embedding:
    - a Go [string] is a [string]; a Go [int] is a [Z] kept in the 64-bit
      range, arithmetic on it wraps ([wrap64]);
    - [time.Time] is an instant on the integer line ([Z], nanoseconds),
      [time.Duration] a [Z] count of nanoseconds;
    - a Go map is a [gmap]; [range] over a map visits its entries in an
      unspecified order, which the loops below receive as an argument;
    - an operation returns an [outcome]: a value, an [error], or a run-time
      panic;
    - [*Scan] pointers held by the service are locations in a [memory] of
      scan objects, so that two holders of one pointer see one object. *)

From Stdlib Require Import ZArith PrimFloat.
From stdpp Require Import gmap strings list fin_maps sorting pretty.

Open Scope Z_scope.

(** ** Preliminaries *)

Abbreviation Time := Z (only parsing).
Abbreviation Duration := Z (only parsing).

Definition Nanosecond : Duration := 1.
Definition Second : Duration := 1000000000 * Nanosecond.
Definition Minute : Duration := 60 * Second.

(** [t.Before(u)] *)
Definition Before (t u : Time) : bool := t <? u.

(** [t.Add(d)] *)
Definition Add (t : Time) (d : Duration) : Time := t + d.

(** Go's [int] on the 64-bit targets the service is built for. *)
Definition MinInt : Z := - 2 ^ 63.
Definition MaxInt : Z := 2 ^ 63 - 1.
Definition is_int (z : Z) : Prop := MinInt <= z <= MaxInt.
Definition wrap64 (z : Z) : Z := (z + 2 ^ 63) mod 2 ^ 64 - 2 ^ 63.

(** ** [pkg/errors] *)

Module errors.

(** [type Type string] *)
Abbreviation Type_ := string (only parsing).

Definition ErrInternal : Type_ := "INTERNAL".
Definition ErrNotFound : Type_ := "NOT_FOUND".
Definition ErrInvalidInput : Type_ := "INVALID_INPUT".
Definition ErrTimeout : Type_ := "TIMEOUT".
Definition ErrUnavailable : Type_ := "UNAVAILABLE".
Definition ErrUnauthorized : Type_ := "UNAUTHORIZED".
Definition ErrForbidden : Type_ := "FORBIDDEN".
Definition ErrAlreadyExists : Type_ := "ALREADY_EXISTS".

(** The values of Go's [error] interface that occur: [nil], an application
    [*Error] with its type, message and wrapped cause (possibly [nil]), or a
    plain error of another package (such as [context.Canceled]). *)
Inductive error : Type :=
| nil
| Error (Type' : Type_) (Message : string) (Err : error)
| Plain (msg : string).

Definition New (errType : Type_) (message : string) (err : error) : error :=
  Error errType message err.

Definition NewInternal := New ErrInternal.
Definition NewNotFound := New ErrNotFound.
Definition NewInvalidInput := New ErrInvalidInput.
Definition NewTimeout := New ErrTimeout.
Definition NewUnavailable := New ErrUnavailable.

(** The [Type] field of an application error. *)
Definition Type_of (e : error) : option Type_ :=
  match e with
  | Error t _ _ => Some t
  | _ => None
  end.

Definition Message_of (e : error) : string :=
  match e with
  | Error _ m _ => m
  | Plain m => m
  | nil => ""
  end.

Definition Unwrap (e : error) : error :=
  match e with
  | Error _ _ c => c
  | _ => nil
  end.

#[global] Instance error_eq_dec : EqDecision error.
Proof. solve_decision. Defined.

(** The types the package declares. *)
Definition declared : list Type_ :=
  [ErrInternal; ErrNotFound; ErrInvalidInput; ErrTimeout; ErrUnavailable;
   ErrUnauthorized; ErrForbidden; ErrAlreadyExists].

End errors.

Import errors.

(** What a call does: return a value, return an error, or panic. *)
Inductive outcome (A : Type) : Type :=
| Returns (a : A)
| Fails (e : error)
| Panics (msg : string).
Arguments Returns {A} a.
Arguments Fails {A} e.
Arguments Panics {A} msg.

(** ** [domain/models.go] *)

Abbreviation ScanStatus := string (only parsing).
Definition ScanStatusPending : ScanStatus := "PENDING".
Definition ScanStatusRunning : ScanStatus := "RUNNING".
Definition ScanStatusCompleted : ScanStatus := "COMPLETED".
Definition ScanStatusFailed : ScanStatus := "FAILED".
Definition ScanStatusCancelled : ScanStatus := "CANCELLED".

Abbreviation ScanType := string (only parsing).
Definition ScanTypeSYN : ScanType := "SYN".
Definition ScanTypeConnect : ScanType := "CONNECT".
Definition ScanTypeUDP : ScanType := "UDP".
Definition ScanTypeVersion : ScanType := "VERSION".
Definition ScanTypeScript : ScanType := "SCRIPT".
Definition ScanTypeAll : ScanType := "ALL".

Abbreviation TimingTemplate := Z (only parsing).
Definition TimingParanoid : TimingTemplate := 0.
Definition TimingSneaky : TimingTemplate := 1.
Definition TimingPolite : TimingTemplate := 2.
Definition TimingNormal : TimingTemplate := 3.
Definition TimingAggressive : TimingTemplate := 4.
Definition TimingInsane : TimingTemplate := 5.

Module ScanOptions.
Record t : Type := mk {
  Target : string;
  Ports : string;
  ScanType' : ScanType;
  TimingTemplate' : TimingTemplate;
  ServiceDetection : bool;
  OSDetection : bool;
  ScriptScan : bool;
  ExtraOptions : list string;
  Timeout : Duration
}.

Definition with_Timeout (d : Duration) (o : t) : t :=
  mk (Target o) (Ports o) (ScanType' o) (TimingTemplate' o) (ServiceDetection o)
     (OSDetection o) (ScriptScan o) (ExtraOptions o) d.
Definition with_Ports (p : string) (o : t) : t :=
  mk (Target o) p (ScanType' o) (TimingTemplate' o) (ServiceDetection o)
     (OSDetection o) (ScriptScan o) (ExtraOptions o) (Timeout o).
Definition with_TimingTemplate (tt : TimingTemplate) (o : t) : t :=
  mk (Target o) (Ports o) (ScanType' o) tt (ServiceDetection o)
     (OSDetection o) (ScriptScan o) (ExtraOptions o) (Timeout o).
End ScanOptions.

Module Scan.
Record t : Type := mk {
  ID : string;
  UserID : string;
  Options : ScanOptions.t;
  Status : ScanStatus;
  Progress : float;
  CreatedAt : Time;
  StartedAt : option Time;
  CompletedAt : option Time;
  Error : string;
  ResultID : string
}.

Definition with_Status (s : ScanStatus) (x : t) : t :=
  mk (ID x) (UserID x) (Options x) s (Progress x) (CreatedAt x) (StartedAt x)
     (CompletedAt x) (Error x) (ResultID x).
Definition with_CompletedAt (c : option Time) (x : t) : t :=
  mk (ID x) (UserID x) (Options x) (Status x) (Progress x) (CreatedAt x) (StartedAt x)
     c (Error x) (ResultID x).
End Scan.

Module Port.
Record t : Type := mk {
  Port : Z;
  Protocol : string;
  State : string;
  Service : string;
  Product : string;
  Version : string;
  ExtraInfo : string
}.
End Port.

Module Script.
Record t : Type := mk {
  ID : string;
  Output : string;
  Data : gmap string string
}.
End Script.

Module HostMetadata.
Record t : Type := mk {
  Distance : Z;
  UpTime : float;
  LastBoot : Time;
  TCPSequence : string;
  IPIDSequence : string
}.
End HostMetadata.

Module Host.
Record t : Type := mk {
  IP : string;
  Hostnames : list string;
  Status : string;
  OS : string;
  Ports : list Port.t;
  Scripts : list Script.t;
  Metadata : HostMetadata.t
}.
End Host.

Module ScanResult.
Record t : Type := mk {
  ID : string;
  ScanID : string;
  UserID : string;
  StartTime : Time;
  EndTime : Time;
  Duration' : float;
  Command : string;
  Summary : string;
  TotalHosts : Z;
  UpHosts : Z;
  Hosts : list Host.t
}.
End ScanResult.


(** ** [repository/repository.go]: the in-memory store *)

Module repository.

Record MemoryScanRepository : Type := mk {
  scans : gmap string Scan.t;
  scanResults : gmap string ScanResult.t;
  retentionPeriod : Duration
}.

Definition with_scans (m : gmap string Scan.t) (r : MemoryScanRepository) :=
  mk m (scanResults r) (retentionPeriod r).
Definition with_scanResults (m : gmap string ScanResult.t) (r : MemoryScanRepository) :=
  mk (scans r) m (retentionPeriod r).

Definition NewMemoryScanRepository (retentionPeriod : Duration) : MemoryScanRepository :=
  mk ∅ ∅ retentionPeriod.

(** [scanCopy := *scan; r.scans[scan.ID] = &scanCopy] *)
Definition SaveScan (scan : Scan.t) (r : MemoryScanRepository)
  : outcome unit * MemoryScanRepository :=
  (Returns tt, with_scans (<[Scan.ID scan := scan]> (scans r)) r).

Definition UpdateScan (scan : Scan.t) (r : MemoryScanRepository)
  : outcome unit * MemoryScanRepository :=
  match scans r !! Scan.ID scan with
  | None =>
      (Fails (NewNotFound ("scan with ID " +:+ Scan.ID scan +:+ " not found") nil), r)
  | Some _ =>
      (Returns tt, with_scans (<[Scan.ID scan := scan]> (scans r)) r)
  end.

Definition GetScanByID (id : string) (r : MemoryScanRepository)
  : outcome Scan.t * MemoryScanRepository :=
  match scans r !! id with
  | None => (Fails (NewNotFound ("scan with ID " +:+ id +:+ " not found") nil), r)
  | Some scan => (Returns scan, r)
  end.

Definition DeleteScan (id : string) (r : MemoryScanRepository)
  : outcome unit * MemoryScanRepository :=
  match scans r !! id with
  | None => (Fails (NewNotFound ("scan with ID " +:+ id +:+ " not found") nil), r)
  | Some _ => (Returns tt, with_scans (delete id (scans r)) r)
  end.

Definition SaveScanResult (result : ScanResult.t) (r : MemoryScanRepository)
  : outcome unit * MemoryScanRepository :=
  (Returns tt, with_scanResults (<[ScanResult.ID result := result]> (scanResults r)) r).

Definition GetScanResultByID (id : string) (r : MemoryScanRepository)
  : outcome ScanResult.t * MemoryScanRepository :=
  match scanResults r !! id with
  | None => (Fails (NewNotFound ("scan result with ID " +:+ id +:+ " not found") nil), r)
  | Some result => (Returns result, r)
  end.

Definition DeleteScanResult (id : string) (r : MemoryScanRepository)
  : outcome unit * MemoryScanRepository :=
  match scanResults r !! id with
  | None => (Fails (NewNotFound ("scan result with ID " +:+ id +:+ " not found") nil), r)
  | Some _ => (Returns tt, with_scanResults (delete id (scanResults r)) r)
  end.

(** *** [ListScans] *)

(** The filter loop, [for _, scan := range r.scans], visiting the keys in the
    order [ks] and appending a copy of each scan of the requested user. *)
Definition collect_step (userID : string) (m : gmap string Scan.t)
    (acc : list Scan.t) (id : string) : list Scan.t :=
  match m !! id with
  | Some scan =>
      if bool_decide (userID = "") || bool_decide (Scan.UserID scan = userID)
      then acc ++ [scan]
      else acc
  | None => acc
  end.

Definition collect (ks : list string) (userID : string) (m : gmap string Scan.t)
  : list Scan.t :=
  foldl (collect_step userID m) [] ks.

(** The body of the inner loop:
    [if scans[i].CreatedAt.Before(scans[j].CreatedAt) { swap }].
    Both indices are in range wherever the loops call it. *)
Definition swap_if_before (i j : nat) (l : list Scan.t) : list Scan.t :=
  match l !! i, l !! j with
  | Some a, Some b =>
      if Before (Scan.CreatedAt a) (Scan.CreatedAt b)
      then <[j := a]> (<[i := b]> l)
      else l
  | _, _ => l
  end.

(** [for j := i + 1; j < len(scans); j++], as [n] remaining iterations
    starting from [j]. *)
Fixpoint inner_loop (i j n : nat) (l : list Scan.t) : list Scan.t :=
  match n with
  | O => l
  | S n' => inner_loop i (S j) n' (swap_if_before i j l)
  end.

(** [for i := 0; i < len(scans)-1; i++], as [n] remaining iterations
    starting from [i]. *)
Fixpoint outer_loop (i n : nat) (l : list Scan.t) : list Scan.t :=
  match n with
  | O => l
  | S n' => outer_loop (S i) n' (inner_loop i (S i) (length l - S i) l)
  end.

Definition sort_newest_first (l : list Scan.t) : list Scan.t :=
  outer_loop 0 (length l - 1) l.

(** The two loops as recursion on the slice, for reasoning: [pass] is one
    run of the inner loop seen from the pivot [a] at position [i] (the pivot
    it ends with, and what it leaves in the positions after [i]); [passes n]
    is [n] iterations of the outer loop on the part of the slice from [i]
    on. [sort_newest_first_passes] relates them to the loops. *)
Fixpoint pass (a : Scan.t) (rest : list Scan.t) : Scan.t * list Scan.t :=
  match rest with
  | [] => (a, [])
  | b :: rest' =>
      if Before (Scan.CreatedAt a) (Scan.CreatedAt b)
      then let '(m, r) := pass b rest' in (m, a :: r)
      else let '(m, r) := pass a rest' in (m, b :: r)
  end.

(** [n] iterations of the outer loop on the part of the slice from [i] on. *)
Fixpoint passes (n : nat) (l : list Scan.t) : list Scan.t :=
  match n, l with
  | S n', a :: rest => let '(m, r) := pass a rest in m :: passes n' r
  | _, _ => l
  end.

(** Newest first: every scan is created no earlier than those after it. *)
Definition newest_first (l : list Scan.t) : Prop :=
  StronglySorted (fun x y => Scan.CreatedAt y <= Scan.CreatedAt x) l.

(** The owner filter of [ListScans]: an empty user id selects every scan. *)
Definition owner_matches (userID : string) (scan : Scan.t) : Prop :=
  userID = "" \/ Scan.UserID scan = userID.

#[global] Instance owner_matches_dec userID scan : Decision (owner_matches userID scan).
Proof. unfold owner_matches. apply _. Defined.

(** The stored scans the filter selects, in the order of [map_to_list]. *)
Definition matching (userID : string) (m : gmap string Scan.t) : list Scan.t :=
  filter (owner_matches userID) (map_to_list m).*2.

(** The slice expression [s[lo:hi]]; it panics unless [0 <= lo <= hi <= cap(s)].
    [ListScans] only reaches it with [hi <= len(s)], so the length stands for
    the capacity. *)
Definition slice {A} (s : list A) (lo hi : Z) : outcome (list A) :=
  if (0 <=? lo) && (lo <=? hi) && (hi <=? Z.of_nat (length s))
  then Returns (take (Z.to_nat (hi - lo)) (drop (Z.to_nat lo) s))
  else Panics "slice bounds out of range".

Definition ListScans (ks : list string) (userID : string) (limit offset : Z)
    (r : MemoryScanRepository) : outcome (list Scan.t) :=
  let scans := collect ks userID (scans r) in
  let scans := sort_newest_first scans in
  let len := Z.of_nat (length scans) in
  if offset >=? len then Returns []
  else
    let end_ := wrap64 (offset + limit) in
    let end_ := if end_ >? len then len else end_ in
    slice scans offset end_.

(** *** [cleanupOldScans]: one tick of the reaper *)

(** The test of the first loop, [scan.CreatedAt.Before(cutoffTime)]. *)
Definition expired (cutoffTime : Time) (scan : Scan.t) : Prop :=
  Scan.CreatedAt scan < cutoffTime.

(** The test of the second loop: the result names a scan, and the store has
    no scan of that id. *)
Definition orphan (m : gmap string Scan.t) (result : ScanResult.t) : Prop :=
  ScanResult.ScanID result ≠ "" /\ m !! ScanResult.ScanID result = None.

(** Body of [for id, scan := range r.scans]. *)
Definition cleanup_scan_step (cutoffTime : Time) (r : MemoryScanRepository)
    (id : string) : MemoryScanRepository :=
  match scans r !! id with
  | Some scan =>
      if Before (Scan.CreatedAt scan) cutoffTime then
        let r := with_scans (delete id (scans r)) r in
        if bool_decide (Scan.ResultID scan ≠ "")
        then with_scanResults (delete (Scan.ResultID scan) (scanResults r)) r
        else r
      else r
  | None => r
  end.

(** Body of [for resultID, result := range r.scanResults]. *)
Definition cleanup_result_step (r : MemoryScanRepository) (resultID : string)
  : MemoryScanRepository :=
  match scanResults r !! resultID with
  | Some result =>
      if bool_decide (ScanResult.ScanID result ≠ "") then
        match scans r !! ScanResult.ScanID result with
        | None => with_scanResults (delete resultID (scanResults r)) r
        | Some _ => r
        end
      else r
  | None => r
  end.

(** The two loops of a tick; [ks] and [rks] are the orders in which the two
    [range] loops visit the keys. *)
Definition cleanupScans (cutoffTime : Time) (ks : list string)
    (r : MemoryScanRepository) : MemoryScanRepository :=
  foldl (cleanup_scan_step cutoffTime) r ks.

Definition cleanupOrphans (rks : list string) (r : MemoryScanRepository)
  : MemoryScanRepository :=
  foldl cleanup_result_step r rks.

(** [cutoffTime := time.Now().Add(-r.retentionPeriod)]. The retention period
    is a [time.Duration], an [int64]: its negation wraps, so the least
    duration is its own negation. *)
Definition cutoff (now : Time) (r : MemoryScanRepository) : Time :=
  Add now (wrap64 (- retentionPeriod r)).

(** What [cleanupOldScans] does on each tick of its ticker, at time [now]. *)
Definition cleanupTick (now : Time) (ks rks : list string) (r : MemoryScanRepository)
  : MemoryScanRepository :=
  let cutoffTime := cutoff now r in
  cleanupOrphans rks (cleanupScans cutoffTime ks r).

(** An order in which [range] may visit the keys of a map. *)
Definition range_order {V} (ks : list string) (m : gmap string V) : Prop :=
  ks ≡ₚ (map_to_list m).*1.

End repository.


(** ** [domain/service.go]: the orchestrator *)

(** [type ScanRepository interface], the part the functions below call. An
    implementation carries its own state [R]. *)
Class ScanRepository (R : Type) : Type := {
  SaveScan : Scan.t -> R -> outcome unit * R;
  UpdateScan : Scan.t -> R -> outcome unit * R;
  GetScanByID : string -> R -> outcome Scan.t * R
}.

#[global] Instance MemoryScanRepository_ScanRepository
  : ScanRepository repository.MemoryScanRepository := {
  SaveScan := repository.SaveScan;
  UpdateScan := repository.UpdateScan;
  GetScanByID := repository.GetScanByID
}.

(** A [*Scan]: the location of a scan object. *)
Abbreviation loc := nat (only parsing).

Section service.

Context {R : Type} `{ScanRepository R}.

(** The service with the scan objects its pointers refer to. [activeScans]
    maps a scan id to the pointer the service and the job's goroutine share. *)
Record ScanService : Type := mkScanService {
  repository : R;
  maxConcurrentScans : Z;
  activeScans : gmap string loc;
  memory : list Scan.t
}.

Definition with_repository (r : R) (s : ScanService) : ScanService :=
  mkScanService r (maxConcurrentScans s) (activeScans s) (memory s).
Definition with_activeScans (a : gmap string loc) (s : ScanService) : ScanService :=
  mkScanService (repository s) (maxConcurrentScans s) a (memory s).
Definition with_memory (m : list Scan.t) (s : ScanService) : ScanService :=
  mkScanService (repository s) (maxConcurrentScans s) (activeScans s) m.

Definition NewScanService (repository : R) (maxConcurrentScans : Z) : ScanService :=
  mkScanService repository maxConcurrentScans ∅ [].

(** [&Scan{...}]: a new object; its pointer is the next free location. *)
Definition alloc (scan : Scan.t) (s : ScanService) : loc * ScanService :=
  (length (memory s), with_memory (memory s ++ [scan]) s).

(** [validateScanOptions] receives [options] by value: the defaults are
    assigned to its own copy. The first component is that local copy when the
    function returns, the second the error it returns. *)
Definition validateScanOptions (options : ScanOptions.t) : ScanOptions.t * error :=
  if bool_decide (ScanOptions.Target options = "") then
    (options, NewInvalidInput "target is required" nil)
  else
    let options :=
      if bool_decide (ScanOptions.Timeout options = 0)
      then ScanOptions.with_Timeout (5 * Minute) options else options in
    let options :=
      if bool_decide (ScanOptions.Ports options = "")
      then ScanOptions.with_Ports "1-1000" options else options in
    let options :=
      if (ScanOptions.TimingTemplate' options <? TimingParanoid)
         || (ScanOptions.TimingTemplate' options >? TimingInsane)
      then ScanOptions.with_TimingTemplate TimingNormal options else options in
    (options, nil).

(** [StartScan]; [now] is what [time.Now()] returns and [id] what
    [uuid.New().String()] returns. The goroutine started at the end runs
    after the call has returned; it is not part of the call. *)
Definition StartScan (now : Time) (id : string) (userID : string)
    (options : ScanOptions.t) (s : ScanService) : outcome loc * ScanService :=
  match validateScanOptions options with
  | (_, nil) =>
      (* s.mu.Lock() *)
      if Z.of_nat (size (activeScans s)) >=? maxConcurrentScans s then
        (* s.mu.Unlock() *)
        (Fails (NewUnavailable "maximum concurrent scans reached" nil), s)
      else
        let '(scan, s) :=
          alloc (Scan.mk id userID options ScanStatusPending 0%float now None None "" "") s in
        let s := with_activeScans (<[id := scan]> (activeScans s)) s in
        (* s.mu.Unlock() *)
        match memory s !! scan with
        | None => (Panics "nil pointer dereference", s)
        | Some v =>
            match SaveScan v (repository s) with
            | (Returns _, r) => (Returns scan, with_repository r s)
            | (Fails err, r) =>
                let s := with_repository r s in
                let s := with_activeScans (delete id (activeScans s)) s in
                (Fails (NewInternal "failed to save scan" err), s)
            | (Panics msg, r) => (Panics msg, with_repository r s)
            end
        end
  | (_, err) => (Fails err, s)
  end.

(** [GetScan]: the pointer of the active set if there is one, else a pointer
    to the copy the repository returns. *)
Definition GetScan (id : string) (s : ScanService) : outcome loc * ScanService :=
  match activeScans s !! id with
  | Some scan => (Returns scan, s)
  | None =>
      match GetScanByID id (repository s) with
      | (Returns v, r) =>
          let '(scan, s) := alloc v (with_repository r s) in
          (Returns scan, s)
      | (Fails err, r) => (Fails (NewNotFound "scan not found" err), with_repository r s)
      | (Panics msg, r) => (Panics msg, with_repository r s)
      end
  end.

(** [scan.f = v] through the pointer [scan]. *)
Definition store (scan : loc) (f : Scan.t -> Scan.t) (s : ScanService) : ScanService :=
  match memory s !! scan with
  | Some v => with_memory (<[scan := f v]> (memory s)) s
  | None => s
  end.

Definition CancelScan (now : Time) (id : string) (s : ScanService)
  : outcome unit * ScanService :=
  match GetScan id s with
  | (Returns scan, s) =>
      match memory s !! scan with
      | None => (Panics "nil pointer dereference", s)
      | Some v =>
          if bool_decide (Scan.Status v ≠ ScanStatusRunning)
             && bool_decide (Scan.Status v ≠ ScanStatusPending)
          then (Fails (NewInvalidInput "scan is not running or pending" nil), s)
          else
            let s := store scan (Scan.with_Status ScanStatusCancelled) s in
            let s := store scan (Scan.with_CompletedAt (Some now)) s in
            match memory s !! scan with
            | None => (Panics "nil pointer dereference", s)
            | Some v =>
                match UpdateScan v (repository s) with
                | (Returns _, r) =>
                    let s := with_repository r s in
                    (Returns tt, with_activeScans (delete id (activeScans s)) s)
                | (Fails err, r) =>
                    (Fails (NewInternal "failed to update scan" err), with_repository r s)
                | (Panics msg, r) => (Panics msg, with_repository r s)
                end
            end
      end
  | (Fails err, s) => (Fails err, s)
  | (Panics msg, s) => (Panics msg, s)
  end.

(** What a caller reads through the pointer a call returned. *)
Definition deref (s : ScanService) (scan : loc) : option Scan.t := memory s !! scan.

End service.

Arguments ScanService R : clear implicits.

(** The scan a caller of [GetScan] sees for [id]: what it reads through the
    pointer the call returns. *)
Definition observe {R} `{ScanRepository R} (id : string) (s : ScanService R)
  : option Scan.t :=
  match GetScan id s with
  | (Returns scan, s') => deref s' scan
  | _ => None
  end.

(** The scan as [CancelScan] leaves it. *)
Definition cancelled (now : Time) (v : Scan.t) : Scan.t :=
  Scan.with_CompletedAt (Some now) (Scan.with_Status ScanStatusCancelled v).


(** ** [adapters]: the nmap adapter *)

Module adapters.

(** *** [NmapXML], the report as [encoding/xml] decodes it *)

Record XMLAddress : Type := mkXMLAddress {
  Addr : string;
  AddrType : string;
  Vendor : string
}.

Record XMLHostname : Type := mkXMLHostname {
  Hostname_Name : string;
  Hostname_Type : string
}.

Record XMLScript : Type := mkXMLScript {
  Script_ID : string;
  Script_Output : string
}.

Record XMLService : Type := mkXMLService {
  Service_Name : string;
  Service_Product : string;
  Service_Version : string;
  Service_ExtraInfo : string;
  Service_Method : string;
  Service_Conf : string;
  Service_DeviceType : string
}.

Record XMLPort : Type := mkXMLPort {
  Port_Protocol : string;
  Port_PortID : Z;
  Port_State_State : string;
  Port_State_Reason : string;
  Port_Service : XMLService;
  Port_Scripts : list XMLScript
}.

Record XMLOSMatch : Type := mkXMLOSMatch {
  OSMatch_Name : string;
  OSMatch_Accuracy : string
}.

Record XMLHost : Type := mkXMLHost {
  Host_StartTime : Z;
  Host_EndTime : Z;
  Host_Status_State : string;
  Host_Addresses : list XMLAddress;
  Host_Hostnames : list XMLHostname;
  Host_Ports : list XMLPort;
  Host_OS_Matches : list XMLOSMatch;
  Host_Uptime_Seconds : string;
  Host_Uptime_LastBoot : string;
  Host_Distance_Value : string;
  Host_TCPSequence_Index : string;
  Host_TCPSequence_Difficulty : string;
  Host_IPIDSequence_Class : string
}.

(** The test of the host loop: the report says the host is up. *)
Definition is_up (h : XMLHost) : Prop := Host_Status_State h = "up".

#[global] Instance is_up_dec h : Decision (is_up h).
Proof. unfold is_up. apply _. Defined.

Record XMLRunStats : Type := mkXMLRunStats {
  Finished_Time : Z;
  Finished_TimeStr : string;
  Finished_Elapsed : float;
  Finished_Summary : string;
  Finished_Exit : string;
  Hosts_Up : Z;
  Hosts_Down : Z;
  Hosts_Total : Z
}.

Record NmapXML : Type := mkNmapXML {
  Args : string;
  Start : Z;
  Version : string;
  Hosts : list XMLHost;
  RunStats : XMLRunStats
}.

(** The zero [time.Time] (January 1, year 1) and [time.Unix(sec, 0)]. *)
Definition ZeroTime : Time := - 62135596800 * Second.
Definition Unix (sec : Z) : Time := sec * Second.

(** [context.Canceled] and [context.DeadlineExceeded]. *)
Definition Canceled : error := Plain "context canceled".
Definition DeadlineExceeded : error := Plain "context deadline exceeded".

Section adapter.

(** The library parsers the mapping calls, each returning its value and its
    error: [strconv.Atoi], [strconv.ParseFloat(_, 64)] and
    [time.Parse("2006-01-02 15:04:05", _)]. *)
Variable Atoi : string -> Z * error.
Variable ParseFloat : string -> float * error.
Variable ParseTime : string -> Time * error.

Record NmapAdapter : Type := mkNmapAdapter {
  nmapPath : string
}.

Definition NewNmapAdapter (nmapPath : string) : NmapAdapter :=
  mkNmapAdapter (if bool_decide (nmapPath = "") then "nmap" else nmapPath).

(** *** [buildCommandArgs] *)

Definition scan_type_flag (t : ScanType) : list string :=
  if bool_decide (t = ScanTypeSYN) then ["-sS"]
  else if bool_decide (t = ScanTypeConnect) then ["-sT"]
  else if bool_decide (t = ScanTypeUDP) then ["-sU"]
  else if bool_decide (t = ScanTypeVersion) then ["-sV"]
  else if bool_decide (t = ScanTypeScript) then ["-sC"]
  else if bool_decide (t = ScanTypeAll) then ["-A"]
  else [].

Definition buildCommandArgs (options : ScanOptions.t) : list string :=
  let args := [ScanOptions.Target options] in
  let args :=
    if bool_decide (ScanOptions.Ports options ≠ "")
    then args ++ ["-p"; ScanOptions.Ports options] else args in
  let args := args ++ scan_type_flag (ScanOptions.ScanType' options) in
  let args :=
    if (ScanOptions.TimingTemplate' options >=? TimingParanoid)
       && (ScanOptions.TimingTemplate' options <=? TimingInsane)
    then args ++ ["-T" +:+ pretty (ScanOptions.TimingTemplate' options)] else args in
  let args := if ScanOptions.ServiceDetection options then args ++ ["-sV"] else args in
  let args := if ScanOptions.OSDetection options then args ++ ["-O"] else args in
  let args := if ScanOptions.ScriptScan options then args ++ ["-sC"] else args in
  args ++ ScanOptions.ExtraOptions options.

(** *** [convertToDomainModel] *)

(** [for _, addr := range xmlHost.Addresses { if ... { host.IP = ...; break } }] *)
Fixpoint first_ipv4 (ip : string) (addrs : list XMLAddress) : string :=
  match addrs with
  | [] => ip
  | addr :: rest =>
      if bool_decide (AddrType addr = "ipv4") then Addr addr else first_ipv4 ip rest
  end.

(** One iteration of [for _, xmlPort := range xmlHost.Ports.Ports] on the
    host's [Ports] and [Scripts]. *)
Definition port_step (acc : list Port.t * list Script.t) (xmlPort : XMLPort)
  : list Port.t * list Script.t :=
  let '(ports, scripts) := acc in
  let port :=
    Port.mk (Port_PortID xmlPort) (Port_Protocol xmlPort) (Port_State_State xmlPort)
      (Service_Name (Port_Service xmlPort)) (Service_Product (Port_Service xmlPort))
      (Service_Version (Port_Service xmlPort)) (Service_ExtraInfo (Port_Service xmlPort)) in
  let scripts :=
    foldl (fun scripts xmlScript =>
             scripts ++ [Script.mk (Script_ID xmlScript) (Script_Output xmlScript) ∅])
          scripts (Port_Scripts xmlPort) in
  (ports ++ [port], scripts).

(** The body of the host loop after the state test: the [domain.Host] built
    from a report host. *)
Definition convert_host (xmlHost : XMLHost) : Host.t :=
  let ip := first_ipv4 "" (Host_Addresses xmlHost) in
  let hostnames :=
    foldl (fun names hostname => names ++ [Hostname_Name hostname]) []
          (Host_Hostnames xmlHost) in
  let os :=
    match Host_OS_Matches xmlHost with
    | m :: _ => OSMatch_Name m
    | [] => ""
    end in
  let '(ports, scripts) := foldl port_step ([], []) (Host_Ports xmlHost) in
  let distance :=
    if bool_decide (Host_Distance_Value xmlHost ≠ "")
    then (Atoi (Host_Distance_Value xmlHost)).1 else 0 in
  let uptime :=
    if bool_decide (Host_Uptime_Seconds xmlHost ≠ "")
    then (ParseFloat (Host_Uptime_Seconds xmlHost)).1 else 0%float in
  let lastBoot :=
    if bool_decide (Host_Uptime_LastBoot xmlHost ≠ "")
    then (ParseTime (Host_Uptime_LastBoot xmlHost)).1 else ZeroTime in
  let tcpSequence :=
    if bool_decide (Host_TCPSequence_Difficulty xmlHost ≠ "")
    then Host_TCPSequence_Difficulty xmlHost else "" in
  let ipidSequence :=
    if bool_decide (Host_IPIDSequence_Class xmlHost ≠ "")
    then Host_IPIDSequence_Class xmlHost else "" in
  Host.mk ip hostnames (Host_Status_State xmlHost) os ports scripts
    (HostMetadata.mk distance uptime lastBoot tcpSequence ipidSequence).

(** One iteration of [for _, xmlHost := range nmapXML.Hosts] on
    [result.Hosts]. *)
Definition host_step (hosts : list Host.t) (xmlHost : XMLHost) : list Host.t :=
  if bool_decide (Host_Status_State xmlHost ≠ "up") then hosts (* continue *)
  else hosts ++ [convert_host xmlHost].

Definition convertToDomainModel (nmapXML : NmapXML) (startTime : Time) : ScanResult.t :=
  let endTime := Unix (Finished_Time (RunStats nmapXML)) in
  let hosts := foldl host_step [] (Hosts nmapXML) in
  ScanResult.mk "" "" "" startTime endTime
    (Finished_Elapsed (RunStats nmapXML))
    ""
    (Finished_Summary (RunStats nmapXML))
    (Hosts_Total (RunStats nmapXML))
    (Hosts_Up (RunStats nmapXML))
    hosts.

(** *** [ExecuteScan] *)

(** What the world outside answers during one [ExecuteScan]: the clock, the
    temporary file, the run of the subprocess, the two readings of
    [ctx.Err()] after a failed run, the file read back, its decoding, and the
    generated identifier. *)
Record World : Type := mkWorld {
  Now : Time;
  CreateTemp : outcome string;
  Run : error;
  ctxErr1 : error;
  ctxErr2 : error;
  ReadFile : outcome string;
  Unmarshal : string -> outcome NmapXML;
  NewUUID : string
}.

Definition with_ID_Command (id command : string) (r : ScanResult.t) : ScanResult.t :=
  ScanResult.mk id (ScanResult.ScanID r) (ScanResult.UserID r) (ScanResult.StartTime r)
    (ScanResult.EndTime r) (ScanResult.Duration' r) command (ScanResult.Summary r)
    (ScanResult.TotalHosts r) (ScanResult.UpHosts r) (ScanResult.Hosts r).

Definition ExecuteScan (a : NmapAdapter) (w : World) (scanOptions : ScanOptions.t)
  : outcome ScanResult.t :=
  let startTime := Now w in
  let args := buildCommandArgs scanOptions in
  match CreateTemp w with
  | Fails err => Fails (NewInternal "failed to create temporary file" err)
  | Panics msg => Panics msg
  | Returns tmpFileName =>
      let args := args ++ ["-oX"; tmpFileName] in
      if bool_decide (Run w ≠ nil) then
        if bool_decide (ctxErr1 w = Canceled) then
          Fails (NewTimeout "scan was cancelled" (ctxErr1 w))
        else if bool_decide (ctxErr2 w = DeadlineExceeded) then
          Fails (NewTimeout "scan timed out" (ctxErr2 w))
        else Fails (NewInternal "nmap scan failed" (Run w))
      else
        match ReadFile w with
        | Fails err => Fails (NewInternal "failed to read nmap output" err)
        | Panics msg => Panics msg
        | Returns xmlData =>
            match Unmarshal w xmlData with
            | Fails err => Fails (NewInternal "failed to parse nmap output" err)
            | Panics msg => Panics msg
            | Returns nmapXML =>
                let result := convertToDomainModel nmapXML startTime in
                Returns (with_ID_Command (NewUUID w)
                           (nmapPath a +:+ " " +:+ String.concat " " args) result)
            end
        end
  end.

End adapter.

End adapters.

(** ** The store with Go's sharing

    The definitions above treat a scan or a result as a value. In Go a
    slice is a header that points to a backing array, and [*time.Time] is a
    pointer; the struct copy [scanCopy := *scan] that the store makes on its
    way in and out copies headers and pointers, not what they point to. This
    module keeps the arrays and the pointed-to times in a [Memory] and the
    records as Go has them. *)

Module sharing.

(** A slice header: the backing array and the length. *)
Record slice : Type := mkSlice {
  array : loc;
  len : nat
}.

Record Host : Type := mkHost {
  IP : string;
  Hostnames : slice;
  Status : string;
  OS : string;
  Ports : slice;
  Scripts : slice;
  Metadata : HostMetadata.t
}.

Record ScanResult : Type := mkScanResult {
  ID : string;
  ScanID : string;
  UserID : string;
  StartTime : Time;
  EndTime : Time;
  Duration' : float;
  Command : string;
  Summary : string;
  TotalHosts : Z;
  UpHosts : Z;
  Hosts : slice
}.

Record ScanOptions : Type := mkScanOptions {
  Target : string;
  Ports' : string;
  ScanType' : ScanType;
  TimingTemplate' : TimingTemplate;
  ServiceDetection : bool;
  OSDetection : bool;
  ScriptScan : bool;
  ExtraOptions : slice;
  Timeout : Duration
}.

Record Scan : Type := mkScan {
  Scan_ID : string;
  Scan_UserID : string;
  Options : ScanOptions;
  Scan_Status : ScanStatus;
  Progress : float;
  CreatedAt : Time;
  StartedAt : option loc;
  CompletedAt : option loc;
  Error' : string;
  ResultID : string
}.

(** The backing arrays, by element type, and the pointed-to times. *)
Record Memory : Type := mkMemory {
  strings : list (list string);
  hosts : list (list Host);
  ports : list (list Port.t);
  scripts : list (list Script.t);
  times : list Time
}.

Definition with_strings (h : list (list string)) (m : Memory) : Memory :=
  mkMemory h (hosts m) (ports m) (scripts m) (times m).
Definition with_hosts (h : list (list Host)) (m : Memory) : Memory :=
  mkMemory (strings m) h (ports m) (scripts m) (times m).
Definition with_ports (h : list (list Port.t)) (m : Memory) : Memory :=
  mkMemory (strings m) (hosts m) h (scripts m) (times m).

(** [s[i]]: [None] is the index-out-of-range panic. *)
Definition index {A} (h : list (list A)) (s : slice) (i : nat) : option A :=
  if decide (i < len s)%nat then h !! array s ≫= (.!! i) else None.

(** [s[i] = x] *)
Definition assign {A} (h : list (list A)) (s : slice) (i : nat) (x : A)
  : option (list (list A)) :=
  if decide (i < len s)%nat then Some (alter (<[i := x]>) (array s) h) else None.

(** The elements of [s], as [range s] yields them. *)
Definition elements {A} (h : list (list A)) (s : slice) : list A :=
  take (len s) (default [] (h !! array s)).

(** The store: each map entry points to a struct only the store refers to. *)
Record MemoryScanRepository : Type := mk {
  scans : gmap string Scan;
  scanResults : gmap string ScanResult
}.

(** [scanCopy := *scan; r.scans[scan.ID] = &scanCopy] *)
Definition SaveScan (scan : Scan) (r : MemoryScanRepository)
  : outcome unit * MemoryScanRepository :=
  let scanCopy := scan in
  (Returns tt, mk (<[Scan_ID scan := scanCopy]> (scans r)) (scanResults r)).

Definition UpdateScan (scan : Scan) (r : MemoryScanRepository)
  : outcome unit * MemoryScanRepository :=
  match scans r !! Scan_ID scan with
  | None =>
      (Fails (NewNotFound ("scan with ID " +:+ Scan_ID scan +:+ " not found") nil), r)
  | Some _ =>
      let scanCopy := scan in
      (Returns tt, mk (<[Scan_ID scan := scanCopy]> (scans r)) (scanResults r))
  end.

(** [scanCopy := *scan; return &scanCopy, nil] *)
Definition GetScanByID (id : string) (r : MemoryScanRepository) : outcome Scan :=
  match scans r !! id with
  | None => Fails (NewNotFound ("scan with ID " +:+ id +:+ " not found") nil)
  | Some scan => let scanCopy := scan in Returns scanCopy
  end.

(** The copies [ListScans] appends, [scanCopy := *scan], in the order [ks];
    sorting and pagination then permute and cut this list. *)
Definition ListScans_copies (ks : list string) (userID : string)
    (r : MemoryScanRepository) : list Scan :=
  foldl (fun acc id =>
           match scans r !! id with
           | Some scan =>
               if bool_decide (userID = "") || bool_decide (Scan_UserID scan = userID)
               then let scanCopy := scan in acc ++ [scanCopy]
               else acc
           | None => acc
           end) [] ks.

Definition SaveScanResult (result : ScanResult) (r : MemoryScanRepository)
  : outcome unit * MemoryScanRepository :=
  let resultCopy := result in
  (Returns tt, mk (scans r) (<[ID result := resultCopy]> (scanResults r))).

Definition GetScanResultByID (id : string) (r : MemoryScanRepository)
  : outcome ScanResult :=
  match scanResults r !! id with
  | None => Fails (NewNotFound ("scan result with ID " +:+ id +:+ " not found") nil)
  | Some result => let resultCopy := result in Returns resultCopy
  end.

(** *** What a holder of a record reads *)

(** The value a holder of [h] reads: its slices followed into the memory. *)
Definition view_host (m : Memory) (h : Host) : Host.t :=
  Host.mk (IP h) (elements (strings m) (Hostnames h)) (Status h) (OS h)
    (elements (ports m) (Ports h)) (elements (scripts m) (Scripts h)) (Metadata h).

Definition view_result (m : Memory) (x : ScanResult) : ScanResult.t :=
  ScanResult.mk (ID x) (ScanID x) (UserID x) (StartTime x) (EndTime x) (Duration' x)
    (Command x) (Summary x) (TotalHosts x) (UpHosts x)
    (view_host m <$> elements (hosts m) (Hosts x)).

Definition view_options (m : Memory) (o : ScanOptions) : ScanOptions.t :=
  ScanOptions.mk (Target o) (Ports' o) (ScanType' o) (TimingTemplate' o)
    (ServiceDetection o) (OSDetection o) (ScriptScan o)
    (elements (strings m) (ExtraOptions o)) (Timeout o).

Definition view_scan (m : Memory) (s : Scan) : Scan.t :=
  Scan.mk (Scan_ID s) (Scan_UserID s) (view_options m (Options s)) (Scan_Status s)
    (Progress s) (CreatedAt s) (StartedAt s ≫= (times m !!.)) (CompletedAt s ≫= (times m !!.))
    (Error' s) (ResultID s).

(** The store as the value-level definitions see it. *)
Definition view (m : Memory) (r : MemoryScanRepository) (retentionPeriod : Duration)
  : repository.MemoryScanRepository :=
  repository.mk (view_scan m <$> scans r) (view_result m <$> scanResults r) retentionPeriod.

End sharing.

(** ** The service under concurrent calls

    Goroutines that call into a [ScanService] share its mutex [mu] and its
    map [activeScans]. Here each goroutine stands at a program point of
    [StartScan], of [GetScan], or of the removal from the active set that
    ends [executeScan] and [CancelScan]; one step of one goroutine executes
    the statement at its point, and the steps of different goroutines
    interleave in any order. [Lock] can be taken only while the mutex is
    free. *)

Module interleaving.

Inductive point : Type :=
(* StartScan *)
| StartValidate (options : ScanOptions.t)   (* validateScanOptions(options) *)
| StartLock                                 (* s.mu.Lock() *)
| StartCheck                                (* if len(s.activeScans) >= s.maxConcurrentScans *)
| StartUnlockFull                           (* s.mu.Unlock(); return nil, NewUnavailable(...) *)
| StartRegister                             (* scan := &Scan{...}; s.activeScans[scan.ID] = scan *)
| StartUnlock (id : string)                 (* s.mu.Unlock() *)
| StartSave (id : string)                   (* s.repository.SaveScan(scan) *)
| StartRollbackLock (id : string) (err : error)     (* s.mu.Lock() *)
| StartRollbackDelete (id : string) (err : error)   (* delete(s.activeScans, scan.ID) *)
| StartRollbackUnlock (err : error)                 (* s.mu.Unlock(); return nil, NewInternal(...) *)
| StartReturned (result : outcome string)
(* GetScan *)
| GetLock (id : string)                     (* s.mu.Lock() *)
| GetLookup (id : string)                   (* scan, ok := s.activeScans[id] *)
| GetUnlock (found : option loc)            (* s.mu.Unlock() *)
(* the end of executeScan and of CancelScan *)
| RemoveLock (id : string)                  (* s.mu.Lock() *)
| RemoveDelete (id : string)                (* delete(s.activeScans, id) *)
| RemoveUnlock                              (* s.mu.Unlock() *)
| Finished.

(** The points between a [Lock] and its [Unlock]. *)
Definition in_critical_section (p : point) : bool :=
  match p with
  | StartCheck | StartUnlockFull | StartRegister | StartUnlock _
  | StartRollbackDelete _ _ | StartRollbackUnlock _
  | GetLookup _ | GetUnlock _
  | RemoveDelete _ | RemoveUnlock => true
  | _ => false
  end.

Record state : Type := mkState {
  mu : option nat;                  (* the goroutine holding the mutex *)
  activeScans : gmap string loc;
  maxConcurrentScans : Z;
  goroutines : list point
}.

(** One statement of goroutine [t]: from its point and the shared mutex and
    map to its next point and the new mutex and map; [spawned] is the
    goroutine a [go] statement starts. *)
Inductive statement (t : nat) (maxConcurrentScans : Z) :
  point -> option nat -> gmap string loc ->
  point -> option nat -> gmap string loc -> list point -> Prop :=
| validate_rejects options mu active :
    (validateScanOptions options).2 ≠ nil ->
    statement t maxConcurrentScans (StartValidate options) mu active
      (StartReturned (Fails (validateScanOptions options).2)) mu active []
| validate_accepts options mu active :
    (validateScanOptions options).2 = nil ->
    statement t maxConcurrentScans (StartValidate options) mu active StartLock mu active []
| start_lock active :
    statement t maxConcurrentScans StartLock None active StartCheck (Some t) active []
| check_full mu active :
    maxConcurrentScans <= Z.of_nat (size active) ->
    statement t maxConcurrentScans StartCheck mu active StartUnlockFull mu active []
| check_admits mu active :
    Z.of_nat (size active) < maxConcurrentScans ->
    statement t maxConcurrentScans StartCheck mu active StartRegister mu active []
| unlock_full mu active :
    statement t maxConcurrentScans StartUnlockFull mu active
      (StartReturned (Fails (NewUnavailable "maximum concurrent scans reached" nil)))
      None active []
| register id scan mu active :
    statement t maxConcurrentScans StartRegister mu active
      (StartUnlock id) mu (<[id := scan]> active) []
| start_unlock id mu active :
    statement t maxConcurrentScans (StartUnlock id) mu active (StartSave id) None active []
| save_succeeds id mu active :
    statement t maxConcurrentScans (StartSave id) mu active
      (StartReturned (Returns id)) mu active [RemoveLock id]
| save_fails id err mu active :
    err ≠ nil ->
    statement t maxConcurrentScans (StartSave id) mu active
      (StartRollbackLock id err) mu active []
| rollback_lock id err active :
    statement t maxConcurrentScans (StartRollbackLock id err) None active
      (StartRollbackDelete id err) (Some t) active []
| rollback_delete id err mu active :
    statement t maxConcurrentScans (StartRollbackDelete id err) mu active
      (StartRollbackUnlock err) mu (delete id active) []
| rollback_unlock err mu active :
    statement t maxConcurrentScans (StartRollbackUnlock err) mu active
      (StartReturned (Fails (NewInternal "failed to save scan" err))) None active []
| get_lock id active :
    statement t maxConcurrentScans (GetLock id) None active (GetLookup id) (Some t) active []
| get_lookup id mu active :
    statement t maxConcurrentScans (GetLookup id) mu active
      (GetUnlock (active !! id)) mu active []
| get_unlock found mu active :
    statement t maxConcurrentScans (GetUnlock found) mu active Finished None active []
| remove_lock id active :
    statement t maxConcurrentScans (RemoveLock id) None active
      (RemoveDelete id) (Some t) active []
| remove_delete id mu active :
    statement t maxConcurrentScans (RemoveDelete id) mu active
      RemoveUnlock mu (delete id active) []
| remove_unlock mu active :
    statement t maxConcurrentScans RemoveUnlock mu active Finished None active [].

(** The calls that can arrive: [StartScan], [GetScan], and [CancelScan]
    reaching its removal. *)
Definition entry (p : point) : Prop :=
  match p with
  | StartValidate _ | GetLock _ | RemoveLock _ => True
  | _ => False
  end.

(** A step of the system: some goroutine executes its statement, or a new
    call arrives. *)
Inductive step : state -> state -> Prop :=
| step_goroutine st t p p' mu' active' spawned :
    goroutines st !! t = Some p ->
    statement t (maxConcurrentScans st) p (mu st) (activeScans st) p' mu' active' spawned ->
    step st (mkState mu' active' (maxConcurrentScans st)
               (<[t := p']> (goroutines st) ++ spawned))
| step_call st p :
    entry p ->
    step st (mkState (mu st) (activeScans st) (maxConcurrentScans st) (goroutines st ++ [p])).

(** A service as [NewScanService] makes it, before any call. *)
Definition initial (maxConcurrentScans : Z) : state :=
  mkState None ∅ maxConcurrentScans [].

(** The mutex is held by whoever is inside a critical section, and while a
    goroutine stands between the check and the registration there is room
    for its scan. *)
Definition consistent (st : state) : Prop :=
  (forall t p, goroutines st !! t = Some p -> in_critical_section p = true ->
               mu st = Some t)
  /\ Z.of_nat (size (activeScans st)) <= Z.max 0 (maxConcurrentScans st)
  /\ (forall t, goroutines st !! t = Some StartRegister ->
                Z.of_nat (size (activeScans st)) < maxConcurrentScans st).

End interleaving.

(** ** More of [pkg/errors] *)

(** [err.Error()]: the method of [*Error], and the message of a plain error.
    It is never called on [nil]. *)
Fixpoint Error_string (e : error) : string :=
  match e with
  | nil => ""
  | Plain msg => msg
  | Error t m nil => t +:+ ": " +:+ m
  | Error t m err => t +:+ ": " +:+ m +:+ ": " +:+ Error_string err
  end.

(** [net/http]'s status codes that the service uses. *)
Definition StatusOK : Z := 200.
Definition StatusAccepted : Z := 202.
Definition StatusBadRequest : Z := 400.
Definition StatusUnauthorized : Z := 401.
Definition StatusForbidden : Z := 403.
Definition StatusNotFound : Z := 404.
Definition StatusConflict : Z := 409.
Definition StatusInternalServerError : Z := 500.
Definition StatusServiceUnavailable : Z := 503.
Definition StatusGatewayTimeout : Z := 504.

(** [(e *Error) StatusCode()], on the type of the error. *)
Definition StatusCode (t : Type_) : Z :=
  if bool_decide (t = ErrNotFound) then StatusNotFound
  else if bool_decide (t = ErrInvalidInput) then StatusBadRequest
  else if bool_decide (t = ErrTimeout) then StatusGatewayTimeout
  else if bool_decide (t = ErrUnavailable) then StatusServiceUnavailable
  else if bool_decide (t = ErrUnauthorized) then StatusUnauthorized
  else if bool_decide (t = ErrForbidden) then StatusForbidden
  else if bool_decide (t = ErrAlreadyExists) then StatusConflict
  else StatusInternalServerError.

(** ** More of [domain/service.go] *)

Definition set_StartedAt (t : option Time) (x : Scan.t) : Scan.t :=
  Scan.mk (Scan.ID x) (Scan.UserID x) (Scan.Options x) (Scan.Status x) (Scan.Progress x)
    (Scan.CreatedAt x) t (Scan.CompletedAt x) (Scan.Error x) (Scan.ResultID x).
Definition set_Progress (p : float) (x : Scan.t) : Scan.t :=
  Scan.mk (Scan.ID x) (Scan.UserID x) (Scan.Options x) (Scan.Status x) p
    (Scan.CreatedAt x) (Scan.StartedAt x) (Scan.CompletedAt x) (Scan.Error x) (Scan.ResultID x).
Definition set_Error (e : string) (x : Scan.t) : Scan.t :=
  Scan.mk (Scan.ID x) (Scan.UserID x) (Scan.Options x) (Scan.Status x) (Scan.Progress x)
    (Scan.CreatedAt x) (Scan.StartedAt x) (Scan.CompletedAt x) e (Scan.ResultID x).
Definition set_ResultID (r : string) (x : Scan.t) : Scan.t :=
  Scan.mk (Scan.ID x) (Scan.UserID x) (Scan.Options x) (Scan.Status x) (Scan.Progress x)
    (Scan.CreatedAt x) (Scan.StartedAt x) (Scan.CompletedAt x) (Scan.Error x) r.

(** [result.ScanID = scan.ID; result.UserID = scan.UserID] *)
Definition set_ScanID_UserID (scanID userID : string) (r : ScanResult.t) : ScanResult.t :=
  ScanResult.mk (ScanResult.ID r) scanID userID (ScanResult.StartTime r)
    (ScanResult.EndTime r) (ScanResult.Duration' r) (ScanResult.Command r)
    (ScanResult.Summary r) (ScanResult.TotalHosts r) (ScanResult.UpHosts r)
    (ScanResult.Hosts r).

(** The service as [main] wires it, over the in-memory repository. *)
Abbreviation Service := (ScanService repository.MemoryScanRepository) (only parsing).

(** [(s *ScanService) ListScans]; [ks] is the order in which the repository's
    [range] visits its scans. *)
Definition ListScans (ks : list string) (userID : string) (limit offset : Z)
    (s : Service) : outcome (list Scan.t) :=
  match repository.ListScans ks userID limit offset (repository s) with
  | Returns scans => Returns scans
  | Fails err => Fails (NewInternal "failed to list scans" err)
  | Panics msg => Panics msg
  end.

(** [GetScanResult] *)
Definition GetScanResult (id : string) (s : Service) : outcome ScanResult.t :=
  match repository.GetScanResultByID id (repository s) with
  | (Returns result, _) => Returns result
  | (Fails err, _) => Fails (NewNotFound "scan result not found" err)
  | (Panics msg, _) => Panics msg
  end.

(** [executeScan] up to the call of the adapter: the scan becomes Running.
    [now] is what [time.Now()] returns. An error of [UpdateScan] is logged
    and otherwise ignored. *)
Definition executeScan_begin (now : Time) (scan : loc) (s : Service)
  : outcome unit * Service :=
  let s := store scan (Scan.with_Status ScanStatusRunning) s in
  let s := store scan (set_StartedAt (Some now)) s in
  let s := store scan (set_Progress 0) s in
  match memory s !! scan with
  | None => (Panics "nil pointer dereference", s)
  | Some v =>
      let '(_, r) := repository.UpdateScan v (repository s) in
      (Returns tt, with_repository r s)
  end.

(** [executeScan] from the return of the adapter on; [answer] is what
    [s.adapter.ExecuteScan(ctx, scan.Options)] returned and [completedAt]
    what [time.Now()] returns. Errors of the repository are logged and
    otherwise ignored. *)
Definition executeScan_end (answer : outcome ScanResult.t) (completedAt : Time)
    (scan : loc) (s : Service) : outcome unit * Service :=
  match memory s !! scan with
  | None => (Panics "nil pointer dereference", s)
  | Some v0 =>
      let r :=
        match answer with
        | Fails err =>
            let s := store scan (Scan.with_Status ScanStatusFailed) s in
            let s := store scan (set_Error (Error_string err)) s in
            Returns s
        | Returns result =>
            let s := store scan (Scan.with_Status ScanStatusCompleted) s in
            let s := store scan (set_Progress 100) s in
            let s := store scan (set_ResultID (ScanResult.ID result)) s in
            let result := set_ScanID_UserID (Scan.ID v0) (Scan.UserID v0) result in
            let '(_, r) := repository.SaveScanResult result (repository s) in
            Returns (with_repository r s)
        | Panics msg => Panics msg
        end in
      match r with
      | Returns s =>
          let s := store scan (Scan.with_CompletedAt (Some completedAt)) s in
          match memory s !! scan with
          | None => (Panics "nil pointer dereference", s)
          | Some v =>
              let '(_, r) := repository.UpdateScan v (repository s) in
              let s := with_repository r s in
              (* s.mu.Lock(); delete(s.activeScans, scan.ID); s.mu.Unlock() *)
              (Returns tt, with_activeScans (delete (Scan.ID v) (activeScans s)) s)
          end
      | Fails err => (Fails err, s)
      | Panics msg => (Panics msg, s)
      end
  end.

(** [executeScan], the goroutine of a job, when nothing else runs between
    its two halves; [adapter] is [s.adapter.ExecuteScan] under the job's
    context. *)
Definition executeScan (adapter : ScanOptions.t -> outcome ScanResult.t)
    (now completedAt : Time) (scan : loc) (s : Service) : outcome unit * Service :=
  match executeScan_begin now scan s with
  | (Returns _, s) =>
      match memory s !! scan with
      | None => (Panics "nil pointer dereference", s)
      | Some v => executeScan_end (adapter (Scan.Options v)) completedAt scan s
      end
  | other => other
  end.

(** The scan object when the adapter is called. *)
Definition started (now : Time) (v : Scan.t) : Scan.t :=
  Scan.mk (Scan.ID v) (Scan.UserID v) (Scan.Options v) ScanStatusRunning 0
    (Scan.CreatedAt v) (Some now) (Scan.CompletedAt v) (Scan.Error v) (Scan.ResultID v).

(** The scan object when the goroutine ends, after a result and after an
    error. *)
Definition completed (completedAt : Time) (resultID : string) (v : Scan.t) : Scan.t :=
  Scan.mk (Scan.ID v) (Scan.UserID v) (Scan.Options v) ScanStatusCompleted 100
    (Scan.CreatedAt v) (Scan.StartedAt v) (Some completedAt) (Scan.Error v) resultID.

Definition failed (completedAt : Time) (err : error) (v : Scan.t) : Scan.t :=
  Scan.mk (Scan.ID v) (Scan.UserID v) (Scan.Options v) ScanStatusFailed (Scan.Progress v)
    (Scan.CreatedAt v) (Scan.StartedAt v) (Some completedAt) (Error_string err)
    (Scan.ResultID v).

(** The count the specification speaks of, to set beside
    [size (activeScans s)], the count the code takes: the ids, registered or
    stored, under which [GetScan] shows a scan that is not terminal, Pending
    or Running. *)
Definition is_non_terminal (v : Scan.t) : bool :=
  bool_decide (Scan.Status v = ScanStatusPending)
  || bool_decide (Scan.Status v = ScanStatusRunning).

Definition non_terminal_scans (s : Service) : list string :=
  filter (fun id => from_option is_non_terminal false (observe id s))
         (elements (dom (activeScans s) ∪ dom (repository.scans (repository s)))).

(** [strings.Contains] *)
Fixpoint Contains (s substr : string) : bool :=
  String.prefix substr s
  || match s with
     | EmptyString => false
     | String _ s' => Contains s' substr
     end.

Module ScanSummary.
Record t : Type := mk {
  ID : string;
  UserID : string;
  Target : string;
  Status : ScanStatus;
  StartTime : option Time;
  EndTime : option Time;
  Duration' : float;
  TotalHosts : Z;
  UpHosts : Z;
  OpenPorts : Z;
  VulnCount : Z;
  HasResults : bool
}.
End ScanSummary.

(** The two counting loops of [CreateScanSummary]; [summary.OpenPorts++] and
    [summary.VulnCount++] are [int] increments. *)
Definition count_open_ports (hosts : list Host.t) : Z :=
  foldl (fun n host =>
           foldl (fun n port =>
                    if bool_decide (Port.State port = "open") then wrap64 (n + 1) else n)
                 n (Host.Ports host))
        0 hosts.

Definition count_vulnerable (hosts : list Host.t) : Z :=
  foldl (fun n host =>
           foldl (fun n script =>
                    if Contains (Script.Output script) "VULNERABLE" then wrap64 (n + 1) else n)
                 n (Host.Scripts host))
        0 hosts.

(** [CreateScanSummary]; [result] is [None] for a [nil] result, and [Seconds]
    is [time.Duration.Seconds]. *)
Definition CreateScanSummary (Seconds : Duration -> float)
    (scan : Scan.t) (result : option ScanResult.t) : ScanSummary.t :=
  let duration :=
    match Scan.StartedAt scan, Scan.CompletedAt scan with
    | Some startedAt, Some completedAt => Seconds (completedAt - startedAt)
    | _, _ => 0%float
    end in
  match result with
  | Some result =>
      ScanSummary.mk (Scan.ID scan) (Scan.UserID scan)
        (ScanOptions.Target (Scan.Options scan)) (Scan.Status scan)
        (Scan.StartedAt scan) (Scan.CompletedAt scan) duration
        (ScanResult.TotalHosts result) (ScanResult.UpHosts result)
        (count_open_ports (ScanResult.Hosts result))
        (count_vulnerable (ScanResult.Hosts result))
        true
  | None =>
      ScanSummary.mk (Scan.ID scan) (Scan.UserID scan)
        (ScanOptions.Target (Scan.Options scan)) (Scan.Status scan)
        (Scan.StartedAt scan) (Scan.CompletedAt scan) duration 0 0 0 0 false
  end.

(** ** More of the adapter *)

(** The [domain.Port] that the port loop of [convertToDomainModel] builds. *)
Definition port_of (xmlPort : adapters.XMLPort) : Port.t :=
  Port.mk (adapters.Port_PortID xmlPort) (adapters.Port_Protocol xmlPort)
    (adapters.Port_State_State xmlPort)
    (adapters.Service_Name (adapters.Port_Service xmlPort))
    (adapters.Service_Product (adapters.Port_Service xmlPort))
    (adapters.Service_Version (adapters.Port_Service xmlPort))
    (adapters.Service_ExtraInfo (adapters.Port_Service xmlPort)).

(** The flags between the target and the extra options. *)
Definition flags (options : ScanOptions.t) : list string :=
  (if bool_decide (ScanOptions.Ports options ≠ "")
   then ["-p"; ScanOptions.Ports options] else [])
  ++ adapters.scan_type_flag (ScanOptions.ScanType' options)
  ++ (if (ScanOptions.TimingTemplate' options >=? TimingParanoid)
         && (ScanOptions.TimingTemplate' options <=? TimingInsane)
      then ["-T" +:+ pretty (ScanOptions.TimingTemplate' options)] else [])
  ++ (if ScanOptions.ServiceDetection options then ["-sV"] else [])
  ++ (if ScanOptions.OSDetection options then ["-O"] else [])
  ++ (if ScanOptions.ScriptScan options then ["-sC"] else []).


(** ** [domain/service_test.go]: the repository double

    [MockScanRepository] answers each call with what the test configured
    for it ([On(...).Return(...)]) and keeps no scans. *)

Record MockScanRepository : Type := mkMock {
  SaveScan_returns : outcome unit;
  UpdateScan_returns : outcome unit;
  GetScanByID_returns : outcome Scan.t
}.

#[global] Instance MockScanRepository_ScanRepository : ScanRepository MockScanRepository := {
  SaveScan := fun _ m => (SaveScan_returns m, m);
  UpdateScan := fun _ m => (UpdateScan_returns m, m);
  GetScanByID := fun _ m => (GetScanByID_returns m, m)
}.

(** ** Strings *)

(** [strings.Split(s, sep)] for a separator of one byte, which is how the
    code calls it: the pieces between the occurrences of [sep], at least one
    piece. *)
Fixpoint SplitByte (sep : Ascii.ascii) (s : string) : list string :=
  match s with
  | EmptyString => [EmptyString]
  | String c s' =>
      if bool_decide (c = sep) then EmptyString :: SplitByte sep s'
      else
        match SplitByte sep s' with
        | piece :: pieces => String c piece :: pieces
        | [] => [String c EmptyString]
        end
  end.

(** The line feed, ["\n"]. *)
Definition LF : Ascii.ascii := Ascii.ascii_of_nat 10.

(** ** The adapter's version check and the service's health checks *)

(** [(a *NmapAdapter) GetVersion]; [run] is what running [nmap --version]
    gives: the standard output collected in [out], and the error of
    [cmd.Run()], [nil] after a successful run. [strings.Split] returns at
    least one piece, so the index [0] is always in range. *)
Definition GetVersion (run : string * error) : outcome string :=
  match run.2 with
  | nil => Returns (default "" (head (SplitByte LF run.1)))
  | err => Fails (NewUnavailable "failed to get nmap version" err)
  end.

(** [IsAvailable]: [_, err := a.GetVersion(); return err == nil] *)
Definition IsAvailable (run : string * error) : bool :=
  match GetVersion run with
  | Fails _ => false
  | _ => true
  end.

(** [(s *ScanService) ValidateNmap] and [GetNmapVersion] *)
Definition ValidateNmap (run : string * error) : error :=
  if negb (IsAvailable run) then NewUnavailable "nmap is not available" nil else nil.

Definition GetNmapVersion (run : string * error) : outcome string :=
  match GetVersion run with
  | Fails err => Fails (NewUnavailable "failed to get nmap version" err)
  | other => other
  end.

(** ** [handlers/http.go] *)

Module handlers.

Record StartScanRequest : Type := mkStartScanRequest {
  Target : string;
  Ports : string;
  ScanType' : ScanType;
  TimingTemplate' : TimingTemplate;
  ServiceDetection : bool;
  OSDetection : bool;
  ScriptScan : bool;
  ExtraOptions : list string;
  TimeoutSeconds : Z
}.

(** The JSON bodies the handlers write. *)
Inductive body : Type :=
| error_body (error_ : string)
| started_body (message scan_id : string)
| scan_body (scan : Scan.t)
| scans_body (scans : list Scan.t) (limit offset count : Z)
| cancelled_body (message scan_id : string)
| result_body (result : ScanResult.t)
| unhealthy_body (status error_ : string)
| healthy_body (status nmap_version timestamp : string).

(** [c.JSON(status, body)] *)
Record Response : Type := JSON {
  status : Z;
  payload : body
}.

(** [c.GetString("user_id")], with the default the handlers apply. *)
Definition user_of (user_id : string) : string :=
  if bool_decide (user_id = "") then "default-user" else user_id.

(** [StartScan]; [bind] is what [c.ShouldBindJSON(&req)] gives, the decoded
    request or its error, and [user_id] what [c.GetString("user_id")]
    returns. *)
Definition StartScan (now : Time) (id : string) (bind : outcome StartScanRequest)
    (user_id : string) (s : Service) : outcome Response * Service :=
  match bind with
  | Fails err =>
      (Returns (JSON StatusBadRequest (error_body ("Invalid request: " +:+ Error_string err))), s)
  | Panics msg => (Panics msg, s)
  | Returns req =>
      let userID := user_of user_id in
      let options :=
        ScanOptions.mk (Target req) (Ports req) (ScanType' req) (TimingTemplate' req)
          (ServiceDetection req) (OSDetection req) (ScriptScan req) (ExtraOptions req) 0 in
      let options :=
        if TimeoutSeconds req >? 0
        then ScanOptions.with_Timeout (wrap64 (TimeoutSeconds req * Second)) options
        else ScanOptions.with_Timeout (5 * Minute) options in
      match StartScan now id userID options s with
      | (Fails err, s) =>
          (Returns (JSON StatusInternalServerError
                      (error_body ("Failed to start scan: " +:+ Error_string err))), s)
      | (Panics msg, s) => (Panics msg, s)
      | (Returns scan, s) =>
          match memory s !! scan with
          | None => (Panics "nil pointer dereference", s)
          | Some v => (Returns (JSON StatusAccepted (started_body "Scan started" (Scan.ID v))), s)
          end
      end
  end.

(** [GetScan] *)
Definition GetScan (scanID : string) (s : Service) : outcome Response * Service :=
  if bool_decide (scanID = "") then
    (Returns (JSON StatusBadRequest (error_body "Scan ID is required")), s)
  else
    match GetScan scanID s with
    | (Fails err, s) =>
        (Returns (JSON StatusNotFound
                    (error_body ("Failed to get scan: " +:+ Error_string err))), s)
    | (Panics msg, s) => (Panics msg, s)
    | (Returns scan, s) =>
        match memory s !! scan with
        | None => (Panics "nil pointer dereference", s)
        | Some v => (Returns (JSON StatusOK (scan_body v)), s)
        end
    end.

(** [ListScans]; [limit] and [offset] are the query parameters when present,
    [Atoi] is [strconv.Atoi], and [ks] the order in which the repository's
    [range] visits its scans. *)
Definition ListScans (Atoi : string -> Z * error) (ks : list string) (user_id : string)
    (limit offset : option string) (s : Service) : outcome Response :=
  let userID := user_of user_id in
  let limit := (Atoi (default "10" limit)).1 in
  let offset := (Atoi (default "0" offset)).1 in
  let limit := if limit <? 1 then 10 else if limit >? 100 then 100 else limit in
  let offset := if offset <? 0 then 0 else offset in
  match ListScans ks userID limit offset s with
  | Fails err =>
      Returns (JSON StatusInternalServerError
                 (error_body ("Failed to list scans: " +:+ Error_string err)))
  | Panics msg => Panics msg
  | Returns scans =>
      Returns (JSON StatusOK (scans_body scans limit offset (Z.of_nat (length scans))))
  end.

(** [CancelScan] *)
Definition CancelScan (now : Time) (scanID : string) (s : Service)
  : outcome Response * Service :=
  if bool_decide (scanID = "") then
    (Returns (JSON StatusBadRequest (error_body "Scan ID is required")), s)
  else
    match CancelScan now scanID s with
    | (Fails err, s) =>
        (Returns (JSON StatusInternalServerError
                    (error_body ("Failed to cancel scan: " +:+ Error_string err))), s)
    | (Panics msg, s) => (Panics msg, s)
    | (Returns _, s) =>
        (Returns (JSON StatusOK (cancelled_body "Scan cancelled" scanID)), s)
    end.

(** [GetScanResult] *)
Definition GetScanResult (resultID : string) (s : Service) : outcome Response :=
  if bool_decide (resultID = "") then
    Returns (JSON StatusBadRequest (error_body "Result ID is required"))
  else
    match GetScanResult resultID s with
    | Fails err =>
        Returns (JSON StatusNotFound
                   (error_body ("Failed to get scan result: " +:+ Error_string err)))
    | Panics msg => Panics msg
    | Returns result => Returns (JSON StatusOK (result_body result))
    end.

(** [GetHealth]; [run1] and [run2] are the two runs of [nmap --version] that
    [ValidateNmap] and [GetNmapVersion] start, and [timestamp] is
    [time.Now().Format(time.RFC3339)]. *)
Definition GetHealth (run1 run2 : string * error) (timestamp : string)
  : outcome Response :=
  match ValidateNmap run1 with
  | nil =>
      match GetNmapVersion run2 with
      | Fails err =>
          Returns (JSON StatusServiceUnavailable
                     (unhealthy_body "unhealthy"
                        ("Failed to get nmap version: " +:+ Error_string err)))
      | Panics msg => Panics msg
      | Returns version => Returns (JSON StatusOK (healthy_body "healthy" version timestamp))
      end
  | err =>
      Returns (JSON StatusServiceUnavailable
                 (unhealthy_body "unhealthy" ("Nmap is not available: " +:+ Error_string err)))
  end.

End handlers.

(** ** [internal/config] *)

(** [time.Hour] *)
Definition Hour : Duration := 60 * Minute.

Module config.

Module AppConfig.
Record t : Type := mk {
  Name : string;
  Version : string
}.
End AppConfig.

Module HTTPServerConfig.
Record t : Type := mk {
  Port : Z;
  Timeout : Duration;
  ReadTimeout : Duration;
  WriteTimeout : Duration
}.
End HTTPServerConfig.

Module GRPCServerConfig.
Record t : Type := mk {
  Port : Z;
  Timeout : Duration
}.
End GRPCServerConfig.

Module ServerConfig.
Record t : Type := mk {
  HTTP : HTTPServerConfig.t;
  GRPC : GRPCServerConfig.t
}.
End ServerConfig.

Module NmapConfig.
Record t : Type := mk {
  Path : string;
  Timeout : Duration;
  MaxConcurrentScans : Z
}.
End NmapConfig.

Module LogConfig.
Record t : Type := mk {
  Level : string;
  Format : string;
  Output : string
}.
End LogConfig.

Module StorageConfig.
Record t : Type := mk {
  Type' : string;
  RetentionPeriod : Duration
}.
End StorageConfig.

Record Config : Type := mkConfig {
  App : AppConfig.t;
  Server : ServerConfig.t;
  Nmap : NmapConfig.t;
  Log : LogConfig.t;
  Storage : StorageConfig.t
}.

(** [if field == "" { field = value }] and [if field == 0 { field = value }] *)
Definition default_string (value field : string) : string :=
  if bool_decide (field = "") then value else field.
Definition default_int (value field : Z) : Z :=
  if bool_decide (field = 0) then value else field.

(** [setDefaults]: each assignment is to the field its own test reads, so the
    sequence of assignments is written field by field. *)
Definition setDefaults (config : Config) : Config :=
  mkConfig
    (AppConfig.mk
       (default_string "scanner-service" (AppConfig.Name (App config)))
       (default_string "0.1.0" (AppConfig.Version (App config))))
    (ServerConfig.mk
       (HTTPServerConfig.mk
          (default_int 8081 (HTTPServerConfig.Port (ServerConfig.HTTP (Server config))))
          (default_int (30 * Second)
             (HTTPServerConfig.Timeout (ServerConfig.HTTP (Server config))))
          (default_int (15 * Second)
             (HTTPServerConfig.ReadTimeout (ServerConfig.HTTP (Server config))))
          (default_int (15 * Second)
             (HTTPServerConfig.WriteTimeout (ServerConfig.HTTP (Server config)))))
       (GRPCServerConfig.mk
          (default_int 9081 (GRPCServerConfig.Port (ServerConfig.GRPC (Server config))))
          (default_int (30 * Second)
             (GRPCServerConfig.Timeout (ServerConfig.GRPC (Server config))))))
    (NmapConfig.mk
       (default_string "nmap" (NmapConfig.Path (Nmap config)))
       (default_int (300 * Second) (NmapConfig.Timeout (Nmap config)))
       (default_int 5 (NmapConfig.MaxConcurrentScans (Nmap config))))
    (LogConfig.mk
       (default_string "info" (LogConfig.Level (Log config)))
       (default_string "json" (LogConfig.Format (Log config)))
       (default_string "stdout" (LogConfig.Output (Log config))))
    (StorageConfig.mk
       (default_string "memory" (StorageConfig.Type' (Storage config)))
       (default_int (168 * Hour) (StorageConfig.RetentionPeriod (Storage config)))).

(** No field of the configuration holds the zero value of its type. *)
Definition complete (config : Config) : Prop :=
  AppConfig.Name (App config) ≠ ""
  /\ AppConfig.Version (App config) ≠ ""
  /\ HTTPServerConfig.Port (ServerConfig.HTTP (Server config)) ≠ 0
  /\ HTTPServerConfig.Timeout (ServerConfig.HTTP (Server config)) ≠ 0
  /\ HTTPServerConfig.ReadTimeout (ServerConfig.HTTP (Server config)) ≠ 0
  /\ HTTPServerConfig.WriteTimeout (ServerConfig.HTTP (Server config)) ≠ 0
  /\ GRPCServerConfig.Port (ServerConfig.GRPC (Server config)) ≠ 0
  /\ GRPCServerConfig.Timeout (ServerConfig.GRPC (Server config)) ≠ 0
  /\ NmapConfig.Path (Nmap config) ≠ ""
  /\ NmapConfig.Timeout (Nmap config) ≠ 0
  /\ NmapConfig.MaxConcurrentScans (Nmap config) ≠ 0
  /\ LogConfig.Level (Log config) ≠ ""
  /\ LogConfig.Format (Log config) ≠ ""
  /\ LogConfig.Output (Log config) ≠ ""
  /\ StorageConfig.Type' (Storage config) ≠ ""
  /\ StorageConfig.RetentionPeriod (Storage config) ≠ 0.

(** The repository and the service that [main] builds from a configuration:
    [repository.NewMemoryScanRepository(log, cfg.Storage.RetentionPeriod)] and
    [domain.NewScanService(nmapAdapter, scanRepo, log,
    cfg.Nmap.MaxConcurrentScans)]. *)
Definition scanService (cfg : Config) : Service :=
  NewScanService
    (repository.NewMemoryScanRepository (StorageConfig.RetentionPeriod (Storage cfg)))
    (NmapConfig.MaxConcurrentScans (Nmap cfg)).

End config.

(** ** [pkg/utils] *)

Module utils.

Definition comma : Ascii.ascii := Ascii.ascii_of_nat 44.
Definition hyphen : Ascii.ascii := Ascii.ascii_of_nat 45.

(** The body of the loop of [PortRangeToSlice] for one piece [r]: the ports
    it appends, or the error it returns. [Sscanf] is
    [fmt.Sscanf(_, "%d", &n)]: the number read, or [None] when it returns an
    error. *)
Definition ports_of_piece (Sscanf : string -> option Z) (r : string) : outcome (list Z) :=
  if Contains r "-" then
    match SplitByte hyphen r with
    | [part0; part1] =>
        match Sscanf part0 with
        | None => Fails (Plain ("invalid start port: " +:+ part0))
        | Some start =>
            match Sscanf part1 with
            | None => Fails (Plain ("invalid end port: " +:+ part1))
            | Some end_ =>
                if start >? end_ then
                  Fails (Plain ("start port greater than end port: "
                                +:+ pretty start +:+ " > " +:+ pretty end_))
                else if (start <? 1) || (end_ >? 65535) then
                  Fails (Plain ("port range out of bounds (1-65535): "
                                +:+ pretty start +:+ "-" +:+ pretty end_))
                else
                  (* for port := start; port <= end; port++ *)
                  Returns (seqZ start (end_ - start + 1))
            end
        end
    | _ => Fails (Plain ("invalid port range: " +:+ r))
    end
  else
    match Sscanf r with
    | None => Fails (Plain ("invalid port: " +:+ r))
    | Some port =>
        if (port <? 1) || (port >? 65535) then
          Fails (Plain ("port out of bounds (1-65535): " +:+ pretty port))
        else Returns [port]
    end.

(** The loop over the pieces, with the slice [ports] built so far; the first
    error ends it. *)
Fixpoint collect_ports (Sscanf : string -> option Z) (ranges : list string) (ports : list Z)
  : outcome (list Z) :=
  match ranges with
  | [] => Returns ports
  | r :: ranges =>
      match ports_of_piece Sscanf r with
      | Returns more => collect_ports Sscanf ranges (ports ++ more)
      | Fails err => Fails err
      | Panics msg => Panics msg
      end
  end.

(** [PortRangeToSlice] *)
Definition PortRangeToSlice (Sscanf : string -> option Z) (portRange : string)
  : outcome (list Z) :=
  collect_ports Sscanf (SplitByte comma portRange) [].

End utils.

(** * Properties *)

(** ** Machine integers *)

Lemma wrap64_id z : is_int z -> wrap64 z = z.
Proof.
  unfold is_int, MinInt, MaxInt, wrap64. intros H.
  rewrite Z.mod_small by lia. lia.
Qed.

Lemma wrap64_is_int z : is_int (wrap64 z).
Proof.
  unfold is_int, MinInt, MaxInt, wrap64.
  pose proof (Z.mod_pos_bound (z + 2 ^ 63) (2 ^ 64)). lia.
Qed.

(** ** Properties of the orchestrator *)

Section service_facts.

Context {R : Type} `{ScanRepository R}.

Lemma validateScanOptions_empty_target options :
  ScanOptions.Target options = "" ->
  (validateScanOptions options).2 = NewInvalidInput "target is required" nil.
Proof.
  intros Ht. unfold validateScanOptions.
  rewrite bool_decide_eq_true_2 by done. reflexivity.
Qed.

Lemma validateScanOptions_target options :
  ScanOptions.Target options ≠ "" -> (validateScanOptions options).2 = nil.
Proof.
  intros Ht. unfold validateScanOptions.
  rewrite bool_decide_eq_false_2 by done. reflexivity.
Qed.

(** Whatever the timing level, timeout and port specification are, a request
    with a target passes validation. *)
Lemma validateScanOptions_never_rejects_timing options :
  ScanOptions.Target options ≠ "" ->
  forall tt d p,
    (validateScanOptions
       (ScanOptions.with_TimingTemplate tt
          (ScanOptions.with_Timeout d (ScanOptions.with_Ports p options)))).2 = nil.
Proof. intros Ht tt d p. apply validateScanOptions_target. exact Ht. Qed.

Lemma StartScan_rejected now id userID options (s : ScanService R) :
  ScanOptions.Target options = "" ->
  StartScan now id userID options s
  = (Fails (NewInvalidInput "target is required" nil), s).
Proof.
  intros Ht. unfold StartScan.
  pose proof (validateScanOptions_empty_target options Ht) as Hv.
  destruct (validateScanOptions options) as [o e]. simpl in Hv. subst e.
  reflexivity.
Qed.

Lemma StartScan_full now id userID options (s : ScanService R) :
  ScanOptions.Target options ≠ "" ->
  maxConcurrentScans s <= Z.of_nat (size (activeScans s)) ->
  StartScan now id userID options s
  = (Fails (NewUnavailable "maximum concurrent scans reached" nil), s).
Proof.
  intros Ht Hfull. unfold StartScan.
  pose proof (validateScanOptions_target options Ht) as Hv.
  destruct (validateScanOptions options) as [o e]. simpl in Hv. subst e.
  destruct (Z.geb_spec (Z.of_nat (size (activeScans s))) (maxConcurrentScans s)); [done | lia].
Qed.

End service_facts.

(** C3. For every [ScanOptions] whose target is the empty string and every
    user id, [StartScan] fails with an error of type [ErrInvalidInput]; the
    service is left as it was: nothing is added to the active set, nothing
    is allocated and the repository is not called. *)
Theorem StartScan_empty_target_invalid_input :
  forall (R : Type) (HR : ScanRepository R) (now : Time) (id userID : string)
         (options : ScanOptions.t) (s : ScanService R),
    ScanOptions.Target options = "" ->
    exists e s',
      StartScan now id userID options s = (Fails e, s')
      /\ Type_of e = Some ErrInvalidInput
      /\ activeScans s' = activeScans s
      /\ repository s' = repository s
      /\ memory s' = memory s.
Proof.
  intros R HR now id userID options s Ht.
  exists (NewInvalidInput "target is required" nil), s.
  rewrite StartScan_rejected by exact Ht. repeat split.
Qed.

(** A request without a target. *)
Lemma StartScan_empty_target_invalid_input_witness :
  let options := ScanOptions.mk "" "22,80" ScanTypeConnect 3 false false false [] (5 * Second) in
  let s := NewScanService (repository.NewMemoryScanRepository (60 * Minute)) 10 in
  exists e s',
    StartScan 1000 "job-1" "alice" options s = (Fails e, s')
    /\ Type_of e = Some ErrInvalidInput
    /\ activeScans s' = activeScans s
    /\ repository s' = repository s
    /\ memory s' = memory s.
Proof.
  intros options s.
  apply (StartScan_empty_target_invalid_input _ _ 1000 "job-1" "alice" options s).
  reflexivity.
Defined.

(** The options of the scan [StartScan] returns, and of the record the
    in-memory store keeps for it, are the caller's options as they were
    passed. *)
Lemma StartScan_options_verbatim now id userID options
    (s : ScanService repository.MemoryScanRepository) scan s' :
  StartScan now id userID options s = (Returns scan, s') ->
  Scan.Options <$> deref s' scan = Some options
  /\ Scan.Options <$> repository.scans (repository s') !! id = Some options.
Proof.
  unfold StartScan. destruct (validateScanOptions options) as [o e].
  destruct e; try (intros [=]; fail).
  destruct (_ >=? _); [intros [=] |].
  unfold alloc, deref. cbn [with_memory with_activeScans memory activeScans
    repository maxConcurrentScans with_repository].
  rewrite lookup_app_r by lia. rewrite Nat.sub_diag. cbn [lookup list_lookup].
  cbn. intros [= <- <-]. cbn.
  rewrite lookup_app_r by lia. rewrite Nat.sub_diag. cbn.
  rewrite lookup_insert_eq. done.
Qed.

(** C1. The defaults are assigned inside [validateScanOptions] to its own
    copy of the options and are lost when it returns. For a request with a
    target, no ports, no timeout and timing level 9, [StartScan] succeeds, and
    the scan it returns and the record it persists carry the empty port
    specification, the zero timeout and the level 9, although validation
    computed "1-1000", five minutes and level 3. *)
Theorem StartScan_defaults_are_dropped :
  let options :=
    ScanOptions.mk "10.0.0.5" "" ScanTypeConnect 9 false false false [] 0 in
  let s := NewScanService (repository.NewMemoryScanRepository (24 * 60 * Minute)) 10 in
  (validateScanOptions options).1
  = ScanOptions.mk "10.0.0.5" "1-1000" ScanTypeConnect TimingNormal
      false false false [] (5 * Minute)
  /\ exists scan s',
      StartScan 1000 "job-1" "alice" options s = (Returns scan, s')
      /\ Scan.Options <$> deref s' scan = Some options
      /\ Scan.Options <$> repository.scans (repository s') !! "job-1" = Some options
      /\ ScanOptions.Ports options ≠ "1-1000"
      /\ ScanOptions.Timeout options ≠ 5 * Minute
      /\ ScanOptions.TimingTemplate' options ≠ TimingNormal.
Proof.
  intros options s. split; [reflexivity |].
  destruct (StartScan 1000 "job-1" "alice" options s) as [o s'] eqn:E.
  assert (exists scan, o = Returns scan) as [scan ->].
  { revert E. unfold StartScan, options, s. cbn. intros [= <- _]. eauto. }
  exists scan, s'. split; [reflexivity |].
  destruct (StartScan_options_verbatim _ _ _ _ _ _ _ E) as [H1 H2].
  repeat split; try assumption; discriminate.
Qed.

(** ** [CancelScan] over the in-memory store *)

Section cancel.

Implicit Types s : ScanService repository.MemoryScanRepository.

(** A scan is visible either through the pointer of the active set or as a
    record of the store. *)
Lemma observe_cases id s v :
  observe id s = Some v ->
  (exists scan, activeScans s !! id = Some scan /\ memory s !! scan = Some v
                /\ GetScan id s = (Returns scan, s))
  \/ (activeScans s !! id = None /\ repository.scans (repository s) !! id = Some v
      /\ GetScan id s = (Returns (length (memory s)), with_memory (memory s ++ [v]) s)).
Proof.
  unfold observe, GetScan, deref.
  destruct (activeScans s !! id) as [scan|] eqn:Ha.
  - intros Hm. left. eauto.
  - cbn. unfold repository.GetScanByID.
    destruct (repository.scans (repository s) !! id) as [w|] eqn:Hr; [| done].
    destruct s as [r mx a m]. cbn in *.
    rewrite lookup_app_r by lia. rewrite Nat.sub_diag. cbn.
    intros [= ->]. right. done.
Qed.

Lemma observe_active id s scan v :
  activeScans s !! id = Some scan -> memory s !! scan = Some v ->
  observe id s = Some v.
Proof. intros Ha Hm. unfold observe, GetScan. rewrite Ha. exact Hm. Qed.

Lemma observe_stored id s v :
  activeScans s !! id = None -> repository.scans (repository s) !! id = Some v ->
  observe id s = Some v.
Proof.
  intros Ha Hr. unfold observe, GetScan. rewrite Ha. cbn.
  unfold repository.GetScanByID. rewrite Hr.
  destruct s as [r mx a m]. cbn. unfold deref. cbn.
  rewrite lookup_app_r by lia. rewrite Nat.sub_diag. done.
Qed.

Lemma not_cancellable_test (v : Scan.t) :
  Scan.Status v ≠ ScanStatusRunning -> Scan.Status v ≠ ScanStatusPending ->
  bool_decide (Scan.Status v ≠ ScanStatusRunning)
  && bool_decide (Scan.Status v ≠ ScanStatusPending) = true.
Proof. intros. rewrite !bool_decide_eq_true_2 by done. done. Qed.

Lemma cancellable_test (v : Scan.t) :
  Scan.Status v = ScanStatusRunning \/ Scan.Status v = ScanStatusPending ->
  bool_decide (Scan.Status v ≠ ScanStatusRunning)
  && bool_decide (Scan.Status v ≠ ScanStatusPending) = false.
Proof.
  intros [E | E].
  - rewrite (bool_decide_eq_false_2 (Scan.Status v ≠ ScanStatusRunning)); [done | tauto].
  - rewrite (bool_decide_eq_false_2 (Scan.Status v ≠ ScanStatusPending)); [| tauto].
    apply andb_false_r.
Qed.

Lemma CancelScan_terminal now id s v :
  observe id s = Some v ->
  Scan.Status v ≠ ScanStatusRunning -> Scan.Status v ≠ ScanStatusPending ->
  exists s',
    CancelScan now id s = (Fails (NewInvalidInput "scan is not running or pending" nil), s')
    /\ activeScans s' = activeScans s
    /\ repository s' = repository s
    /\ memory s `prefix_of` memory s'
    /\ observe id s' = Some v.
Proof.
  intros Ho H1 H2. pose proof (not_cancellable_test v H1 H2) as Ht.
  destruct (observe_cases _ _ _ Ho) as [(scan & Ha & Hm & Hg) | (Ha & Hr & Hg)].
  - exists s. unfold CancelScan. rewrite Hg, Hm, Ht.
    repeat split; [done | exact Ho].
  - exists (with_memory (memory s ++ [v]) s). unfold CancelScan. rewrite Hg.
    cbn. rewrite lookup_app_r by lia. rewrite Nat.sub_diag. cbn. rewrite Ht.
    repeat split.
    + by apply prefix_app_r.
    + apply observe_stored; assumption.
Qed.

Lemma CancelScan_cancellable now id s v :
  observe id s = Some v ->
  Scan.Status v = ScanStatusRunning \/ Scan.Status v = ScanStatusPending ->
  Scan.ID v = id ->
  is_Some (repository.scans (repository s) !! id) ->
  exists s',
    CancelScan now id s = (Returns tt, s')
    /\ repository.scans (repository s') = <[id := cancelled now v]> (repository.scans (repository s))
    /\ activeScans s' = delete id (activeScans s)
    /\ observe id s' = Some (cancelled now v).
Proof.
  intros Ho Hst Hid [w Hw]. pose proof (cancellable_test v Hst) as Ht.
  destruct (observe_cases _ _ _ Ho) as [(scan & Ha & Hm & Hg) | (Ha & Hr & Hg)].
  - unfold CancelScan. rewrite Hg, Hm, Ht.
    assert (Hlt : (scan < length (memory s))%nat) by (eapply lookup_lt_Some; eauto).
    unfold store. rewrite Hm. cbn.
    rewrite list_lookup_insert_eq by done. cbn.
    rewrite list_lookup_insert_eq by (rewrite length_insert; done). cbn.
    unfold repository.UpdateScan. cbn. rewrite Hid, Hw.
    eexists. split; [reflexivity |]. cbn. repeat split.
    apply observe_stored; cbn.
    + apply lookup_delete_eq.
    + apply lookup_insert_eq.
  - unfold CancelScan. rewrite Hg. cbn.
    rewrite lookup_app_r by lia. rewrite Nat.sub_diag. cbn. rewrite Ht.
    unfold store. cbn.
    rewrite lookup_app_r by lia. rewrite Nat.sub_diag. cbn.
    rewrite insert_app_r_alt by lia. rewrite Nat.sub_diag. cbn.
    rewrite lookup_app_r by lia. rewrite Nat.sub_diag. cbn.
    rewrite insert_app_r_alt by lia. rewrite Nat.sub_diag. cbn.
    rewrite lookup_app_r by lia. rewrite Nat.sub_diag. cbn.
    unfold repository.UpdateScan. cbn. rewrite Hid, Hw.
    eexists. split; [reflexivity |]. cbn. repeat split.
    apply observe_stored; cbn.
    + apply lookup_delete_eq.
    + apply lookup_insert_eq.
Qed.

End cancel.

(** C4, as the code has it. A scan that [GetScan] shows with a status other
    than Running and Pending is not touched: [CancelScan] fails, with the
    type [ErrInvalidInput] ([pkg/errors] has no invalid-state type), the
    active set and the store are what they were, no existing object is
    written, and the scan still shows the same status and completion time.
    A Running or Pending scan that is registered under its own id and has a
    record in the store becomes Cancelled with the completion time set to
    the current time; the store holds the updated record, and the id is
    deleted from the active set. *)
Theorem CancelScan_status_gate :
  forall (now : Time) (id : string)
         (s : ScanService repository.MemoryScanRepository) (v : Scan.t),
    observe id s = Some v ->
    (Scan.Status v ≠ ScanStatusRunning -> Scan.Status v ≠ ScanStatusPending ->
     exists e s',
       CancelScan now id s = (Fails e, s')
       /\ Type_of e = Some ErrInvalidInput
       /\ activeScans s' = activeScans s
       /\ repository s' = repository s
       /\ memory s `prefix_of` memory s'
       /\ observe id s' = Some v)
    /\ (Scan.Status v = ScanStatusRunning \/ Scan.Status v = ScanStatusPending ->
        Scan.ID v = id ->
        is_Some (repository.scans (repository s) !! id) ->
        exists s',
          CancelScan now id s = (Returns tt, s')
          /\ repository.scans (repository s')
             = <[id := cancelled now v]> (repository.scans (repository s))
          /\ activeScans s' = delete id (activeScans s)
          /\ observe id s' = Some (cancelled now v)
          /\ Scan.Status (cancelled now v) = ScanStatusCancelled
          /\ Scan.CompletedAt (cancelled now v) = Some now).
Proof.
  intros now id s v Ho. split.
  - intros H1 H2.
    destruct (CancelScan_terminal now id s v Ho H1 H2) as (s' & Hc & Ha & Hr & Hm & Ho').
    exists (NewInvalidInput "scan is not running or pending" nil), s'.
    repeat split; assumption.
  - intros Hst Hid Hin.
    destruct (CancelScan_cancellable now id s v Ho Hst Hid Hin) as (s' & Hc & Hr & Ha & Ho').
    exists s'. repeat split; assumption.
Qed.

(** A running job of the active set with its record in the store, and a
    completed job of the store. *)
Lemma CancelScan_status_gate_witness :
  let o := ScanOptions.mk "10.0.0.5" "22,80" ScanTypeConnect 3 false false false [] (5 * Second) in
  let running := Scan.mk "job-1" "alice" o ScanStatusRunning 0 10 (Some 11) None "" "" in
  let done_ := Scan.mk "job-2" "alice" o ScanStatusCompleted 100 5 (Some 6) (Some 9) "" "res-2" in
  let s := mkScanService
             (repository.mk (<["job-1" := running]> {["job-2" := done_]}) ∅ (60 * Minute))
             10 {["job-1" := 0%nat]} [running] in
  (exists e s', CancelScan 20 "job-2" s = (Fails e, s')
                /\ Type_of e = Some ErrInvalidInput
                /\ observe "job-2" s' = Some done_)
  /\ (exists s', CancelScan 20 "job-1" s = (Returns tt, s')
                 /\ activeScans s' = delete "job-1" (activeScans s)
                 /\ observe "job-1" s' = Some (cancelled 20 running)).
Proof.
  intros o running done_ s. split.
  - destruct (CancelScan_status_gate 20 "job-2" s done_) as [H _]; [reflexivity |].
    destruct H as (e & s' & Hc & He & _ & _ & _ & Ho); [discriminate | discriminate |].
    exists e, s'. repeat split; assumption.
  - destruct (CancelScan_status_gate 20 "job-1" s running) as [_ H]; [reflexivity |].
    destruct H as (s' & Hc & _ & Ha & Ho & _); [left; reflexivity | reflexivity | |].
    + exists running. reflexivity.
    + exists s'. repeat split; assumption.
Defined.

(** C4 does not hold with an invalid-state type: cancelling a Completed job fails with an
    error whose type is [ErrInvalidInput], the type [StartScan] gives a
    missing target, and no other type. *)
Lemma CancelScan_completed_fails_invalid_input :
  let o := ScanOptions.mk "10.0.0.5" "22,80" ScanTypeConnect 3 false false false [] (5 * Second) in
  let done_ := Scan.mk "job-2" "alice" o ScanStatusCompleted 100 5 (Some 6) (Some 9) "" "res-2" in
  let s := mkScanService (repository.mk {["job-2" := done_]} ∅ (60 * Minute)) 10 ∅ [] in
  exists e s',
    CancelScan 20 "job-2" s = (Fails e, s')
    /\ Type_of e = Some ErrInvalidInput
    /\ (forall t, t ≠ ErrInvalidInput -> Type_of e ≠ Some t).
Proof.
  intros o done_ s. eexists _, _. split; [reflexivity |].
  cbn. repeat split. intros t Ht [= E]. congruence.
Qed.

(** ** Properties of the adapter *)

Section adapter_facts.

Import adapters.

Variable Atoi : string -> Z * error.
Variable ParseFloat : string -> float * error.
Variable ParseTime : string -> Time * error.

#[local] Abbreviation convert_host := (adapters.convert_host Atoi ParseFloat ParseTime).
#[local] Abbreviation host_step := (adapters.host_step Atoi ParseFloat ParseTime).

Lemma convert_host_status h : Host.Status (convert_host h) = Host_Status_State h.
Proof.
  unfold adapters.convert_host.
  destruct (foldl port_step ([], []) (Host_Ports h)). reflexivity.
Qed.

(** The host loop appends, in report order, the converted hosts that are up. *)
Lemma host_loop acc hosts :
  foldl host_step acc hosts = acc ++ (convert_host <$> filter adapters.is_up hosts).
Proof.
  revert acc. induction hosts as [| h hosts IH]; intros acc; cbn [foldl].
  - rewrite filter_nil. cbn. by rewrite app_nil_r.
  - rewrite IH. unfold adapters.host_step.
    destruct (decide (adapters.is_up h)) as [Hup | Hdown].
    + rewrite bool_decide_eq_false_2 by (intros Hn; exact (Hn Hup)).
      rewrite filter_cons_True by exact Hup. cbn. by rewrite <- app_assoc.
    + rewrite bool_decide_eq_true_2 by exact Hdown.
      by rewrite filter_cons_False by exact Hdown.
Qed.

End adapter_facts.

(** C5. The mapped result's [Hosts] are, in report order, the conversions of
    exactly the report hosts whose state is "up": every mapped host has
    status "up", a report host yields an entry if and only if it is up, and
    there are as many entries as up hosts. [TotalHosts] and [UpHosts] are
    the run-statistics values, whatever the host list is, so they can exceed
    the number of entries: a report of one up and one down host with
    statistics total 2 maps to one entry and [TotalHosts = 2]. *)
Theorem convertToDomainModel_keeps_up_hosts :
  forall (Atoi : string -> Z * error) (ParseFloat : string -> float * error)
         (ParseTime : string -> Time * error),
    let convert := adapters.convertToDomainModel Atoi ParseFloat ParseTime in
    let convert_host := adapters.convert_host Atoi ParseFloat ParseTime in
    (forall (nmapXML : adapters.NmapXML) (startTime : Time),
        ScanResult.Hosts (convert nmapXML startTime)
        = convert_host <$> filter adapters.is_up (adapters.Hosts nmapXML)
        /\ Forall (fun host => Host.Status host = "up")
                  (ScanResult.Hosts (convert nmapXML startTime))
        /\ (forall h, h ∈ adapters.Hosts nmapXML -> adapters.is_up h ->
                      convert_host h ∈ ScanResult.Hosts (convert nmapXML startTime))
        /\ length (ScanResult.Hosts (convert nmapXML startTime))
           = length (filter adapters.is_up (adapters.Hosts nmapXML))
        /\ ScanResult.TotalHosts (convert nmapXML startTime)
           = adapters.Hosts_Total (adapters.RunStats nmapXML)
        /\ ScanResult.UpHosts (convert nmapXML startTime)
           = adapters.Hosts_Up (adapters.RunStats nmapXML))
    /\ (let host state addr :=
          adapters.mkXMLHost 0 0 state [adapters.mkXMLAddress addr "ipv4" ""]
            [] [] [] "" "" "" "" "" "" in
        let report :=
          adapters.mkNmapXML "nmap 10.0.0.0/30" 0 "7.92"
            [host "up" "10.0.0.1"; host "down" "10.0.0.2"]
            (adapters.mkXMLRunStats 0 "" 0 "" "success" 1 1 2) in
        Host.IP <$> ScanResult.Hosts (convert report 0) = ["10.0.0.1"]
        /\ ScanResult.TotalHosts (convert report 0) = 2
        /\ ScanResult.UpHosts (convert report 0) = 1
        /\ ScanResult.TotalHosts (convert report 0)
           > Z.of_nat (length (ScanResult.Hosts (convert report 0)))).
Proof.
  intros Atoi ParseFloat ParseTime convert convert_host. split.
  - intros nmapXML startTime.
    assert (Hh : ScanResult.Hosts (convert nmapXML startTime)
                 = convert_host <$> filter adapters.is_up (adapters.Hosts nmapXML)).
    { unfold convert, adapters.convertToDomainModel. cbn. apply host_loop. }
    rewrite Hh. repeat split.
    + apply Forall_fmap, Forall_forall. intros h Hin.
      apply list_elem_of_filter in Hin as [Hup _].
      unfold convert_host. cbn. rewrite convert_host_status. exact Hup.
    + intros h Hin Hup. apply list_elem_of_fmap. exists h. split; [done |].
      apply list_elem_of_filter. done.
    + by rewrite length_fmap.
  - cbn. repeat split.
Qed.

(** C6, as the code has it. Once the temporary file exists and the run of
    the subprocess has failed: if the context reports cancellation,
    [ExecuteScan] fails with the type [ErrTimeout] and the message "scan was
    cancelled" ([pkg/errors] has no cancellation type); if it reports the
    deadline, it fails with the type [ErrTimeout] and the message "scan timed
    out"; in both cases the error is not the [ErrInternal] one, which is what
    a failed run produces when the context reports neither. *)
Theorem ExecuteScan_context_error_first :
  forall (Atoi : string -> Z * error) (ParseFloat : string -> float * error)
         (ParseTime : string -> Time * error)
         (a : adapters.NmapAdapter) (w : adapters.World) (scanOptions : ScanOptions.t)
         (tmpFileName : string),
    adapters.CreateTemp w = Returns tmpFileName ->
    adapters.Run w ≠ nil ->
    let ExecuteScan := adapters.ExecuteScan Atoi ParseFloat ParseTime in
    (adapters.ctxErr1 w = adapters.Canceled ->
     ExecuteScan a w scanOptions
     = Fails (Error ErrTimeout "scan was cancelled" adapters.Canceled))
    /\ (adapters.ctxErr1 w = adapters.DeadlineExceeded ->
        adapters.ctxErr2 w = adapters.DeadlineExceeded ->
        ExecuteScan a w scanOptions
        = Fails (Error ErrTimeout "scan timed out" adapters.DeadlineExceeded))
    /\ (adapters.ctxErr1 w = adapters.Canceled
        \/ adapters.ctxErr2 w = adapters.DeadlineExceeded ->
        exists e, ExecuteScan a w scanOptions = Fails e
                  /\ Type_of e = Some ErrTimeout /\ Type_of e ≠ Some ErrInternal)
    /\ (adapters.ctxErr1 w ≠ adapters.Canceled ->
        adapters.ctxErr2 w ≠ adapters.DeadlineExceeded ->
        ExecuteScan a w scanOptions
        = Fails (Error ErrInternal "nmap scan failed" (adapters.Run w))).
Proof.
  intros Atoi ParseFloat ParseTime a w scanOptions tmp Htmp Hrun ExecuteScan.
  unfold ExecuteScan, adapters.ExecuteScan. rewrite Htmp.
  rewrite (bool_decide_eq_true_2 _ Hrun).
  repeat split.
  - intros Hc. rewrite (bool_decide_eq_true_2 _ Hc). by rewrite Hc.
  - intros H1 H2. rewrite bool_decide_eq_false_2 by (rewrite H1; discriminate).
    rewrite (bool_decide_eq_true_2 _ H2). by rewrite H2.
  - intros Hctx.
    destruct (decide (adapters.ctxErr1 w = adapters.Canceled)) as [Hc | Hc].
    + rewrite (bool_decide_eq_true_2 _ Hc). eexists. repeat split. discriminate.
    + rewrite (bool_decide_eq_false_2 _ Hc). destruct Hctx as [? | Hd]; [done |].
      rewrite (bool_decide_eq_true_2 _ Hd). eexists. repeat split. discriminate.
  - intros Hc Hd. rewrite (bool_decide_eq_false_2 _ Hc).
    by rewrite (bool_decide_eq_false_2 _ Hd).
Qed.

(** A run killed after the caller cancelled the context. *)
Lemma ExecuteScan_context_error_first_witness :
  let w := adapters.mkWorld 1000 (Returns "/tmp/nmap-scan-1.xml") (Plain "signal: killed")
             adapters.Canceled adapters.Canceled (Returns "")
             (fun _ => Fails (Plain "EOF")) "res-1" in
  let o := ScanOptions.mk "10.0.0.5" "22,80" ScanTypeConnect 3 false false false [] (5 * Second) in
  adapters.ExecuteScan (fun _ => (0, nil)) (fun _ => (0%float, nil)) (fun _ => (0, nil))
    (adapters.NewNmapAdapter "") w o
  = Fails (Error ErrTimeout "scan was cancelled" adapters.Canceled).
Proof.
  intros w o.
  refine (proj1 (ExecuteScan_context_error_first _ _ _ _ w o "/tmp/nmap-scan-1.xml" _ _) _).
  - reflexivity.
  - discriminate.
  - reflexivity.
Defined.

(** C6 does not hold with a cancellation type: when the run fails under a cancelled
    context, the error has the type [ErrTimeout], the same type as under an
    exceeded deadline, and no other type; only the message tells the two
    apart. *)
Lemma ExecuteScan_cancelled_is_typed_timeout :
  let world ctxErr :=
    adapters.mkWorld 1000 (Returns "/tmp/nmap-scan-1.xml") (Plain "signal: killed")
      ctxErr ctxErr (Returns "") (fun _ => Fails (Plain "EOF")) "res-1" in
  let o := ScanOptions.mk "10.0.0.5" "22,80" ScanTypeConnect 3 false false false [] (5 * Second) in
  let ExecuteScan :=
    adapters.ExecuteScan (fun _ => (0, nil)) (fun _ => (0%float, nil)) (fun _ => (0, nil))
      (adapters.NewNmapAdapter "") in
  exists e e',
    ExecuteScan (world adapters.Canceled) o = Fails e
    /\ ExecuteScan (world adapters.DeadlineExceeded) o = Fails e'
    /\ Type_of e = Some ErrTimeout
    /\ Type_of e = Type_of e'
    /\ (forall t, t ≠ ErrTimeout -> Type_of e ≠ Some t).
Proof.
  intros world o ExecuteScan. eexists _, _.
  split; [reflexivity |]. split; [reflexivity |].
  cbn. repeat split. intros t Ht [= E]. congruence.
Qed.

(** ** [ListScans]: filter, sort, paginate *)

Section list_scans.

Import repository.

Implicit Types l pre mid rest : list Scan.t.
Implicit Types a b : Scan.t.

(** *** The exchange sort *)

Lemma insert_middle {A} (l1 l2 : list A) (x y : A) :
  <[length l1 := x]> (l1 ++ y :: l2) = l1 ++ x :: l2.
Proof. induction l1 as [| z l1 IH]; cbn; [done | by f_equal]. Qed.

Lemma swap_if_before_app pre a mid b rest :
  swap_if_before (length pre) (length pre + S (length mid)) (pre ++ a :: mid ++ b :: rest)
  = if Before (Scan.CreatedAt a) (Scan.CreatedAt b)
    then pre ++ b :: mid ++ a :: rest
    else pre ++ a :: mid ++ b :: rest.
Proof.
  unfold swap_if_before.
  assert (Hi : (pre ++ a :: mid ++ b :: rest) !! length pre = Some a)
    by (by apply list_lookup_middle).
  assert (Hj : (pre ++ a :: mid ++ b :: rest) !! (length pre + S (length mid))%nat = Some b).
  { replace (pre ++ a :: mid ++ b :: rest) with ((pre ++ a :: mid) ++ b :: rest)
      by (by rewrite <- app_assoc).
    apply list_lookup_middle. rewrite length_app. cbn. lia. }
  rewrite Hi, Hj. destruct (Before _ _); [| done].
  replace (pre ++ b :: mid ++ a :: rest) with ((pre ++ b :: mid) ++ a :: rest)
    by (by rewrite <- app_assoc).
  replace (length pre + S (length mid))%nat with (length (pre ++ b :: mid))
    by (rewrite length_app; cbn; lia).
  rewrite <- (insert_middle (pre ++ b :: mid) rest a b).
  rewrite insert_middle. by rewrite <- app_assoc.
Qed.

Lemma inner_loop_pass rest : forall pre a mid,
  inner_loop (length pre) (length pre + S (length mid)) (length rest)
    (pre ++ a :: mid ++ rest)
  = pre ++ (pass a rest).1 :: mid ++ (pass a rest).2.
Proof.
  induction rest as [| b rest IH]; intros pre a mid; cbn [inner_loop length pass].
  - done.
  - rewrite swap_if_before_app.
    replace (S (length pre + S (length mid))) with (length pre + S (length (mid ++ [a])))%nat
      by (rewrite length_app; cbn; lia).
    destruct (Before _ _).
    + replace (pre ++ b :: mid ++ a :: rest) with (pre ++ b :: (mid ++ [a]) ++ rest)
        by (by rewrite <- app_assoc).
      rewrite IH. destruct (pass b rest) as [m r]. cbn. by rewrite <- app_assoc.
    + replace (length (mid ++ [a])) with (length (mid ++ [b])) by (rewrite !length_app; done).
      replace (pre ++ a :: mid ++ b :: rest) with (pre ++ a :: (mid ++ [b]) ++ rest)
        by (by rewrite <- app_assoc).
      rewrite IH. destruct (pass a rest) as [m r]. cbn. by rewrite <- app_assoc.
Qed.

Lemma pass_length a rest : length (pass a rest).2 = length rest.
Proof.
  revert a. induction rest as [| b rest IH]; intros a; cbn; [done |].
  destruct (Before _ _).
  - specialize (IH b). destruct (pass b rest). cbn in *. lia.
  - specialize (IH a). destruct (pass a rest). cbn in *. lia.
Qed.

Lemma outer_loop_passes n : forall pre l,
  outer_loop (length pre) n (pre ++ l) = pre ++ passes n l.
Proof.
  induction n as [| n IH]; intros pre l; cbn [outer_loop passes]; [done |].
  destruct l as [| a rest].
  - rewrite app_nil_r.
    replace (length pre - S (length pre))%nat with 0%nat by lia. cbn [inner_loop].
    specialize (IH (pre) []). rewrite app_nil_r in IH.
    assert (Hno : forall i k, (length pre <= i)%nat -> outer_loop i k pre = pre).
    { clear. intros i k. revert i. induction k as [| k IHk]; intros i Hi; cbn; [done |].
      replace (length pre - S i)%nat with 0%nat by lia. cbn. apply IHk. lia. }
    apply Hno. lia.
  - replace (length (pre ++ a :: rest) - S (length pre))%nat with (length rest)
      by (rewrite length_app; cbn; lia).
    pose proof (inner_loop_pass rest pre a []) as Hin. cbn [length app] in Hin.
    replace (length pre + 1)%nat with (S (length pre)) in Hin by lia.
    rewrite Hin. destruct (pass a rest) as [m r]. cbn [fst snd].
    replace (pre ++ m :: r) with ((pre ++ [m]) ++ r) by (by rewrite <- app_assoc).
    replace (S (length pre)) with (length (pre ++ [m])) by (rewrite length_app; cbn; lia).
    rewrite IH. by rewrite <- app_assoc.
Qed.

Lemma sort_newest_first_passes l : sort_newest_first l = passes (length l - 1) l.
Proof. unfold sort_newest_first. apply (outer_loop_passes _ []). Qed.

(** *** What the sort achieves *)

Lemma pass_perm a rest : (pass a rest).1 :: (pass a rest).2 ≡ₚ a :: rest.
Proof.
  revert a. induction rest as [| b rest IH]; intros a; cbn; [done |].
  destruct (Before _ _).
  - specialize (IH b). destruct (pass b rest) as [m r]. cbn in *.
    rewrite (Permutation_swap a m r). by rewrite IH.
  - specialize (IH a). destruct (pass a rest) as [m r]. cbn in *.
    rewrite (Permutation_swap b m r). rewrite IH. apply Permutation_swap.
Qed.

(** The pivot a pass ends with is at least as new as the one it started
    with and as everything it leaves behind. *)
Lemma pass_newest a rest :
  Scan.CreatedAt a <= Scan.CreatedAt (pass a rest).1
  /\ Forall (fun x => Scan.CreatedAt x <= Scan.CreatedAt (pass a rest).1) (pass a rest).2.
Proof.
  revert a. induction rest as [| b rest IH]; intros a; cbn; [split; [lia | constructor] |].
  unfold Before. destruct (Z.ltb_spec (Scan.CreatedAt a) (Scan.CreatedAt b)).
  - destruct (IH b) as [H1 H2]. destruct (pass b rest) as [m r]. cbn in *.
    split; [lia |]. constructor; [lia | done].
  - destruct (IH a) as [H1 H2]. destruct (pass a rest) as [m r]. cbn in *.
    split; [lia |]. constructor; [lia | done].
Qed.

Lemma passes_perm n : forall l, passes n l ≡ₚ l.
Proof.
  induction n as [| n IH]; intros l; cbn; [by destruct l |].
  destruct l as [| a rest]; [done |].
  pose proof (pass_perm a rest) as Hp. destruct (pass a rest) as [m r]. cbn in *.
  by rewrite IH.
Qed.

Lemma passes_sorted n : forall l, (length l <= S n)%nat -> newest_first (passes n l).
Proof.
  unfold newest_first.
  induction n as [| n IH]; intros l Hlen.
  - destruct l as [| a [| b l]]; cbn in *; [constructor | | lia].
    constructor; constructor.
  - destruct l as [| a rest]; cbn; [constructor |].
    pose proof (pass_newest a rest) as [_ Hmax].
    pose proof (pass_length a rest) as Hl.
    destruct (pass a rest) as [m r]. cbn in *.
    constructor.
    + apply IH. lia.
    + eapply Forall_forall. intros x Hx.
      rewrite passes_perm in Hx. eapply Forall_forall in Hmax; eauto.
Qed.

Lemma sort_newest_first_perm l : sort_newest_first l ≡ₚ l.
Proof. rewrite sort_newest_first_passes. apply passes_perm. Qed.

Lemma sort_newest_first_sorted l : newest_first (sort_newest_first l).
Proof. rewrite sort_newest_first_passes. apply passes_sorted. lia. Qed.

(** *** The filter loop *)

Lemma collect_step_loop userID (m : gmap string Scan.t) ks : forall acc,
  foldl (collect_step userID m) acc ks
  = acc ++ filter (owner_matches userID) (omap (m !!.) ks).
Proof.
  induction ks as [| id ks IH]; intros acc; cbn [foldl omap list_omap].
  - rewrite filter_nil. by rewrite app_nil_r.
  - rewrite IH. unfold collect_step. destruct (m !! id) as [scan |]; [| done].
    destruct (decide (owner_matches userID scan)) as [Hm | Hm].
    + rewrite filter_cons_True by done.
      assert (Ht : bool_decide (userID = "") || bool_decide (Scan.UserID scan = userID) = true).
      { destruct Hm as [Hm | Hm]; rewrite (bool_decide_eq_true_2 _ Hm);
          [done | apply orb_true_r]. }
      rewrite Ht. by rewrite <- app_assoc.
    + rewrite filter_cons_False by done.
      unfold owner_matches in Hm.
      rewrite !bool_decide_eq_false_2 by tauto. done.
Qed.

Lemma omap_lookup_fst {V} (m : gmap string V) (l : list (string * V)) :
  Forall (fun kv => m !! kv.1 = Some kv.2) l -> omap (m !!.) l.*1 = l.*2.
Proof.
  induction 1 as [| [k v] l Hkv _ IH]; cbn; [done |].
  cbn in Hkv. rewrite Hkv. by rewrite IH.
Qed.

Lemma range_order_values {V} ks (m : gmap string V) :
  range_order ks m -> omap (m !!.) ks ≡ₚ (map_to_list m).*2.
Proof.
  unfold range_order. intros ->. rewrite omap_lookup_fst; [done |].
  apply Forall_forall. intros [k v] Hin. by apply elem_of_map_to_list.
Qed.

Lemma collect_matching ks userID (m : gmap string Scan.t) :
  range_order ks m -> collect ks userID m ≡ₚ matching userID m.
Proof.
  intros Hks. unfold collect, matching. rewrite collect_step_loop. cbn.
  by rewrite (range_order_values ks m Hks).
Qed.

Lemma filter_everything {A} (P : A -> Prop) `{forall x, Decision (P x)} (l : list A) :
  (forall x, P x) -> filter P l = l.
Proof.
  intros HP. induction l as [| x l IH]; [done |].
  rewrite filter_cons_True by apply HP. by rewrite IH.
Qed.

(** What [ListScans] sorts: a rearrangement of the matching scans, newest
    first. *)
Lemma sorted_scans ks userID (m : gmap string Scan.t) :
  range_order ks m ->
  sort_newest_first (collect ks userID m) ≡ₚ matching userID m
  /\ newest_first (sort_newest_first (collect ks userID m))
  /\ length (sort_newest_first (collect ks userID m)) = length (matching userID m).
Proof.
  intros Hks.
  assert (Hp : sort_newest_first (collect ks userID m) ≡ₚ matching userID m).
  { rewrite sort_newest_first_perm. by apply collect_matching. }
  split; [done |]. split; [apply sort_newest_first_sorted |]. by rewrite Hp.
Qed.

(** With pairwise distinct creation times, newest first is strictly so. *)
Lemma newest_first_strict l :
  newest_first l -> NoDup (Scan.CreatedAt <$> l) ->
  StronglySorted (fun x y => Scan.CreatedAt y < Scan.CreatedAt x) l.
Proof.
  unfold newest_first. induction 1 as [| a l Hs IH Ha]; cbn; intros Hnd; [constructor |].
  apply NoDup_cons in Hnd as [Hnotin Hnd]. constructor; [by apply IH |].
  apply Forall_forall. intros x Hx.
  assert (Scan.CreatedAt x <= Scan.CreatedAt a) by (eapply Forall_forall in Ha; eauto).
  assert (Scan.CreatedAt x ≠ Scan.CreatedAt a).
  { intros E. apply Hnotin. rewrite <- E. apply list_elem_of_fmap. eauto. }
  lia.
Qed.

(** *** Pagination *)

Lemma slice_in_range {A} (s : list A) (lo hi : Z) :
  0 <= lo <= hi -> hi <= Z.of_nat (length s) ->
  slice s lo hi = Returns (take (Z.to_nat (hi - lo)) (drop (Z.to_nat lo) s)).
Proof.
  intros H1 H2. unfold slice.
  destruct (Z.leb_spec 0 lo); [| lia]. destruct (Z.leb_spec lo hi); [| lia].
  destruct (Z.leb_spec hi (Z.of_nat (length s))); [| lia]. done.
Qed.

Lemma slice_out_of_range {A} (s : list A) (lo hi : Z) :
  lo < 0 \/ hi < lo -> slice s lo hi = Panics "slice bounds out of range".
Proof.
  intros H. unfold slice.
  destruct (Z.leb_spec 0 lo); [| done]. destruct (Z.leb_spec lo hi); [lia | done].
Qed.

(** The page [ListScans] returns when [offset] and [limit] are not negative
    and their sum is an [int]. *)
Lemma ListScans_page ks userID limit offset r :
  0 <= offset -> 0 <= limit -> offset + limit <= MaxInt ->
  ListScans ks userID limit offset r
  = Returns (take (Z.to_nat limit)
               (drop (Z.to_nat offset) (sort_newest_first (collect ks userID (scans r))))).
Proof.
  intros Ho Hl Hsum. unfold ListScans.
  set (sorted := sort_newest_first (collect ks userID (scans r))).
  destruct (Z.geb_spec offset (Z.of_nat (length sorted))) as [Hge | Hlt].
  - rewrite drop_ge by lia. by rewrite take_nil.
  - rewrite wrap64_id by (unfold is_int, MinInt, MaxInt in *; lia).
    destruct (Z.gtb_spec (offset + limit) (Z.of_nat (length sorted))) as [Hbig | Hsmall].
    + rewrite slice_in_range by lia.
      rewrite !take_ge; [done | |]; rewrite length_drop; lia.
    + rewrite slice_in_range by lia. do 2 f_equal. lia.
Qed.

Lemma ListScans_beyond ks userID limit offset r :
  Z.of_nat (length (sort_newest_first (collect ks userID (scans r)))) <= offset ->
  ListScans ks userID limit offset r = Returns [].
Proof.
  intros Hge. unfold ListScans.
  destruct (Z.geb_spec offset
              (Z.of_nat (length (sort_newest_first (collect ks userID (scans r))))));
    [done | lia].
Qed.

(** A negative [limit] with an [offset] below the number of scans selected:
    the slice expression panics. *)
Lemma ListScans_negative_limit ks userID limit offset r :
  is_int limit -> is_int offset -> limit < 0 ->
  offset < Z.of_nat (length (sort_newest_first (collect ks userID (scans r)))) ->
  ListScans ks userID limit offset r = Panics "slice bounds out of range"
  /\ (0 <= offset -> wrap64 (offset + limit) < offset).
Proof.
  intros Hl Ho Hneg Hlt. unfold ListScans.
  set (sorted := sort_newest_first (collect ks userID (scans r))) in *.
  destruct (Z.geb_spec offset (Z.of_nat (length sorted))); [lia |].
  assert (Hend : 0 <= offset -> wrap64 (offset + limit) < offset).
  { intros H0. rewrite wrap64_id by (unfold is_int, MinInt, MaxInt in *; lia). lia. }
  split; [| exact Hend].
  destruct (Z.le_gt_cases 0 offset) as [H0 | H0].
  - specialize (Hend H0).
    destruct (Z.gtb_spec (wrap64 (offset + limit)) (Z.of_nat (length sorted))); [lia |].
    apply slice_out_of_range. lia.
  - apply slice_out_of_range. lia.
Qed.

End list_scans.

(** C7, as the code has it. For every store, every order in which [range]
    visits it, every owner filter, and every non-negative offset and limit
    whose sum is an [int]: [ListScans] returns the page [offset, offset +
    limit) of a list that holds exactly the stored scans the filter selects
    (every scan when the user id is empty), each created no earlier than
    those after it, and strictly later when the creation times are pairwise
    distinct; with an offset at or beyond the number of selected scans the
    page is empty. *)
Theorem ListScans_newest_first_page :
  forall (r : repository.MemoryScanRepository) (ks : list string) (userID : string)
         (limit offset : Z),
    repository.range_order ks (repository.scans r) ->
    0 <= offset -> 0 <= limit -> offset + limit <= MaxInt ->
    exists sorted : list Scan.t,
      sorted ≡ₚ repository.matching userID (repository.scans r)
      /\ (userID = "" -> sorted ≡ₚ (map_to_list (repository.scans r)).*2)
      /\ repository.newest_first sorted
      /\ (NoDup (Scan.CreatedAt <$> repository.matching userID (repository.scans r)) ->
          StronglySorted (fun x y => Scan.CreatedAt y < Scan.CreatedAt x) sorted)
      /\ repository.ListScans ks userID limit offset r
         = Returns (take (Z.to_nat limit) (drop (Z.to_nat offset) sorted))
      /\ (Z.of_nat (length (repository.matching userID (repository.scans r))) <= offset ->
          repository.ListScans ks userID limit offset r = Returns []).
Proof.
  intros r ks userID limit offset Hks Ho Hl Hsum.
  destruct (sorted_scans ks userID (repository.scans r) Hks) as (Hp & Hs & Hlen).
  exists (repository.sort_newest_first (repository.collect ks userID (repository.scans r))).
  split; [exact Hp |]. split; [| split; [exact Hs | split; [| split]]].
  - intros ->. rewrite Hp. unfold repository.matching.
    rewrite filter_everything; [done |]. intros x. by left.
  - intros Hnd. apply newest_first_strict; [exact Hs |]. by rewrite Hp.
  - by apply ListScans_page.
  - intros Hge. apply ListScans_beyond. rewrite Hlen. exact Hge.
Qed.

(** C10. For every store and every order in which [range] visits it, a
    negative limit with an offset below the number of selected scans makes
    [ListScans] panic at its slice expression; when the offset is not
    negative the slice end lies before the slice start. *)
Theorem ListScans_negative_limit_panics :
  forall (r : repository.MemoryScanRepository) (ks : list string) (userID : string)
         (limit offset : Z),
    repository.range_order ks (repository.scans r) ->
    is_int limit -> is_int offset ->
    limit < 0 ->
    offset < Z.of_nat (length (repository.matching userID (repository.scans r))) ->
    repository.ListScans ks userID limit offset r = Panics "slice bounds out of range"
    /\ (0 <= offset -> wrap64 (offset + limit) < offset).
Proof.
  intros r ks userID limit offset Hks Hl Ho Hneg Hlt.
  destruct (sorted_scans ks userID (repository.scans r) Hks) as (_ & _ & Hlen).
  apply ListScans_negative_limit; try assumption. rewrite Hlen. exact Hlt.
Qed.

(** Three jobs of two owners; the second page of size one, all owners. *)
Lemma ListScans_newest_first_page_witness :
  let o := ScanOptions.mk "10.0.0.5" "22,80" ScanTypeConnect 3 false false false [] (5 * Second) in
  let job id user created :=
    Scan.mk id user o ScanStatusCompleted 100 created None None "" "" in
  let r := repository.mk
             (<["job-1" := job "job-1" "alice" 10]>
                (<["job-2" := job "job-2" "bob" 30]> {["job-3" := job "job-3" "alice" 20]}))
             ∅ (60 * Minute) in
  exists sorted : list Scan.t,
    sorted ≡ₚ repository.matching "" (repository.scans r)
    /\ repository.newest_first sorted
    /\ repository.ListScans ["job-3"; "job-1"; "job-2"] "" 1 1 r
       = Returns (take 1 (drop 1 sorted)).
Proof.
  intros o job r.
  destruct (ListScans_newest_first_page r ["job-3"; "job-1"; "job-2"] "" 1 1)
    as (sorted & Hp & _ & Hs & _ & Hpage & _).
  - unfold repository.range_order. vm_compute. reflexivity.
  - lia.
  - lia.
  - vm_compute. discriminate.
  - exists sorted. repeat split; assumption.
Defined.

Lemma ListScans_negative_limit_panics_witness :
  let o := ScanOptions.mk "10.0.0.5" "22,80" ScanTypeConnect 3 false false false [] (5 * Second) in
  let job id user created :=
    Scan.mk id user o ScanStatusCompleted 100 created None None "" "" in
  let r := repository.mk
             (<["job-1" := job "job-1" "alice" 10]> {["job-2" := job "job-2" "bob" 30]})
             ∅ (60 * Minute) in
  repository.ListScans ["job-1"; "job-2"] "" (-1) 1 r = Panics "slice bounds out of range"
  /\ wrap64 (1 + -1) < 1.
Proof.
  intros o job r.
  destruct (ListScans_negative_limit_panics r ["job-1"; "job-2"] "" (-1) 1) as [Hp He].
  - unfold repository.range_order. vm_compute. reflexivity.
  - vm_compute. split; discriminate.
  - vm_compute. split; discriminate.
  - lia.
  - vm_compute. reflexivity.
  - split; [exact Hp | apply He; lia].
Defined.

(** C7 does not hold for every non-negative offset and limit, nor with a
    strict order. A non-negative offset and
    limit whose sum exceeds the largest [int] wrap to a negative slice end,
    and the call panics instead of returning a page; and two scans created at
    the same instant are returned next to each other, so the order is not
    strictly descending. *)
Lemma ListScans_overflow_and_ties :
  let o := ScanOptions.mk "10.0.0.5" "22,80" ScanTypeConnect 3 false false false [] (5 * Second) in
  let job id user created :=
    Scan.mk id user o ScanStatusCompleted 100 created None None "" "" in
  let r created1 created2 :=
    repository.mk
      (<["job-1" := job "job-1" "alice" created1]> {["job-2" := job "job-2" "bob" created2]})
      ∅ (60 * Minute) in
  (0 <= 1 /\ 0 <= MaxInt /\ is_int 1 /\ is_int MaxInt
   /\ repository.range_order ["job-1"; "job-2"] (repository.scans (r 10 30))
   /\ repository.ListScans ["job-1"; "job-2"] "" MaxInt 1 (r 10 30)
      = Panics "slice bounds out of range")
  /\ (repository.range_order ["job-1"; "job-2"] (repository.scans (r 10 10))
      /\ Scan.CreatedAt <$> repository.matching "" (repository.scans (r 10 10)) = [10; 10]
      /\ exists a b,
          repository.ListScans ["job-1"; "job-2"] "" 10 0 (r 10 10) = Returns [a; b]
          /\ ¬ Scan.CreatedAt b < Scan.CreatedAt a).
Proof.
  intros o job r. split.
  - repeat split; try (vm_compute; discriminate).
    unfold repository.range_order. vm_compute. reflexivity.
  - split; [unfold repository.range_order; vm_compute; reflexivity |].
    split; [vm_compute; reflexivity |].
    eexists _, _. split; [vm_compute; reflexivity |]. cbn. lia.
Qed.

(** ** The reaper *)

Section reaper.

Import repository.

Implicit Types r : MemoryScanRepository.
Implicit Types k id rid : string.

Lemma range_order_elem {V} ks (m : gmap string V) k v :
  range_order ks m -> m !! k = Some v -> k ∈ ks.
Proof.
  unfold range_order. intros -> Hk.
  apply list_elem_of_fmap. exists (k, v). split; [done |].
  by apply elem_of_map_to_list.
Qed.

(** *** One iteration of the first loop *)

Lemma cleanup_scan_step_scans c r id k s :
  scans (cleanup_scan_step c r id) !! k = Some s
  <-> scans r !! k = Some s /\ ¬ (k = id /\ expired c s).
Proof.
  unfold cleanup_scan_step, expired, Before.
  destruct (scans r !! id) as [s0 |] eqn:Hid.
  - destruct (Z.ltb_spec (Scan.CreatedAt s0) c) as [Hexp | Hkeep].
    + assert (Hs : scans (if bool_decide (Scan.ResultID s0 ≠ "")
                          then with_scanResults
                                 (delete (Scan.ResultID s0)
                                    (scanResults (with_scans (delete id (scans r)) r)))
                                 (with_scans (delete id (scans r)) r)
                          else with_scans (delete id (scans r)) r)
                   = delete id (scans r)) by (by destruct (bool_decide _)).
      rewrite Hs. rewrite lookup_delete_Some. split.
      * intros [Hne Hk]. split; [done |]. intros [-> _]. done.
      * intros [Hk Hn]. split; [| done]. intros <-.
        apply Hn. split; [done |]. congruence.
    + split; [| tauto]. intros Hk. split; [done |]. intros [-> Hexp].
      assert (s = s0) by congruence. subst. lia.
  - split; [| tauto]. intros Hk. split; [done |]. intros [-> _]. congruence.
Qed.

Lemma cleanup_scan_step_results c r id rid x :
  scanResults (cleanup_scan_step c r id) !! rid = Some x
  <-> scanResults r !! rid = Some x
      /\ ¬ (exists s, scans r !! id = Some s /\ expired c s
                      /\ Scan.ResultID s = rid /\ rid ≠ "").
Proof.
  unfold cleanup_scan_step, expired, Before.
  destruct (scans r !! id) as [s0 |] eqn:Hid.
  - destruct (Z.ltb_spec (Scan.CreatedAt s0) c) as [Hexp | Hkeep].
    + destruct (decide (Scan.ResultID s0 ≠ "")) as [Hne | He].
      * rewrite (bool_decide_eq_true_2 _ Hne). cbn. rewrite lookup_delete_Some. split.
        -- intros [Hd Hk]. split; [done |]. intros (s & [= <-] & _ & Hr & _). done.
        -- intros [Hk Hn]. split; [| done]. intros Hr. apply Hn.
           exists s0. repeat split; try done. by rewrite <- Hr.
      * rewrite (bool_decide_eq_false_2 _ He). cbn. split; [| tauto].
        intros Hk. split; [done |]. intros (s & [= <-] & _ & Hr & Hrid).
        apply He. by rewrite Hr.
    + split; [| tauto]. intros Hk. split; [done |]. intros (s & [= <-] & Hexp & _). lia.
  - split; [| tauto]. intros Hk. split; [done |]. intros (s & [=] & _).
Qed.

Lemma cleanup_scan_step_retention c r id :
  retentionPeriod (cleanup_scan_step c r id) = retentionPeriod r.
Proof.
  unfold cleanup_scan_step. destruct (scans r !! id); [| done].
  destruct (Before _ _); [| done]. by destruct (bool_decide _).
Qed.

(** *** The first loop *)

Lemma cleanupScans_scans c ks : forall r k s,
  scans (cleanupScans c ks r) !! k = Some s
  <-> scans r !! k = Some s /\ ¬ (k ∈ ks /\ expired c s).
Proof.
  unfold cleanupScans.
  induction ks as [| id ks IH]; intros r k s; cbn [foldl].
  - split; [| tauto]. intros Hk. split; [done |]. intros [Hin _]. by apply not_elem_of_nil in Hin.
  - rewrite IH, cleanup_scan_step_scans. rewrite elem_of_cons. tauto.
Qed.

Lemma cleanupScans_results c ks : forall r rid x,
  scanResults (cleanupScans c ks r) !! rid = Some x
  <-> scanResults r !! rid = Some x
      /\ ¬ (exists k s, k ∈ ks /\ scans r !! k = Some s /\ expired c s
                        /\ Scan.ResultID s = rid /\ rid ≠ "").
Proof.
  unfold cleanupScans.
  induction ks as [| id ks IH]; intros r rid x; cbn [foldl].
  - split; [| tauto]. intros Hk. split; [done |].
    intros (k & s & Hin & _). by apply not_elem_of_nil in Hin.
  - rewrite IH, cleanup_scan_step_results. split.
    + intros [[Hx Hhead] Htail]. split; [done |].
      intros (k & s & Hin & Hk & Hexp & Hr & Hne).
      destruct (decide (k = id)) as [-> | Hkid].
      * apply Hhead. eauto 6.
      * apply Htail. exists k, s. apply elem_of_cons in Hin as [? | Hin]; [done |].
        repeat split; try done. apply cleanup_scan_step_scans. split; [done |]. tauto.
    + intros [Hx Hn]. repeat split; [done | |].
      * intros (s & Hk & Hexp & Hr & Hne). apply Hn. exists id, s.
        repeat split; try done. apply elem_of_cons. by left.
      * intros (k & s & Hin & Hk & Hexp & Hr & Hne). apply Hn. exists k, s.
        apply cleanup_scan_step_scans in Hk as [Hk _].
        repeat split; try done. apply elem_of_cons. by right.
Qed.

Lemma cleanupScans_retention c ks : forall r,
  retentionPeriod (cleanupScans c ks r) = retentionPeriod r.
Proof.
  unfold cleanupScans. induction ks as [| id ks IH]; intros r; cbn [foldl]; [done |].
  by rewrite IH, cleanup_scan_step_retention.
Qed.

(** *** The second loop *)

Lemma cleanup_result_step_scans r rid : scans (cleanup_result_step r rid) = scans r.
Proof.
  unfold cleanup_result_step. destruct (scanResults r !! rid) as [x |]; [| done].
  destruct (bool_decide _); [| done]. by destruct (scans r !! _).
Qed.

Lemma cleanup_result_step_results r rid0 rid x :
  scanResults (cleanup_result_step r rid0) !! rid = Some x
  <-> scanResults r !! rid = Some x
      /\ ¬ (rid = rid0 /\ orphan (scans r) x).
Proof.
  unfold cleanup_result_step, orphan.
  destruct (scanResults r !! rid0) as [x0 |] eqn:H0.
  - destruct (decide (ScanResult.ScanID x0 ≠ "")) as [Hne | He].
    + rewrite (bool_decide_eq_true_2 _ Hne).
      destruct (scans r !! ScanResult.ScanID x0) as [s |] eqn:Hs.
      * split; [| tauto]. intros Hk. split; [done |]. intros [-> [_ Hno]].
        assert (x = x0) by congruence. subst. congruence.
      * cbn. rewrite lookup_delete_Some. split.
        -- intros [Hd Hk]. split; [done |]. intros [-> _]. done.
        -- intros [Hk Hn]. split; [| done]. intros <-. apply Hn.
           assert (x = x0) by congruence. subst. done.
    + rewrite (bool_decide_eq_false_2 _ He). split; [| tauto].
      intros Hk. split; [done |]. intros [-> [Hne _]].
      assert (x = x0) by congruence. subst. done.
  - split; [| tauto]. intros Hk. split; [done |]. intros [-> _]. congruence.
Qed.

Lemma cleanupOrphans_scans rks : forall r, scans (cleanupOrphans rks r) = scans r.
Proof.
  unfold cleanupOrphans. induction rks as [| rid rks IH]; intros r; cbn [foldl]; [done |].
  by rewrite IH, cleanup_result_step_scans.
Qed.

Lemma cleanupOrphans_results rks : forall r rid x,
  scanResults (cleanupOrphans rks r) !! rid = Some x
  <-> scanResults r !! rid = Some x /\ ¬ (rid ∈ rks /\ orphan (scans r) x).
Proof.
  unfold cleanupOrphans.
  induction rks as [| rid0 rks IH]; intros r rid x; cbn [foldl].
  - split; [| tauto]. intros Hk. split; [done |]. intros [Hin _].
    by apply not_elem_of_nil in Hin.
  - rewrite IH, cleanup_result_step_results, cleanup_result_step_scans.
    rewrite elem_of_cons. tauto.
Qed.

End reaper.

(** C8. After one tick, whatever the orders in which the two loops visit
    the maps: every job created before the cutoff is absent; the result such
    a job references, when the reference is not empty, is absent; no result
    is left whose non-empty job id names no stored job; every job not
    created before the cutoff is unchanged, and so is its result, in a store
    where each result that a job references names that job as its own (a
    result belongs to exactly one job); more generally a result is unchanged
    when no evicted job references it and its job id is empty or names a job
    that stays; nothing is added or altered. The cutoff is the one the code
    computes, [now.Add(-retentionPeriod)]: it is [now] minus the retention
    period for every duration but the least one, whose negation wraps. *)
Theorem cleanupTick_evicts :
  forall (r : repository.MemoryScanRepository) (now : Time) (ks rks : list string),
    let cutoffTime := repository.cutoff now r in
    let r' := repository.cleanupTick now ks rks r in
    repository.range_order ks (repository.scans r) ->
    repository.range_order rks
      (repository.scanResults (repository.cleanupScans cutoffTime ks r)) ->
    (forall id scan,
        repository.scans r !! id = Some scan -> repository.expired cutoffTime scan ->
        repository.scans r' !! id = None)
    /\ (forall id scan,
           repository.scans r !! id = Some scan -> repository.expired cutoffTime scan ->
           Scan.ResultID scan ≠ "" ->
           repository.scanResults r' !! Scan.ResultID scan = None)
    /\ (forall rid result,
           repository.scanResults r !! rid = Some result ->
           repository.orphan (repository.scans r') result ->
           repository.scanResults r' !! rid = None)
    /\ (forall rid result,
           repository.scanResults r' !! rid = Some result ->
           ScanResult.ScanID result ≠ "" ->
           is_Some (repository.scans r' !! ScanResult.ScanID result))
    /\ (forall id scan,
           repository.scans r !! id = Some scan -> ¬ repository.expired cutoffTime scan ->
           repository.scans r' !! id = Some scan)
    /\ (forall rid result,
           repository.scanResults r !! rid = Some result ->
           (forall id scan,
               repository.scans r !! id = Some scan -> repository.expired cutoffTime scan ->
               Scan.ResultID scan ≠ rid) ->
           (ScanResult.ScanID result = ""
            \/ exists scan, repository.scans r !! ScanResult.ScanID result = Some scan
                            /\ ¬ repository.expired cutoffTime scan) ->
           repository.scanResults r' !! rid = Some result)
    /\ (forall id scan,
           repository.scans r' !! id = Some scan -> repository.scans r !! id = Some scan)
    /\ (forall rid result,
           repository.scanResults r' !! rid = Some result ->
           repository.scanResults r !! rid = Some result)
    /\ ((forall id scan result,
            repository.scans r !! id = Some scan ->
            Scan.ResultID scan ≠ "" ->
            repository.scanResults r !! Scan.ResultID scan = Some result ->
            ScanResult.ScanID result = id) ->
        forall id scan result,
          repository.scans r !! id = Some scan -> ¬ repository.expired cutoffTime scan ->
          Scan.ResultID scan ≠ "" ->
          repository.scanResults r !! Scan.ResultID scan = Some result ->
          repository.scanResults r' !! Scan.ResultID scan = Some result)
    /\ (MinInt < repository.retentionPeriod r <= MaxInt ->
        cutoffTime = now - repository.retentionPeriod r).
Proof.
  intros r now ks rks cutoffTime r' Hks Hrks.
  assert (Hscans : forall id scan,
             repository.scans r' !! id = Some scan
             <-> repository.scans r !! id = Some scan
                 /\ ¬ repository.expired cutoffTime scan).
  { intros id scan. unfold r', repository.cleanupTick.
    rewrite cleanupOrphans_scans. fold cutoffTime. rewrite cleanupScans_scans.
    split; [| tauto]. intros [Hid Hn]. split; [done |]. intros Hexp.
    apply Hn. split; [| done]. eapply range_order_elem; eauto. }
  assert (Hres : forall rid result,
             repository.scanResults r' !! rid = Some result
             <-> repository.scanResults (repository.cleanupScans cutoffTime ks r) !! rid
                 = Some result
                 /\ ¬ repository.orphan (repository.scans r') result).
  { intros rid result. unfold r', repository.cleanupTick. fold cutoffTime.
    rewrite cleanupOrphans_results, cleanupOrphans_scans.
    split; [| tauto]. intros [Hrid Hn]. split; [done |]. intros Ho.
    apply Hn. split; [| done]. eapply range_order_elem; eauto. }
  assert (Hnone : forall {V} (m : gmap string V) k, (forall v, m !! k ≠ Some v) -> m !! k = None).
  { intros V m k Hn. destruct (m !! k) eqn:E; [| done]. by destruct (Hn v). }
  assert (Hkept : forall rid result,
             repository.scanResults r !! rid = Some result ->
             (forall id scan,
                 repository.scans r !! id = Some scan ->
                 repository.expired cutoffTime scan -> Scan.ResultID scan ≠ rid) ->
             (ScanResult.ScanID result = ""
              \/ exists scan, repository.scans r !! ScanResult.ScanID result = Some scan
                              /\ ¬ repository.expired cutoffTime scan) ->
             repository.scanResults r' !! rid = Some result).
  { intros rid result Hrid Href Hjob. apply Hres. split.
    + apply cleanupScans_results. split; [done |].
      intros (k & s & _ & Hk & Hexp & Hr & _). by apply (Href k s).
    + intros [Hne Hno]. destruct Hjob as [He | (scan & Hs & Hkeep)]; [done |].
      assert (repository.scans r' !! ScanResult.ScanID result = Some scan)
        by (by apply Hscans).
      congruence. }
  split; [| split; [| split; [| split; [| split; [| split; [| split; [| split; [| split]]]]]]]].
  - intros id scan Hid Hexp. apply Hnone. intros v Hv.
    apply Hscans in Hv as [Hv Hn]. assert (v = scan) by congruence. subst. done.
  - intros id scan Hid Hexp Hne. apply Hnone. intros v Hv.
    apply Hres in Hv as [Hv _]. apply cleanupScans_results in Hv as [_ Hn].
    apply Hn. exists id, scan. repeat split; try done. eapply range_order_elem; eauto.
  - intros rid result Hrid Ho. apply Hnone. intros v Hv.
    apply Hres in Hv as [Hv Hn]. apply cleanupScans_results in Hv as [Hv _].
    assert (v = result) by congruence. subst. done.
  - intros rid result Hrid Hne. apply Hres in Hrid as [_ Hn].
    unfold repository.orphan in Hn.
    destruct (repository.scans r' !! ScanResult.ScanID result) eqn:E; [eauto |].
    destruct Hn. done.
  - intros id scan Hid Hkeep. apply Hscans. done.
  - exact Hkept.
  - intros id scan Hid. by apply Hscans in Hid as [Hid _].
  - intros rid result Hrid. apply Hres in Hrid as [Hrid _].
    by apply cleanupScans_results in Hrid as [Hrid _].
  - intros Hown id scan result Hid Hkeep Hne Hrid.
    pose proof (Hown id scan result Hid Hne Hrid) as Hname.
    apply Hkept; [done | |].
    + intros k s Hk Hexp Hsame.
      assert (ScanResult.ScanID result = k) as Hk'.
      { apply (Hown k s result Hk); rewrite Hsame; done. }
      assert (k = id) by congruence. subst k.
      assert (s = scan) by congruence. subst s. done.
    + right. exists scan. by rewrite Hname.
  - intros Hfit. unfold cutoffTime, repository.cutoff, Add.
    rewrite wrap64_id by (unfold is_int, MinInt, MaxInt in *; lia). lia.
Qed.

(** A store with an old job and its result, a recent job and its result,
    and a result whose job is gone; the retention window is 50, the clock
    reads 100. *)
Lemma cleanupTick_evicts_witness :
  let o := ScanOptions.mk "10.0.0.5" "22,80" ScanTypeConnect 3 false false false [] (5 * Second) in
  let job id created res :=
    Scan.mk id "alice" o ScanStatusCompleted 100 created None None "" res in
  let res id scan := ScanResult.mk id scan "alice" 0 0 0 "" "" 1 1 [] in
  let r := repository.mk
             (<["job-old" := job "job-old" 0 "res-old"]>
                {["job-new" := job "job-new" 100 "res-new"]})
             (<["res-old" := res "res-old" "job-old"]>
                (<["res-new" := res "res-new" "job-new"]>
                   {["res-lost" := res "res-lost" "job-gone"]}))
             50 in
  let r' := repository.cleanupTick 100 ["job-old"; "job-new"] ["res-new"; "res-lost"] r in
  repository.scans r' !! "job-old" = None
  /\ repository.scanResults r' !! "res-old" = None
  /\ repository.scanResults r' !! "res-lost" = None
  /\ repository.scans r' !! "job-new" = Some (job "job-new" 100 "res-new")
  /\ repository.scanResults r' !! "res-new" = Some (res "res-new" "job-new")
  /\ repository.cutoff 100 r = 100 - 50.
Proof.
  intros o job res r r'.
  destruct (cleanupTick_evicts r 100 ["job-old"; "job-new"] ["res-new"; "res-lost"])
    as (H1 & H2 & H3 & _ & H5 & _ & _ & _ & H9 & H10).
  - unfold repository.range_order. vm_compute. reflexivity.
  - unfold repository.range_order. vm_compute. reflexivity.
  - split; [| split; [| split; [| split; [| split]]]].
    + apply (H1 "job-old" (job "job-old" 0 "res-old")); [reflexivity | vm_compute; reflexivity].
    + apply (H2 "job-old" (job "job-old" 0 "res-old"));
        [reflexivity | vm_compute; reflexivity | discriminate].
    + apply (H3 "res-lost" (res "res-lost" "job-gone")); [reflexivity |].
      split; [discriminate | vm_compute; reflexivity].
    + apply (H5 "job-new" (job "job-new" 100 "res-new")); [reflexivity | vm_compute; discriminate].
    + assert (Hown : forall id scan result,
                 repository.scans r !! id = Some scan ->
                 Scan.ResultID scan ≠ "" ->
                 repository.scanResults r !! Scan.ResultID scan = Some result ->
                 ScanResult.ScanID result = id).
      { intros id scan result Hid Hne Hrid.
        destruct (decide (id = "job-old")) as [-> | Hne1].
        { vm_compute in Hid. injection Hid as <-.
          vm_compute in Hrid. by injection Hrid as <-. }
        destruct (decide (id = "job-new")) as [-> | Hne2].
        { vm_compute in Hid. injection Hid as <-.
          vm_compute in Hrid. by injection Hrid as <-. }
        unfold r in Hid. cbn [repository.scans] in Hid.
        rewrite lookup_insert_ne in Hid by done.
        rewrite lookup_singleton_ne in Hid by done. discriminate Hid. }
      apply (H9 Hown "job-new" (job "job-new" 100 "res-new") (res "res-new" "job-new"));
        [reflexivity | vm_compute; discriminate | discriminate | reflexivity].
    + apply H10. vm_compute. split; [reflexivity | discriminate].
Defined.

(** The least duration is its own negation: with it as retention period the
    cutoff lies [2 ^ 63] nanoseconds before [now], and a job created before
    [now] stays. *)
Lemma cleanupTick_least_retention :
  let o := ScanOptions.mk "10.0.0.5" "22,80" ScanTypeConnect 3 false false false [] (5 * Second) in
  let job := Scan.mk "job-1" "alice" o ScanStatusCompleted 100 1000 None None "" "" in
  let r := repository.mk {["job-1" := job]} ∅ MinInt in
  repository.cutoff 2000 r = 2000 - 2 ^ 63
  /\ repository.scans (repository.cleanupTick 2000 ["job-1"] [] r) !! "job-1" = Some job.
Proof. intros o job r. split; vm_compute; reflexivity. Qed.

(** The condition on references cannot be dropped: in a store where an old
    job and a recent job reference one result, the tick evicts the old job
    together with that result, and the recent job, itself unchanged, is left
    without the result it references. *)
Lemma cleanupTick_drops_shared_result :
  let o := ScanOptions.mk "10.0.0.5" "22,80" ScanTypeConnect 3 false false false [] (5 * Second) in
  let job id created res :=
    Scan.mk id "alice" o ScanStatusCompleted 100 created None None "" res in
  let result := ScanResult.mk "res-1" "job-new" "alice" 0 0 0 "" "" 1 1 [] in
  let r := repository.mk
             (<["job-old" := job "job-old" 0 "res-1"]>
                {["job-new" := job "job-new" 100 "res-1"]})
             {["res-1" := result]}
             50 in
  let cutoffTime := repository.cutoff 100 r in
  let r' := repository.cleanupTick 100 ["job-old"; "job-new"] [] r in
  repository.range_order ["job-old"; "job-new"] (repository.scans r)
  /\ repository.range_order []
       (repository.scanResults (repository.cleanupScans cutoffTime ["job-old"; "job-new"] r))
  /\ ¬ repository.expired cutoffTime (job "job-new" 100 "res-1")
  /\ repository.scans r !! "job-new" = Some (job "job-new" 100 "res-1")
  /\ repository.scans r' !! "job-new" = Some (job "job-new" 100 "res-1")
  /\ repository.scanResults r !! "res-1" = Some result
  /\ ScanResult.ScanID result = "job-new"
  /\ repository.scanResults r' !! "res-1" = None.
Proof.
  intros o job result r cutoffTime r'.
  split; [unfold repository.range_order; vm_compute; reflexivity |].
  split; [unfold repository.range_order; vm_compute; reflexivity |].
  split; [vm_compute; discriminate |].
  repeat split; vm_compute; reflexivity.
Qed.

(** ** The store's copies *)

Section sharing_facts.

Import sharing.

(** *** Agreement with the value-level store *)

(** As long as the memory is not written, the store with sharing behaves as
    the value-level store on what the holders read. *)
Lemma view_SaveScanResult m d (x : ScanResult) (r : MemoryScanRepository) :
  view m (SaveScanResult x r).2 d
  = (repository.SaveScanResult (view_result m x) (view m r d)).2.
Proof.
  unfold view, SaveScanResult, repository.SaveScanResult, repository.with_scanResults.
  cbn. by rewrite fmap_insert.
Qed.

Lemma view_GetScanResultByID m d id (r : MemoryScanRepository) :
  (repository.GetScanResultByID id (view m r d)).1
  = match GetScanResultByID id r with
    | Returns x => Returns (view_result m x)
    | Fails e => Fails e
    | Panics msg => Panics msg
    end.
Proof.
  unfold view, GetScanResultByID, repository.GetScanResultByID. cbn.
  rewrite lookup_fmap. by destruct (scanResults r !! id).
Qed.

Lemma view_SaveScan m d (s : Scan) (r : MemoryScanRepository) :
  view m (SaveScan s r).2 d = (repository.SaveScan (view_scan m s) (view m r d)).2.
Proof.
  unfold view, SaveScan, repository.SaveScan, repository.with_scans.
  cbn. by rewrite fmap_insert.
Qed.

Lemma view_GetScanByID m d id (r : MemoryScanRepository) :
  (repository.GetScanByID id (view m r d)).1
  = match GetScanByID id r with
    | Returns s => Returns (view_scan m s)
    | Fails e => Fails e
    | Panics msg => Panics msg
    end.
Proof.
  unfold view, GetScanByID, repository.GetScanByID. cbn.
  rewrite lookup_fmap. by destruct (scans r !! id).
Qed.

(** *** Writing through a copy *)

Lemma index_assign {A} (h : list (list A)) (s : slice) (i : nat) (x : A) h' arr :
  h !! array s = Some arr -> (len s <= length arr)%nat ->
  assign h s i x = Some h' -> index h' s i = Some x.
Proof.
  unfold assign, index. intros Harr Hlen. destruct (decide (i < len s)%nat); [| done].
  intros [= <-]. rewrite list_lookup_alter_eq, Harr. cbn.
  apply list_lookup_insert_eq. lia.
Qed.

(** Every copy of a stored result that the store hands out has the stored
    header: an element assigned through one copy is what every later copy
    reads. *)
Lemma GetScanResultByID_shares_hosts id (r : MemoryScanRepository) m copy i host hs arr :
  GetScanResultByID id r = Returns copy ->
  hosts m !! array (Hosts copy) = Some arr -> (len (Hosts copy) <= length arr)%nat ->
  assign (hosts m) (Hosts copy) i host = Some hs ->
  forall later, GetScanResultByID id r = Returns later ->
                index (hosts (with_hosts hs m)) (Hosts later) i = Some host.
Proof.
  intros Hget Harr Hlen Hassign later Hlater.
  assert (later = copy) by congruence. subst later. cbn.
  eapply index_assign; eauto.
Qed.

End sharing_facts.

(** C9. The copies are struct copies. With a stored result of one host: a
    caller that gets the result and assigns [Hosts[0]] through its copy, or
    [Hosts[0].Ports[0]], changes what the next caller of [GetScanResultByID]
    reads, although the store was not called in between; and assigning
    [ExtraOptions[0]] through the scan that was passed to [SaveScan] changes
    what [GetScanByID] and the copies of [ListScans] read afterwards. Only
    the fields of the struct itself are independent. *)
Theorem store_copies_share_their_slices :
  let m := sharing.mkMemory
             [["--reason"]]
             [[sharing.mkHost "10.0.0.5" (sharing.mkSlice 0 0) "up" ""
                 (sharing.mkSlice 0 1) (sharing.mkSlice 0 0) (HostMetadata.mk 0 0 0 "" "")]]
             [[Port.mk 22 "tcp" "open" "ssh" "" "" ""]]
             [] [] in
  let result :=
    sharing.mkScanResult "res-1" "job-1" "alice" 0 0 0 "" "" 1 1 (sharing.mkSlice 0 1) in
  let scan :=
    sharing.mkScan "job-1" "alice"
      (sharing.mkScanOptions "10.0.0.5" "22" ScanTypeConnect 3 false false false
         (sharing.mkSlice 0 1) (5 * Second))
      ScanStatusCompleted 100 0 None None "" "res-1" in
  let r := (sharing.SaveScan scan (sharing.SaveScanResult result (sharing.mk ∅ ∅)).2).2 in
  exists copy host,
    sharing.GetScanResultByID "res-1" r = Returns copy
    /\ sharing.index (sharing.hosts m) (sharing.Hosts copy) 0 = Some host
    /\ (exists hs,
           sharing.assign (sharing.hosts m) (sharing.Hosts copy) 0
             (sharing.mkHost "6.6.6.6" (sharing.Hostnames host) "up" "" (sharing.Ports host)
                (sharing.Scripts host) (sharing.Metadata host)) = Some hs
           /\ exists later,
               sharing.GetScanResultByID "res-1" r = Returns later
               /\ Host.IP <$> ScanResult.Hosts (sharing.view_result m later) = ["10.0.0.5"]
               /\ Host.IP <$> ScanResult.Hosts
                                (sharing.view_result (sharing.with_hosts hs m) later)
                  = ["6.6.6.6"])
    /\ (exists ps,
           sharing.assign (sharing.ports m) (sharing.Ports host) 0
             (Port.mk 6666 "tcp" "open" "" "" "" "") = Some ps
           /\ exists later,
               sharing.GetScanResultByID "res-1" r = Returns later
               /\ fmap Port.Port <$> (Host.Ports <$> ScanResult.Hosts
                                          (sharing.view_result (sharing.with_ports ps m) later))
                  = [[6666]])
    /\ (exists ss,
           sharing.assign (sharing.strings m) (sharing.ExtraOptions (sharing.Options scan)) 0
             "--script=vuln" = Some ss
           /\ exists later,
               sharing.GetScanByID "job-1" r = Returns later
               /\ sharing.ListScans_copies ["job-1"] "" r = [later]
               /\ ScanOptions.ExtraOptions (Scan.Options (sharing.view_scan m later))
                  = ["--reason"]
               /\ ScanOptions.ExtraOptions
                    (Scan.Options (sharing.view_scan (sharing.with_strings ss m) later))
                  = ["--script=vuln"]).
Proof.
  intros m result scan r.
  eexists _, _. split; [vm_compute; reflexivity |]. split; [vm_compute; reflexivity |].
  split; [| split].
  - eexists. split; [vm_compute; reflexivity |].
    eexists. split; [vm_compute; reflexivity |]. split; vm_compute; reflexivity.
  - eexists. split; [vm_compute; reflexivity |].
    eexists. split; [vm_compute; reflexivity |]. vm_compute; reflexivity.
  - eexists. split; [vm_compute; reflexivity |].
    eexists. split; [vm_compute; reflexivity |].
    split; [vm_compute; reflexivity |]. split; vm_compute; reflexivity.
Qed.

(** ** The admission bound under interleaving *)

Section interleaving_facts.

Import interleaving.

Lemma size_insert_le (id : string) (scan : loc) (active : gmap string loc) :
  (size (<[id := scan]> active) <= S (size active))%nat.
Proof. rewrite map_size_insert. destruct (active !! id); cbn; lia. Qed.

Lemma size_delete_le (id : string) (active : gmap string loc) :
  (size (delete id active) <= size active)%nat.
Proof. rewrite map_size_delete. destruct (active !! id); cbn; lia. Qed.

(** Where a goroutine of the next state comes from. *)
Lemma goroutine_after (gs spawned : list point) t p' t' q :
  (<[t := p']> gs ++ spawned) !! t' = Some q ->
  (t' = t /\ q = p') \/ (t' ≠ t /\ gs !! t' = Some q) \/ q ∈ spawned.
Proof.
  intros Hq. apply lookup_app_Some in Hq as [Hq | [_ Hq]].
  - apply list_lookup_insert_Some in Hq as [(-> & -> & _) | [Hne Hq]]; auto.
  - right. right. eapply list_elem_of_lookup_2. exact Hq.
Qed.

(** A statement leaves the mutex with its holder or moves it as [Lock] and
    [Unlock] do, and touches the map only inside a critical section. *)
Lemma statement_mutex t mx p mu active p' mu' active' spawned :
  statement t mx p mu active p' mu' active' spawned ->
  (in_critical_section p = true -> mu = Some t) ->
  (in_critical_section p' = true -> mu' = Some t)
  /\ (in_critical_section p = false -> active' = active /\ (mu' = mu \/ mu = None))
  /\ (in_critical_section p = true -> in_critical_section p' = false -> mu' = None)
  /\ Forall (fun q => in_critical_section q = false /\ q ≠ StartRegister) spawned.
Proof.
  intros Hs Hmu.
  destruct Hs; cbn in *; repeat split; auto; try discriminate;
    try (repeat constructor; discriminate).
Qed.

Lemma statement_size t mx p mu active p' mu' active' spawned :
  statement t mx p mu active p' mu' active' spawned ->
  (p = StartRegister -> Z.of_nat (size active) < mx) ->
  Z.of_nat (size active) <= Z.max 0 mx ->
  Z.of_nat (size active') <= Z.max 0 mx
  /\ (p' = StartRegister -> Z.of_nat (size active') < mx).
Proof.
  intros Hs Hroom Hle.
  destruct Hs; split; try done; try (intros _; assumption).
  - pose proof (size_insert_le id scan active). specialize (Hroom eq_refl). lia.
  - pose proof (size_delete_le id active). lia.
  - pose proof (size_delete_le id active). lia.
Qed.

Lemma step_consistent st st' : consistent st -> step st st' -> consistent st'.
Proof.
  intros (Hmu & Hsize & Hroom) Hstep.
  destruct Hstep as [st t p p' mu' active' spawned Ht Hs | st p Hentry].
  - pose proof (statement_mutex _ _ _ _ _ _ _ _ _ Hs (Hmu t p Ht))
      as (Hmu' & Hout & Hunlock & Hspawned).
    destruct (statement_size _ _ _ _ _ _ _ _ _ Hs) as [Hsize' Hroom']; [| done |].
    { intros ->. exact (Hroom t Ht). }
    assert (Hothers : forall t' q, t' ≠ t -> goroutines st !! t' = Some q ->
                                   in_critical_section q = true ->
                                   in_critical_section p = false /\ mu' = mu st).
    { intros t' q Hne Hq Hcrit. pose proof (Hmu t' q Hq Hcrit) as Hheld.
      destruct (in_critical_section p) eqn:Hp.
      - specialize (Hmu t p Ht Hp). congruence.
      - split; [done |]. destruct (Hout eq_refl) as [_ [? | Hfree]]; [done | congruence]. }
    split; [| split]; cbn.
    + intros t' q Hq Hcrit.
      apply goroutine_after in Hq as [[-> ->] | [[Hne Hq] | Hin]].
      * by apply Hmu'.
      * destruct (Hothers t' q Hne Hq Hcrit) as [_ ->]. by apply (Hmu t' q).
      * eapply Forall_forall in Hspawned as [Hq _]; eauto. congruence.
    + exact Hsize'.
    + intros t' Hq.
      apply goroutine_after in Hq as [[-> Hp'] | [[Hne Hq] | Hin]].
      * by apply Hroom'.
      * destruct (Hothers t' _ Hne Hq eq_refl) as [Hp _].
        destruct (Hout Hp) as [-> _]. exact (Hroom t' Hq).
      * eapply Forall_forall in Hspawned as [_ Hq]; eauto. done.
  - split; [| split]; cbn.
    + intros t q Hq Hcrit. apply lookup_app_Some in Hq as [Hq | [_ Hq]]; [by eapply Hmu |].
      apply list_lookup_singleton_Some in Hq as [_ <-]. by destruct p.
    + exact Hsize.
    + intros t Hq. apply lookup_app_Some in Hq as [Hq | [_ Hq]]; [exact (Hroom t Hq) |].
      apply list_lookup_singleton_Some in Hq as [_ ->]. destruct Hentry.
Qed.

Lemma initial_consistent mx : consistent (initial mx).
Proof.
  unfold consistent, initial. cbn. split; [| split].
  - intros t p Hp. by rewrite lookup_nil in Hp.
  - rewrite map_size_empty. lia.
  - intros t Hp. by rewrite lookup_nil in Hp.
Qed.

Lemma steps_consistent st st' : consistent st -> rtc step st st' -> consistent st'.
Proof. intros Hc Hsteps. induction Hsteps; eauto using step_consistent. Qed.

Lemma steps_max st st' :
  rtc step st st' -> maxConcurrentScans st' = maxConcurrentScans st.
Proof.
  induction 1 as [| st st1 st2 Hstep _ IH]; [done |].
  rewrite IH. by destruct Hstep.
Qed.

(** A goroutine that finds the active set full leaves without touching it:
    from the [Lock] of [StartScan], three of its statements return the
    [ErrUnavailable] error, with the map as it was and the mutex free. *)
Lemma full_service_rejects t mx active :
  mx <= Z.of_nat (size active) ->
  exists p1 p2,
    statement t mx StartLock None active p1 (Some t) active []
    /\ statement t mx p1 (Some t) active p2 (Some t) active []
    /\ statement t mx p2 (Some t) active
         (StartReturned (Fails (NewUnavailable "maximum concurrent scans reached" nil)))
         None active [].
Proof.
  intros Hfull. exists StartCheck, StartUnlockFull.
  split; [constructor |]. split; [by constructor | constructor].
Qed.

End interleaving_facts.

(** C2, as the code counts: the number it compares with the limit is the
    number of entries of the active set. With a target in the options and at
    least [maxConcurrentScans] entries in the active set, [StartScan] fails
    with the type [ErrUnavailable]; it creates and persists nothing and
    leaves the active set, the repository and the scan objects as they
    were. Under concurrent
    calls the check and the registration sit in one critical section: in
    every state the service reaches from its creation, by any interleaving of
    the statements of any number of calls, at most one goroutine is between a
    [Lock] and its [Unlock], the active set holds at most
    [maxConcurrentScans] entries, and a goroutine about to register its scan
    still has room for it; a goroutine that finds the set full unlocks and
    returns [ErrUnavailable] with the set untouched. *)
Theorem StartScan_admission_control :
  (forall (R : Type) (HR : ScanRepository R) (now : Time) (id userID : string)
          (options : ScanOptions.t) (s : ScanService R),
      ScanOptions.Target options ≠ "" ->
      maxConcurrentScans s <= Z.of_nat (size (activeScans s)) ->
      exists e s',
        StartScan now id userID options s = (Fails e, s')
        /\ Type_of e = Some ErrUnavailable
        /\ activeScans s' = activeScans s
        /\ repository s' = repository s
        /\ memory s' = memory s)
  /\ (forall (mx : Z) (st : interleaving.state),
         rtc interleaving.step (interleaving.initial mx) st ->
         (forall t1 t2 p1 p2,
             interleaving.goroutines st !! t1 = Some p1 ->
             interleaving.goroutines st !! t2 = Some p2 ->
             interleaving.in_critical_section p1 = true ->
             interleaving.in_critical_section p2 = true ->
             t1 = t2)
         /\ Z.of_nat (size (interleaving.activeScans st)) <= Z.max 0 mx
         /\ (forall t, interleaving.goroutines st !! t = Some interleaving.StartRegister ->
                       Z.of_nat (size (interleaving.activeScans st)) < mx))
  /\ (forall (t : nat) (mx : Z) (active : gmap string loc),
         mx <= Z.of_nat (size active) ->
         exists p1 p2,
           interleaving.statement t mx interleaving.StartLock None active
             p1 (Some t) active []
           /\ interleaving.statement t mx p1 (Some t) active p2 (Some t) active []
           /\ interleaving.statement t mx p2 (Some t) active
                (interleaving.StartReturned
                   (Fails (NewUnavailable "maximum concurrent scans reached" nil)))
                None active []).
Proof.
  split; [| split].
  - intros R HR now id userID options s Ht Hfull.
    exists (NewUnavailable "maximum concurrent scans reached" nil), s.
    rewrite StartScan_full by assumption. repeat split.
  - intros mx st Hsteps.
    pose proof (steps_max _ _ Hsteps) as Hmx. cbn in Hmx.
    destruct (steps_consistent _ _ (initial_consistent mx) Hsteps) as (Hmu & Hsize & Hroom).
    rewrite Hmx in Hsize, Hroom. split; [| split; assumption].
    intros t1 t2 p1 p2 H1 H2 Hc1 Hc2.
    pose proof (Hmu t1 p1 H1 Hc1). pose proof (Hmu t2 p2 H2 Hc2). congruence.
  - intros t mx active Hfull. by apply full_service_rejects.
Qed.

(** A service of capacity one with one job running, and a second request. *)
Lemma StartScan_admission_control_witness :
  let o := ScanOptions.mk "10.0.0.5" "22,80" ScanTypeConnect 3 false false false [] (5 * Second) in
  let running := Scan.mk "job-1" "alice" o ScanStatusRunning 0 10 (Some 11) None "" "" in
  let s := mkScanService
             (repository.mk {["job-1" := running]} ∅ (60 * Minute))
             1 {["job-1" := 0%nat]} [running] in
  exists e s',
    StartScan 20 "job-2" "bob" o s = (Fails e, s')
    /\ Type_of e = Some ErrUnavailable
    /\ activeScans s' = activeScans s
    /\ repository s' = repository s
    /\ memory s' = memory s.
Proof.
  intros o running s.
  apply (proj1 StartScan_admission_control _ _ 20 "job-2" "bob" o s).
  - discriminate.
  - vm_compute. discriminate.
Defined.

(** C2 does not hold with the count of the scans that are not terminal. A
    service of capacity one: a job is started, cancelled while Pending, which
    takes it out of the active set, and then marked Running by the first
    statements of its own goroutine. One scan is not terminal and the limit
    is one, yet the next [StartScan] is admitted and registers and stores a
    second scan; two scans are then not terminal. *)
Lemma StartScan_admits_beside_a_running_scan :
  let o := ScanOptions.mk "10.0.0.5" "22,80" ScanTypeConnect 3 false false false [] (5 * Second) in
  let s0 := NewScanService (repository.NewMemoryScanRepository (60 * Minute)) 1 in
  let s1 := (StartScan 1000 "job-1" "alice" o s0).2 in
  let s2 := (CancelScan 2000 "job-1" s1).2 in
  let s3 := (executeScan_begin 3000 0%nat s2).2 in
  let s4 := (StartScan 4000 "job-2" "bob" o s3).2 in
  StartScan 1000 "job-1" "alice" o s0 = (Returns 0%nat, s1)
  /\ CancelScan 2000 "job-1" s1 = (Returns tt, s2)
  /\ executeScan_begin 3000 0%nat s2 = (Returns tt, s3)
  /\ Scan.Status <$> observe "job-1" s3 = Some ScanStatusRunning
  /\ non_terminal_scans s3 = ["job-1"]
  /\ maxConcurrentScans s3 <= Z.of_nat (length (non_terminal_scans s3))
  /\ activeScans s3 = ∅
  /\ ScanOptions.Target o ≠ ""
  /\ StartScan 4000 "job-2" "bob" o s3 = (Returns 1%nat, s4)
  /\ Scan.Status <$> repository.scans (repository s4) !! "job-2" = Some ScanStatusPending
  /\ non_terminal_scans s4 ≡ₚ ["job-1"; "job-2"].
Proof.
  intros o s0 s1 s2 s3 s4.
  split; [vm_compute; reflexivity |].
  split; [vm_compute; reflexivity |].
  split; [vm_compute; reflexivity |].
  split; [vm_compute; reflexivity |].
  split; [vm_compute; reflexivity |].
  split; [vm_compute; discriminate |].
  split; [vm_compute; reflexivity |].
  split; [discriminate |].
  split; [vm_compute; reflexivity |].
  split; [vm_compute; reflexivity |].
  vm_compute. reflexivity.
Qed.

(** ** The store as a map *)

Section store_facts.

Import repository.

Implicit Types r : MemoryScanRepository.

Lemma map_eq_Some {V} (m1 m2 : gmap string V) :
  (forall k v, m1 !! k = Some v <-> m2 !! k = Some v) -> m1 = m2.
Proof.
  intros H. apply map_eq. intros k.
  destruct (m1 !! k) as [v |] eqn:E1.
  - symmetry. by apply H.
  - destruct (m2 !! k) as [v |] eqn:E2; [| done].
    apply H in E2. congruence.
Qed.

Lemma repository_eq r1 r2 :
  scans r1 = scans r2 -> scanResults r1 = scanResults r2 ->
  retentionPeriod r1 = retentionPeriod r2 -> r1 = r2.
Proof. destruct r1, r2. cbn. by intros -> -> ->. Qed.

End store_facts.

(** X1. [SaveScan] always succeeds, and afterwards [GetScanByID] of the
    scan's id returns exactly the scan that was saved, replacing whatever the
    id held before; every other id reads as before, and the results and the
    retention period are left alone. *)
Theorem SaveScan_then_GetScanByID :
  forall (scan : Scan.t) (r : repository.MemoryScanRepository),
    let r' := (repository.SaveScan scan r).2 in
    (repository.SaveScan scan r).1 = Returns tt
    /\ repository.GetScanByID (Scan.ID scan) r' = (Returns scan, r')
    /\ (forall id, id ≠ Scan.ID scan ->
                   (repository.GetScanByID id r').1 = (repository.GetScanByID id r).1)
    /\ (forall other, Scan.ID other = Scan.ID scan ->
                      (repository.SaveScan scan (repository.SaveScan other r).2).2 = r')
    /\ repository.scanResults r' = repository.scanResults r
    /\ repository.retentionPeriod r' = repository.retentionPeriod r.
Proof.
  intros scan r r'. unfold r', repository.SaveScan, repository.GetScanByID. cbn.
  split; [done |]. split; [by rewrite lookup_insert_eq |].
  split; [| split; [| split; reflexivity]].
  - intros id Hne. rewrite lookup_insert_ne by congruence.
    by destruct (repository.scans r !! id).
  - intros other Hid. unfold repository.with_scans. cbn.
    rewrite Hid. by rewrite insert_insert_eq.
Qed.

(** X2. [UpdateScan] never creates a record: the set of stored ids is the
    same before and after. For an id the store does not hold it fails with
    the type [ErrNotFound] and changes nothing; for a stored id it succeeds
    and leaves the store as [SaveScan] would. *)
Theorem UpdateScan_keeps_the_ids :
  forall (scan : Scan.t) (r : repository.MemoryScanRepository),
    let r' := (repository.UpdateScan scan r).2 in
    dom (repository.scans r') = dom (repository.scans r)
    /\ (repository.scans r !! Scan.ID scan = None ->
        exists e, repository.UpdateScan scan r = (Fails e, r)
                  /\ Type_of e = Some ErrNotFound)
    /\ (is_Some (repository.scans r !! Scan.ID scan) ->
        repository.UpdateScan scan r = (Returns tt, (repository.SaveScan scan r).2)
        /\ repository.GetScanByID (Scan.ID scan) r' = (Returns scan, r')).
Proof.
  intros scan r r'. unfold r', repository.UpdateScan.
  destruct (repository.scans r !! Scan.ID scan) as [old |] eqn:E; cbn.
  - split; [| split].
    + apply dom_insert_lookup_L. by rewrite E.
    + discriminate.
    + intros _. split; [done |]. unfold repository.GetScanByID. cbn.
      by rewrite lookup_insert_eq.
  - split; [done |]. split; [eauto |]. intros [? [=]].
Qed.

(** X3. [DeleteScan] of an id the store does not hold fails with the type
    [ErrNotFound] and changes nothing. Otherwise it succeeds; the id then
    reads as not found and a second [DeleteScan] fails; every other scan and
    every result, also the deleted scan's own, stay as they were. *)
Theorem DeleteScan_removes_only_the_scan :
  forall (id : string) (r : repository.MemoryScanRepository),
    let r' := (repository.DeleteScan id r).2 in
    (repository.scans r !! id = None ->
     exists e, repository.DeleteScan id r = (Fails e, r) /\ Type_of e = Some ErrNotFound)
    /\ (is_Some (repository.scans r !! id) ->
        (repository.DeleteScan id r).1 = Returns tt
        /\ (exists e, repository.GetScanByID id r' = (Fails e, r')
                      /\ Type_of e = Some ErrNotFound)
        /\ (exists e, repository.DeleteScan id r' = (Fails e, r')
                      /\ Type_of e = Some ErrNotFound))
    /\ (forall other, other ≠ id ->
                      repository.scans r' !! other = repository.scans r !! other)
    /\ repository.scanResults r' = repository.scanResults r.
Proof.
  intros id r r'. unfold r', repository.DeleteScan.
  destruct (repository.scans r !! id) as [old |] eqn:E; cbn.
  - split; [discriminate |]. split; [| split; [| done]].
    + intros _. split; [done |].
      unfold repository.GetScanByID. cbn. rewrite !lookup_delete_eq. split; eauto.
    + intros other Hne. by rewrite lookup_delete_ne by congruence.
  - split; [eauto |]. split; [intros [? [=]] | done].
Qed.

(** X4. The results behave the same way: [SaveScanResult] always succeeds and
    [GetScanResultByID] then returns the saved result; [DeleteScanResult]
    fails with [ErrNotFound] for an unknown id and otherwise makes the id
    read as not found; neither touches another result or any scan. *)
Theorem ScanResult_save_get_delete :
  forall (result : ScanResult.t) (id : string) (r : repository.MemoryScanRepository),
    let saved := (repository.SaveScanResult result r).2 in
    let deleted := (repository.DeleteScanResult id r).2 in
    (repository.SaveScanResult result r).1 = Returns tt
    /\ repository.GetScanResultByID (ScanResult.ID result) saved = (Returns result, saved)
    /\ (forall other, other ≠ ScanResult.ID result ->
                      repository.scanResults saved !! other
                      = repository.scanResults r !! other)
    /\ repository.scans saved = repository.scans r
    /\ (repository.scanResults r !! id = None ->
        exists e, repository.DeleteScanResult id r = (Fails e, r)
                  /\ Type_of e = Some ErrNotFound)
    /\ (is_Some (repository.scanResults r !! id) ->
        (repository.DeleteScanResult id r).1 = Returns tt
        /\ exists e, repository.GetScanResultByID id deleted = (Fails e, deleted)
                     /\ Type_of e = Some ErrNotFound)
    /\ (forall other, other ≠ id ->
                      repository.scanResults deleted !! other
                      = repository.scanResults r !! other)
    /\ repository.scans deleted = repository.scans r.
Proof.
  intros result id r saved deleted.
  unfold saved, deleted, repository.SaveScanResult, repository.DeleteScanResult,
    repository.GetScanResultByID.
  split; [done |]. cbn. split; [by rewrite lookup_insert_eq |].
  split; [intros other Hne; by rewrite lookup_insert_ne by congruence |]. split; [done |].
  destruct (repository.scanResults r !! id) as [old |] eqn:E; cbn.
  - split; [discriminate |]. split; [| split; [| done]].
    + intros _. split; [done |]. rewrite lookup_delete_eq. eauto.
    + intros other Hne. by rewrite lookup_delete_ne by congruence.
  - split; [eauto |]. split; [intros [? [=]] | done].
Qed.

(** ** More on the reaper *)

Section reaper_more.

Import repository.

Implicit Types r : MemoryScanRepository.

(** What one tick leaves, whatever the orders of its two loops. *)
Lemma cleanupTick_scans r now ks rks id scan :
  range_order ks (scans r) ->
  scans (cleanupTick now ks rks r) !! id = Some scan
  <-> scans r !! id = Some scan /\ ¬ expired (cutoff now r) scan.
Proof.
  intros Hks. unfold cleanupTick. rewrite cleanupOrphans_scans, cleanupScans_scans.
  split; [| tauto]. intros [Hid Hn]. split; [done |]. intros Hexp.
  apply Hn. split; [| done]. eapply range_order_elem; eauto.
Qed.

Lemma cleanupTick_results r now ks rks rid result :
  range_order ks (scans r) ->
  range_order rks (scanResults (cleanupScans (cutoff now r) ks r)) ->
  scanResults (cleanupTick now ks rks r) !! rid = Some result
  <-> scanResults r !! rid = Some result
      /\ ¬ (exists id scan, scans r !! id = Some scan
                            /\ expired (cutoff now r) scan
                            /\ Scan.ResultID scan = rid /\ rid ≠ "")
      /\ ¬ orphan (scans (cleanupTick now ks rks r)) result.
Proof.
  intros Hks Hrks. unfold cleanupTick at 1.
  rewrite cleanupOrphans_results, cleanupScans_results.
  assert (Hsc : scans (cleanupScans (cutoff now r) ks r)
                = scans (cleanupTick now ks rks r)).
  { unfold cleanupTick. by rewrite cleanupOrphans_scans. }
  rewrite Hsc. split.
  - intros [[Hrid Hn] Ho]. split; [done |]. split.
    + intros (id & scan & Hid & Hexp & Hr & Hne). apply Hn. exists id, scan.
      repeat split; try done. eapply range_order_elem; eauto.
    + intros Horph. apply Ho. split; [| done].
      eapply range_order_elem; [exact Hrks |].
      apply cleanupScans_results. split; [exact Hrid | exact Hn].
  - intros (Hrid & Hn & Ho). split; [split; [done |] | tauto].
    intros (id & scan & _ & Hid & Hexp & Hr & Hne). apply Hn. eauto 6.
Qed.

Lemma cleanupTick_retention r now ks rks :
  retentionPeriod (cleanupTick now ks rks r) = retentionPeriod r.
Proof.
  unfold cleanupTick, cleanupOrphans.
  assert (Ho : forall l r0, retentionPeriod (foldl cleanup_result_step r0 l)
                            = retentionPeriod r0).
  { induction l as [| k l IH]; intros r0; cbn; [done |]. rewrite IH.
    unfold cleanup_result_step. destruct (scanResults r0 !! k); [| done].
    destruct (bool_decide _); [| done]. by destruct (scans r0 !! _). }
  by rewrite Ho, cleanupScans_retention.
Qed.

End reaper_more.

(** X5. The two loops of a tick visit the maps in an order Go leaves open;
    the store a tick leaves does not depend on it. *)
Theorem cleanupTick_order_independent :
  forall (r : repository.MemoryScanRepository) (now : Time)
         (ks1 rks1 ks2 rks2 : list string),
    let cutoffTime := repository.cutoff now r in
    repository.range_order ks1 (repository.scans r) ->
    repository.range_order ks2 (repository.scans r) ->
    repository.range_order rks1
      (repository.scanResults (repository.cleanupScans cutoffTime ks1 r)) ->
    repository.range_order rks2
      (repository.scanResults (repository.cleanupScans cutoffTime ks2 r)) ->
    repository.cleanupTick now ks1 rks1 r = repository.cleanupTick now ks2 rks2 r.
Proof.
  intros r now ks1 rks1 ks2 rks2 cutoffTime Hk1 Hk2 Hr1 Hr2.
  assert (Hs : repository.scans (repository.cleanupTick now ks1 rks1 r)
               = repository.scans (repository.cleanupTick now ks2 rks2 r)).
  { apply map_eq_Some. intros id scan. by rewrite !cleanupTick_scans. }
  apply repository_eq.
  - exact Hs.
  - apply map_eq_Some. intros rid result.
    rewrite !cleanupTick_results by assumption. by rewrite Hs.
  - by rewrite !cleanupTick_retention.
Qed.

(** An expired job with its result and a recent job with its result, the
    loops run in opposite orders. *)
Lemma cleanupTick_order_independent_witness :
  let o := ScanOptions.mk "10.0.0.5" "22,80" ScanTypeConnect 3 false false false [] (5 * Second) in
  let job id created res :=
    Scan.mk id "alice" o ScanStatusCompleted 100 created None None "" res in
  let res id scan := ScanResult.mk id scan "alice" 0 0 0 "" "" 1 1 [] in
  let r := repository.mk
             (<["job-old" := job "job-old" 0 "res-old"]>
                {["job-new" := job "job-new" 100 "res-new"]})
             (<["res-new" := res "res-new" "job-new"]>
                {["res-lost" := res "res-lost" "job-gone"]})
             50 in
  repository.cleanupTick 100 ["job-old"; "job-new"] ["res-new"; "res-lost"] r
  = repository.cleanupTick 100 ["job-new"; "job-old"] ["res-lost"; "res-new"] r.
Proof.
  intros o job res r.
  apply cleanupTick_order_independent.
  - unfold repository.range_order. vm_compute. reflexivity.
  - unfold repository.range_order. vm_compute. apply perm_swap.
  - unfold repository.range_order. vm_compute. reflexivity.
  - unfold repository.range_order. vm_compute. apply perm_swap.
Defined.

(** X6. A tick is idempotent, and a tick at an earlier or the same time,
    after one has run, finds nothing to do: the store stays as the first tick
    left it. *)
Theorem cleanupTick_again_changes_nothing :
  forall (r : repository.MemoryScanRepository) (now now' : Time)
         (ks rks ks' rks' : list string),
    let r1 := repository.cleanupTick now ks rks r in
    repository.range_order ks (repository.scans r) ->
    repository.range_order rks
      (repository.scanResults
         (repository.cleanupScans (repository.cutoff now r) ks r)) ->
    repository.range_order ks' (repository.scans r1) ->
    repository.range_order rks'
      (repository.scanResults
         (repository.cleanupScans (repository.cutoff now' r1) ks' r1)) ->
    now' <= now ->
    repository.cleanupTick now' ks' rks' r1 = r1.
Proof.
  intros r now now' ks rks ks' rks' r1 Hks Hrks Hks' Hrks' Hle.
  assert (Hret : repository.retentionPeriod r1 = repository.retentionPeriod r)
    by apply cleanupTick_retention.
  assert (Hkept : forall id scan,
             repository.scans r1 !! id = Some scan ->
             ¬ repository.expired (repository.cutoff now' r1) scan).
  { intros id scan Hid. apply cleanupTick_scans in Hid as [_ Hn]; [| done].
    intros Hexp. apply Hn. unfold repository.expired, repository.cutoff, Add in *. rewrite Hret in Hexp. lia. }
  assert (Hs : repository.scans (repository.cleanupTick now' ks' rks' r1)
               = repository.scans r1).
  { apply map_eq_Some. intros id scan. rewrite cleanupTick_scans by done.
    split; [tauto |]. intros Hid. split; [done |]. by apply (Hkept id). }
  apply repository_eq.
  - exact Hs.
  - apply map_eq_Some. intros rid result.
    rewrite cleanupTick_results by assumption. rewrite Hs. split; [tauto |].
    intros Hrid. split; [done |]. split.
    + intros (id & scan & Hid & Hexp & _). by apply (Hkept id scan).
    + apply cleanupTick_results in Hrid; tauto.
  - by rewrite cleanupTick_retention.
Qed.

Lemma cleanupTick_again_changes_nothing_witness :
  let o := ScanOptions.mk "10.0.0.5" "22,80" ScanTypeConnect 3 false false false [] (5 * Second) in
  let job id created res :=
    Scan.mk id "alice" o ScanStatusCompleted 100 created None None "" res in
  let res id scan := ScanResult.mk id scan "alice" 0 0 0 "" "" 1 1 [] in
  let r := repository.mk
             (<["job-old" := job "job-old" 0 "res-old"]>
                {["job-new" := job "job-new" 100 "res-new"]})
             (<["res-new" := res "res-new" "job-new"]>
                {["res-lost" := res "res-lost" "job-gone"]})
             50 in
  let r1 := repository.cleanupTick 100 ["job-old"; "job-new"] ["res-new"; "res-lost"] r in
  repository.cleanupTick 90 ["job-new"] ["res-new"] r1 = r1.
Proof.
  intros o job res r r1.
  apply (cleanupTick_again_changes_nothing r 100 90).
  - unfold repository.range_order. vm_compute. reflexivity.
  - unfold repository.range_order. vm_compute. reflexivity.
  - unfold repository.range_order. vm_compute. reflexivity.
  - unfold repository.range_order. vm_compute. reflexivity.
  - lia.
Defined.

(** X7. [DeleteScan] does not delete the job's result; the reaper does. If a
    result names a job and that job is deleted, the next tick, whenever it
    runs, removes the result, however recent the job was. *)
Theorem DeleteScan_then_tick_drops_the_result :
  forall (r : repository.MemoryScanRepository) (id rid : string) (result : ScanResult.t)
         (now : Time) (ks rks : list string),
    let r1 := (repository.DeleteScan id r).2 in
    repository.scanResults r !! rid = Some result ->
    ScanResult.ScanID result = id ->
    id ≠ "" ->
    is_Some (repository.scans r !! id) ->
    repository.range_order ks (repository.scans r1) ->
    repository.range_order rks
      (repository.scanResults
         (repository.cleanupScans (repository.cutoff now r1) ks r1)) ->
    repository.scanResults r1 !! rid = Some result
    /\ repository.scanResults (repository.cleanupTick now ks rks r1) !! rid = None.
Proof.
  intros r id rid result now ks rks r1 Hrid Hsid Hne [old Hold] Hks Hrks.
  assert (Hr1 : repository.scanResults r1 = repository.scanResults r
                /\ repository.scans r1 !! id = None).
  { unfold r1, repository.DeleteScan. rewrite Hold. cbn. split; [done |].
    apply lookup_delete_eq. }
  destruct Hr1 as [Hres Hgone]. split; [by rewrite Hres |].
  destruct (repository.scanResults (repository.cleanupTick now ks rks r1) !! rid)
    as [x |] eqn:E; [| done].
  apply cleanupTick_results in E as (Hx & _ & Ho); [| done | done].
  rewrite Hres in Hx. assert (x = result) by congruence. subst x.
  destruct Ho. split; [by rewrite Hsid |]. rewrite Hsid.
  destruct (repository.scans (repository.cleanupTick now ks rks r1) !! id) as [s |] eqn:Es;
    [| done].
  apply cleanupTick_scans in Es as [Es _]; [| done]. congruence.
Qed.

Lemma DeleteScan_then_tick_drops_the_result_witness :
  let o := ScanOptions.mk "10.0.0.5" "22,80" ScanTypeConnect 3 false false false [] (5 * Second) in
  let job := Scan.mk "job-new" "alice" o ScanStatusCompleted 100 100 None None "" "res-new" in
  let result := ScanResult.mk "res-new" "job-new" "alice" 0 0 0 "" "" 1 1 [] in
  let r := repository.mk {["job-new" := job]} {["res-new" := result]} 50 in
  let r1 := (repository.DeleteScan "job-new" r).2 in
  repository.scanResults r1 !! "res-new" = Some result
  /\ repository.scanResults (repository.cleanupTick 100 [] ["res-new"] r1) !! "res-new" = None.
Proof.
  intros o job result r r1.
  apply (DeleteScan_then_tick_drops_the_result r "job-new" "res-new" result 100 [] ["res-new"]).
  - reflexivity.
  - reflexivity.
  - discriminate.
  - exists job. reflexivity.
  - unfold repository.range_order. vm_compute. reflexivity.
  - unfold repository.range_order. vm_compute. reflexivity.
Defined.

(** ** More on [ListScans] *)

Section list_more.

Import repository.

Lemma take_take_drop {A} (l : list A) (a b : nat) :
  take a l ++ take b (drop a l) = take (a + b) l.
Proof.
  revert l. induction a as [| a IH]; intros l; [done |].
  destruct l as [| x l]; cbn; [by rewrite take_nil |]. by rewrite IH.
Qed.

(** A list sorted strictly by creation time is determined by its elements. *)
Lemma strictly_newest_first_unique (l1 : list Scan.t) : forall l2,
  StronglySorted (fun x y => Scan.CreatedAt y < Scan.CreatedAt x) l1 ->
  StronglySorted (fun x y => Scan.CreatedAt y < Scan.CreatedAt x) l2 ->
  l1 ≡ₚ l2 -> l1 = l2.
Proof.
  induction l1 as [| a l1 IH]; intros l2 H1 H2 Hp.
  - by apply Permutation_nil_l in Hp.
  - destruct l2 as [| b l2]; [by apply Permutation_nil_r in Hp |].
    apply StronglySorted_inv in H1 as [H1 Ha]. apply StronglySorted_inv in H2 as [H2 Hb].
    assert (a = b) as <-.
    { assert (Hina : a ∈ b :: l2) by (rewrite <- Hp; left).
      assert (Hinb : b ∈ a :: l1) by (rewrite Hp; left).
      apply elem_of_cons in Hina as [? | Hina]; [done |].
      apply elem_of_cons in Hinb as [? | Hinb]; [done |].
      eapply Forall_forall in Ha; [| exact Hinb].
      eapply Forall_forall in Hb; [| exact Hina]. lia. }
    f_equal. apply IH; [done | done |]. eapply Permutation_cons_inv. exact Hp.
Qed.

Lemma sorted_scans_unique ks1 ks2 userID (m : gmap string Scan.t) :
  range_order ks1 m -> range_order ks2 m ->
  NoDup (Scan.CreatedAt <$> matching userID m) ->
  sort_newest_first (collect ks1 userID m) = sort_newest_first (collect ks2 userID m).
Proof.
  intros H1 H2 Hnd.
  destruct (sorted_scans ks1 userID m H1) as (Hp1 & Hs1 & _).
  destruct (sorted_scans ks2 userID m H2) as (Hp2 & Hs2 & _).
  apply strictly_newest_first_unique.
  - apply newest_first_strict; [done |]. by rewrite Hp1.
  - apply newest_first_strict; [done |]. by rewrite Hp2.
  - by rewrite Hp1, Hp2.
Qed.

End list_more.

(** X8. When the scans the filter selects have pairwise distinct creation
    times, what [ListScans] returns does not depend on the order in which
    [range] visits the map: two calls with the same arguments return the
    same outcome. *)
Theorem ListScans_order_independent :
  forall (r : repository.MemoryScanRepository) (ks1 ks2 : list string) (userID : string)
         (limit offset : Z),
    repository.range_order ks1 (repository.scans r) ->
    repository.range_order ks2 (repository.scans r) ->
    NoDup (Scan.CreatedAt <$> repository.matching userID (repository.scans r)) ->
    repository.ListScans ks1 userID limit offset r
    = repository.ListScans ks2 userID limit offset r.
Proof.
  intros r ks1 ks2 userID limit offset H1 H2 Hnd.
  unfold repository.ListScans.
  by rewrite (sorted_scans_unique ks1 ks2 userID _ H1 H2 Hnd).
Qed.

Lemma ListScans_order_independent_witness :
  let o := ScanOptions.mk "10.0.0.5" "22,80" ScanTypeConnect 3 false false false [] (5 * Second) in
  let job id user created :=
    Scan.mk id user o ScanStatusCompleted 100 created None None "" "" in
  let r := repository.mk
             (<["job-1" := job "job-1" "alice" 10]> {["job-2" := job "job-2" "bob" 30]})
             ∅ (60 * Minute) in
  repository.ListScans ["job-1"; "job-2"] "" 10 0 r
  = repository.ListScans ["job-2"; "job-1"] "" 10 0 r.
Proof.
  intros o job r.
  apply ListScans_order_independent.
  - unfold repository.range_order. vm_compute. reflexivity.
  - unfold repository.range_order. vm_compute. apply perm_swap.
  - vm_compute. apply (bool_decide_unpack _). vm_compute. exact I.
Defined.

(** X9. Pages fit together. With distinct creation times among the selected
    scans, and offsets and limits that are not negative and stay within
    [int]: a page of [a] scans at [offset] followed by a page of [b] scans
    at [offset + a] is the page of [a + b] scans at [offset], even though
    each call walks the map in its own order; no page is longer than its
    limit, and every scan of a page is a stored scan that the owner filter
    selects. *)
Theorem ListScans_pages_concatenate :
  forall (r : repository.MemoryScanRepository) (ks1 ks2 ks3 : list string)
         (userID : string) (offset a b : Z),
    repository.range_order ks1 (repository.scans r) ->
    repository.range_order ks2 (repository.scans r) ->
    repository.range_order ks3 (repository.scans r) ->
    NoDup (Scan.CreatedAt <$> repository.matching userID (repository.scans r)) ->
    0 <= offset -> 0 <= a -> 0 <= b -> offset + a + b <= MaxInt ->
    exists p1 p2 : list Scan.t,
      repository.ListScans ks1 userID a offset r = Returns p1
      /\ repository.ListScans ks2 userID b (offset + a) r = Returns p2
      /\ repository.ListScans ks3 userID (a + b) offset r = Returns (p1 ++ p2)
      /\ Z.of_nat (length p1) <= a
      /\ Z.of_nat (length p2) <= b
      /\ (forall scan, scan ∈ p1 ++ p2 ->
                       repository.owner_matches userID scan
                       /\ exists id, repository.scans r !! id = Some scan).
Proof.
  intros r ks1 ks2 ks3 userID offset a b H1 H2 H3 Hnd Ho Ha Hb Hsum.
  rewrite !ListScans_page by lia.
  rewrite (sorted_scans_unique ks2 ks1) by assumption.
  rewrite (sorted_scans_unique ks3 ks1) by assumption.
  set (sorted := repository.sort_newest_first (repository.collect ks1 userID (repository.scans r))).
  eexists _, _. split; [reflexivity |]. split; [reflexivity |].
  split; [| split; [| split]].
  - f_equal. rewrite !Z2Nat.inj_add by lia. rewrite <- drop_drop.
    by rewrite take_take_drop.
  - rewrite length_take. lia.
  - rewrite length_take. lia.
  - intros scan Hin.
    assert (Hsorted : scan ∈ sorted).
    { apply elem_of_app in Hin as [Hin | Hin];
        by apply subseteq_take, subseteq_drop in Hin. }
    destruct (sorted_scans ks1 userID (repository.scans r) H1) as (Hp & _ & _).
    fold sorted in Hp. rewrite Hp in Hsorted.
    unfold repository.matching in Hsorted.
    apply list_elem_of_filter in Hsorted as [Hm Hin'].
    split; [done |].
    apply list_elem_of_fmap in Hin' as ([id v] & -> & Hkv).
    exists id. by apply elem_of_map_to_list.
Qed.

Lemma ListScans_pages_concatenate_witness :
  let o := ScanOptions.mk "10.0.0.5" "22,80" ScanTypeConnect 3 false false false [] (5 * Second) in
  let job id user created :=
    Scan.mk id user o ScanStatusCompleted 100 created None None "" "" in
  let r := repository.mk
             (<["job-1" := job "job-1" "alice" 10]>
                (<["job-2" := job "job-2" "bob" 30]> {["job-3" := job "job-3" "alice" 20]}))
             ∅ (60 * Minute) in
  exists p1 p2 : list Scan.t,
    repository.ListScans ["job-3"; "job-1"; "job-2"] "" 1 0 r = Returns p1
    /\ repository.ListScans ["job-1"; "job-3"; "job-2"] "" 2 (0 + 1) r = Returns p2
    /\ repository.ListScans ["job-3"; "job-2"; "job-1"] "" (1 + 2) 0 r = Returns (p1 ++ p2).
Proof.
  intros o job r.
  destruct (ListScans_pages_concatenate r ["job-3"; "job-1"; "job-2"]
              ["job-1"; "job-3"; "job-2"] ["job-3"; "job-2"; "job-1"] "" 0 1 2)
    as (p1 & p2 & H1 & H2 & H3 & _).
  - unfold repository.range_order. vm_compute. reflexivity.
  - unfold repository.range_order. vm_compute. apply perm_swap.
  - unfold repository.range_order. vm_compute. apply perm_skip, perm_swap.
  - vm_compute. apply (bool_decide_unpack _). vm_compute. exact I.
  - lia.
  - lia.
  - lia.
  - vm_compute. discriminate.
  - exists p1, p2. repeat split; assumption.
Defined.

(** ** More on the orchestrator *)

Section service_more.

Implicit Types s : ScanService repository.MemoryScanRepository.

(** *** Writing through a pointer *)

Lemma store_valid scan f s v :
  memory s !! scan = Some v ->
  store scan f s = with_memory (<[scan := f v]> (memory s)) s.
Proof. intros Hv. unfold store. by rewrite Hv. Qed.

Lemma store_lookup scan f s v :
  memory s !! scan = Some v -> memory (store scan f s) !! scan = Some (f v).
Proof.
  intros Hv. rewrite (store_valid _ _ _ _ Hv). cbn.
  apply list_lookup_insert_eq. by eapply lookup_lt_Some.
Qed.

Lemma store_activeScans scan f s : activeScans (store scan f s) = activeScans s.
Proof. unfold store. by destruct (memory s !! scan). Qed.

Lemma store_repository scan f s : repository (store scan f s) = repository s.
Proof. unfold store. by destruct (memory s !! scan). Qed.

Lemma store_maxConcurrentScans scan f s :
  maxConcurrentScans (store scan f s) = maxConcurrentScans s.
Proof. unfold store. by destruct (memory s !! scan). Qed.

(** An admitted request, written out. *)
Lemma StartScan_admitted now id userID options s :
  ScanOptions.Target options ≠ "" ->
  Z.of_nat (size (activeScans s)) < maxConcurrentScans s ->
  StartScan now id userID options s
  = (Returns (length (memory s)),
     mkScanService
       (repository.with_scans
          (<[id := Scan.mk id userID options ScanStatusPending 0 now None None "" ""]>
             (repository.scans (repository s)))
          (repository s))
       (maxConcurrentScans s) (<[id := length (memory s)]> (activeScans s))
       (memory s ++ [Scan.mk id userID options ScanStatusPending 0 now None None "" ""])).
Proof.
  intros Ht Hroom. unfold StartScan.
  pose proof (validateScanOptions_target options Ht) as Hv.
  destruct (validateScanOptions options) as [o e]. cbn in Hv. subst e.
  destruct (Z.geb_spec (Z.of_nat (size (activeScans s))) (maxConcurrentScans s)); [lia |].
  unfold alloc. cbn. rewrite lookup_app_r by lia. rewrite Nat.sub_diag. cbn.
  reflexivity.
Qed.

End service_more.

(** X10. An admitted request: with a target in the options and room in the
    active set, [StartScan] over the in-memory repository returns a new
    pointer to a scan that is Pending, with progress 0, the creation time
    [now], no start or completion time, the caller's user id and options; the
    same pointer is registered in the active set under the new id, a copy is
    stored under that id, no existing object or result is touched, and
    [GetScan] of the id hands out that same pointer. *)
Theorem StartScan_registers_a_pending_scan :
  forall (now : Time) (id userID : string) (options : ScanOptions.t)
         (s : ScanService repository.MemoryScanRepository),
    let v := Scan.mk id userID options ScanStatusPending 0 now None None "" "" in
    let scan := length (memory s) in
    let s' := (StartScan now id userID options s).2 in
    ScanOptions.Target options ≠ "" ->
    Z.of_nat (size (activeScans s)) < maxConcurrentScans s ->
    StartScan now id userID options s = (Returns scan, s')
    /\ memory s' = memory s ++ [v]
    /\ activeScans s' = <[id := scan]> (activeScans s)
    /\ repository.scans (repository s') = <[id := v]> (repository.scans (repository s))
    /\ repository.scanResults (repository s') = repository.scanResults (repository s)
    /\ GetScan id s' = (Returns scan, s')
    /\ observe id s' = Some v.
Proof.
  intros now id userID options s v scan s' Ht Hroom.
  pose proof (StartScan_admitted now id userID options s Ht Hroom) as Hrun.
  fold v scan in Hrun.
  unfold s'. rewrite Hrun. cbn. repeat split.
  - unfold GetScan. cbn. by rewrite lookup_insert_eq.
  - apply (observe_active _ _ scan); cbn [activeScans memory].
    + apply lookup_insert_eq.
    + by apply list_lookup_middle.
Qed.

Lemma StartScan_registers_a_pending_scan_witness :
  let o := ScanOptions.mk "10.0.0.5" "22,80" ScanTypeConnect 3 false false false [] (5 * Second) in
  let s := NewScanService (repository.NewMemoryScanRepository (60 * Minute)) 10 in
  let s' := (StartScan 1000 "job-1" "alice" o s).2 in
  StartScan 1000 "job-1" "alice" o s = (Returns 0%nat, s')
  /\ observe "job-1" s'
     = Some (Scan.mk "job-1" "alice" o ScanStatusPending 0 1000 None None "" "").
Proof.
  intros o s s'.
  destruct (StartScan_registers_a_pending_scan 1000 "job-1" "alice" o s)
    as (H1 & _ & _ & _ & _ & _ & H7).
  - discriminate.
  - vm_compute. reflexivity.
  - split; [exact H1 | exact H7].
Defined.

(** X11. A repository that refuses the save: whatever the repository is, if
    [SaveScan] fails for the new scan, [StartScan] fails with the type
    [ErrInternal] wrapping the repository's error, and the registration is
    taken back: the active set is the previous one without the new id, so it
    is the previous one when the id was not registered before. *)
Theorem StartScan_rolls_back_when_save_fails :
  forall (R : Type) (HR : ScanRepository R) (now : Time) (id userID : string)
         (options : ScanOptions.t) (s : ScanService R) (err : error) (r' : R),
    ScanOptions.Target options ≠ "" ->
    Z.of_nat (size (activeScans s)) < maxConcurrentScans s ->
    SaveScan (Scan.mk id userID options ScanStatusPending 0 now None None "" "")
      (repository s) = (Fails err, r') ->
    exists s',
      StartScan now id userID options s
      = (Fails (Error ErrInternal "failed to save scan" err), s')
      /\ activeScans s' = delete id (activeScans s)
      /\ (activeScans s !! id = None -> activeScans s' = activeScans s)
      /\ repository s' = r'.
Proof.
  intros R HR now id userID options s err r' Ht Hroom Hsave.
  unfold StartScan.
  pose proof (validateScanOptions_target options Ht) as Hv.
  destruct (validateScanOptions options) as [o e]. cbn in Hv. subst e.
  destruct (Z.geb_spec (Z.of_nat (size (activeScans s))) (maxConcurrentScans s)); [lia |].
  unfold alloc. cbn. rewrite lookup_app_r by lia. rewrite Nat.sub_diag. cbn.
  rewrite Hsave. eexists. split; [reflexivity |]. cbn.
  assert (Hd : delete id (<[id := length (memory s)]> (activeScans s))
               = delete id (activeScans s)) by apply delete_insert_eq.
  rewrite Hd. repeat split. intros Hfresh. by apply delete_id.
Qed.

(** The test double configured to refuse the save. *)
Lemma StartScan_rolls_back_when_save_fails_witness :
  let o := ScanOptions.mk "10.0.0.5" "22,80" ScanTypeConnect 3 false false false [] (5 * Second) in
  let mock := mkMock (Fails (Plain "disk full")) (Returns tt) (Fails (Plain "scan not found")) in
  let s := NewScanService mock 10 in
  exists s',
    StartScan 1000 "job-1" "alice" o s
    = (Fails (Error ErrInternal "failed to save scan" (Plain "disk full")), s')
    /\ activeScans s' = activeScans s.
Proof.
  intros o mock s.
  destruct (StartScan_rolls_back_when_save_fails _ _ 1000 "job-1" "alice" o s
              (Plain "disk full") mock) as (s' & H1 & _ & H3 & _).
  - discriminate.
  - vm_compute. reflexivity.
  - reflexivity.
  - exists s'. split; [exact H1 | apply H3; reflexivity].
Defined.

(** X13. An id that is neither in the active set nor in the store:
    [CancelScan] fails with the type [ErrNotFound], wrapping the store's own
    not-found error, and the service is left exactly as it was. *)
Theorem CancelScan_unknown_id_not_found :
  forall (now : Time) (id : string) (s : ScanService repository.MemoryScanRepository),
    activeScans s !! id = None ->
    repository.scans (repository s) !! id = None ->
    exists e,
      CancelScan now id s = (Fails e, s)
      /\ Type_of e = Some ErrNotFound
      /\ Type_of (Unwrap e) = Some ErrNotFound
      /\ observe id s = None.
Proof.
  intros now id s Ha Hr.
  assert (Hg : GetScan id s
               = (Fails (NewNotFound "scan not found"
                           (NewNotFound ("scan with ID " +:+ id +:+ " not found") nil)), s)).
  { unfold GetScan. rewrite Ha. cbn. unfold repository.GetScanByID. rewrite Hr.
    by destruct s. }
  eexists. unfold CancelScan, observe. rewrite Hg. repeat split.
Qed.

Lemma CancelScan_unknown_id_not_found_witness :
  let s := NewScanService (repository.NewMemoryScanRepository (60 * Minute)) 10 in
  exists e, CancelScan 20 "job-9" s = (Fails e, s) /\ Type_of e = Some ErrNotFound.
Proof.
  intros s.
  destruct (CancelScan_unknown_id_not_found 20 "job-9" s) as (e & H1 & H2 & _).
  - reflexivity.
  - reflexivity.
  - exists e. split; assumption.
Defined.

(** X14. A failed cancel is not undone. When a Running or Pending scan is in
    the active set but the store has no record under its id (the reaper has
    taken it, say), [CancelScan] fails with the type [ErrInternal], yet the
    shared scan object already reads Cancelled with the completion time set,
    and it stays in the active set; a second attempt then fails with
    [ErrInvalidInput]. *)
Theorem CancelScan_failure_leaves_the_scan_cancelled :
  forall (now later : Time) (id : string)
         (s : ScanService repository.MemoryScanRepository) (scan : loc) (v : Scan.t),
    activeScans s !! id = Some scan ->
    memory s !! scan = Some v ->
    Scan.Status v = ScanStatusRunning \/ Scan.Status v = ScanStatusPending ->
    repository.scans (repository s) !! Scan.ID v = None ->
    exists e s1 e2 s2,
      CancelScan now id s = (Fails e, s1)
      /\ Type_of e = Some ErrInternal
      /\ Type_of (Unwrap e) = Some ErrNotFound
      /\ activeScans s1 = activeScans s
      /\ repository s1 = repository s
      /\ observe id s1 = Some (cancelled now v)
      /\ CancelScan later id s1 = (Fails e2, s2)
      /\ Type_of e2 = Some ErrInvalidInput.
Proof.
  intros now later id s scan v Ha Hm Hst Hr.
  pose proof (cancellable_test v Hst) as Ht.
  assert (Hlt : (scan < length (memory s))%nat) by (eapply lookup_lt_Some; eauto).
  assert (Hc : CancelScan now id s
               = (Fails (NewInternal "failed to update scan"
                           (NewNotFound ("scan with ID " +:+ Scan.ID v +:+ " not found") nil)),
                  with_memory (<[scan := cancelled now v]> (memory s)) s)).
  { unfold CancelScan, GetScan. rewrite Ha, Hm, Ht.
    unfold store. rewrite Hm. cbn.
    rewrite list_lookup_insert_eq by done. cbn.
    rewrite list_lookup_insert_eq by (rewrite length_insert; done). cbn.
    unfold repository.UpdateScan. cbn. rewrite Hr.
    rewrite list_insert_insert_eq. by destruct s. }
  set (s1 := with_memory (<[scan := cancelled now v]> (memory s)) s) in *.
  assert (Ho1 : observe id s1 = Some (cancelled now v)).
  { apply (observe_active _ _ scan); cbn; [done |]. by apply list_lookup_insert_eq. }
  destruct (CancelScan_terminal later id s1 (cancelled now v) Ho1)
    as (s2 & Hc2 & _); [discriminate | discriminate |].
  eexists _, s1, _, s2. split; [exact Hc |]. repeat split; try done.
Qed.

Lemma CancelScan_failure_leaves_the_scan_cancelled_witness :
  let o := ScanOptions.mk "10.0.0.5" "22,80" ScanTypeConnect 3 false false false [] (5 * Second) in
  let running := Scan.mk "job-1" "alice" o ScanStatusRunning 0 10 (Some 11) None "" "" in
  let s := mkScanService (repository.NewMemoryScanRepository (60 * Minute))
             10 {["job-1" := 0%nat]} [running] in
  exists e s1,
    CancelScan 20 "job-1" s = (Fails e, s1)
    /\ Type_of e = Some ErrInternal
    /\ activeScans s1 = activeScans s
    /\ observe "job-1" s1 = Some (cancelled 20 running).
Proof.
  intros o running s.
  destruct (CancelScan_failure_leaves_the_scan_cancelled 20 30 "job-1" s 0%nat running)
    as (e & s1 & _ & _ & H1 & H2 & _ & H4 & _ & H6 & _).
  - reflexivity.
  - reflexivity.
  - left. reflexivity.
  - reflexivity.
  - exists e, s1. repeat split; assumption.
Defined.

(** ** The job's goroutine *)

Section execute_facts.

Implicit Types s : ScanService repository.MemoryScanRepository.

Lemma store_store scan f g s v :
  memory s !! scan = Some v ->
  store scan g (store scan f s) = store scan (fun x => g (f x)) s.
Proof.
  intros Hv. rewrite (store_valid scan g _ (f v)) by (by apply store_lookup).
  rewrite !(store_valid _ _ s v) by done. cbn.
  by rewrite list_insert_insert_eq.
Qed.

Lemma executeScan_begin_runs now scan s v :
  memory s !! scan = Some v ->
  executeScan_begin now scan s
  = (Returns tt,
     mkScanService (repository.UpdateScan (started now v) (repository s)).2
       (maxConcurrentScans s) (activeScans s) (<[scan := started now v]> (memory s))).
Proof.
  intros Hv. unfold executeScan_begin.
  rewrite (store_store _ _ _ _ v Hv). rewrite (store_store _ _ _ _ v Hv).
  rewrite (store_valid _ _ _ v Hv). cbn.
  rewrite list_lookup_insert_eq by (by eapply lookup_lt_Some). cbn.
  change (set_Progress 0 (set_StartedAt (Some now) (Scan.with_Status ScanStatusRunning v)))
    with (started now v).
  by destruct (repository.UpdateScan (started now v) (repository s)).
Qed.

Lemma executeScan_end_result result completedAt scan s v :
  memory s !! scan = Some v ->
  executeScan_end (Returns result) completedAt scan s
  = (Returns tt,
     mkScanService
       (repository.UpdateScan (completed completedAt (ScanResult.ID result) v)
          (repository.SaveScanResult
             (set_ScanID_UserID (Scan.ID v) (Scan.UserID v) result) (repository s)).2).2
       (maxConcurrentScans s) (delete (Scan.ID v) (activeScans s))
       (<[scan := completed completedAt (ScanResult.ID result) v]> (memory s))).
Proof.
  intros Hv.
  assert (Hlt : (scan < length (memory s))%nat) by (by eapply lookup_lt_Some).
  destruct s as [r mx a m]. cbn in Hv, Hlt.
  unfold executeScan_end, store. cbn. rewrite Hv. cbn.
  repeat (rewrite list_lookup_insert_eq by (rewrite ?length_insert; exact Hlt); cbn).
  rewrite !list_insert_insert_eq.
  change (Scan.with_CompletedAt (Some completedAt)
            (set_ResultID (ScanResult.ID result)
               (set_Progress 100 (Scan.with_Status ScanStatusCompleted v))))
    with (completed completedAt (ScanResult.ID result) v).
  by destruct (repository.UpdateScan _ _).
Qed.

Lemma executeScan_end_error err completedAt scan s v :
  memory s !! scan = Some v ->
  executeScan_end (Fails err) completedAt scan s
  = (Returns tt,
     mkScanService
       (repository.UpdateScan (failed completedAt err v) (repository s)).2
       (maxConcurrentScans s) (delete (Scan.ID v) (activeScans s))
       (<[scan := failed completedAt err v]> (memory s))).
Proof.
  intros Hv.
  assert (Hlt : (scan < length (memory s))%nat) by (by eapply lookup_lt_Some).
  destruct s as [r mx a m]. cbn in Hv, Hlt.
  unfold executeScan_end, store. cbn. rewrite Hv. cbn.
  repeat (rewrite list_lookup_insert_eq by (rewrite ?length_insert; exact Hlt); cbn).
  rewrite !list_insert_insert_eq.
  change (Scan.with_CompletedAt (Some completedAt)
            (set_Error (Error_string err) (Scan.with_Status ScanStatusFailed v)))
    with (failed completedAt err v).
  by destruct (repository.UpdateScan _ _).
Qed.

End execute_facts.

(** X15. A job's goroutine, run to its end on a scan whose record is in
    the store. If the adapter returns a result, the scan ends Completed with
    progress 100, the start and completion times set and the result's id as
    its reference, and the result is stored under its own id, tagged with the
    scan's id and user. If the adapter returns an error, the scan ends Failed
    with progress 0, the error's text, and no result is stored. Either way
    the final scan is what the store holds and what the pointer reads, and
    the scan's id is removed from the active set. *)
Theorem executeScan_ends_the_job :
  forall (adapter : ScanOptions.t -> outcome ScanResult.t) (now completedAt : Time)
         (scan : loc) (s : ScanService repository.MemoryScanRepository) (v : Scan.t),
    memory s !! scan = Some v ->
    is_Some (repository.scans (repository s) !! Scan.ID v) ->
    (forall result, adapter (Scan.Options v) = Returns result ->
       let final :=
         Scan.mk (Scan.ID v) (Scan.UserID v) (Scan.Options v) ScanStatusCompleted 100
           (Scan.CreatedAt v) (Some now) (Some completedAt) (Scan.Error v)
           (ScanResult.ID result) in
       exists s',
         executeScan adapter now completedAt scan s = (Returns tt, s')
         /\ deref s' scan = Some final
         /\ repository.scans (repository s') !! Scan.ID v = Some final
         /\ repository.scanResults (repository s') !! ScanResult.ID result
            = Some (set_ScanID_UserID (Scan.ID v) (Scan.UserID v) result)
         /\ activeScans s' = delete (Scan.ID v) (activeScans s))
    /\ (forall err, adapter (Scan.Options v) = Fails err ->
          let final :=
            Scan.mk (Scan.ID v) (Scan.UserID v) (Scan.Options v) ScanStatusFailed 0
              (Scan.CreatedAt v) (Some now) (Some completedAt) (Error_string err)
              (Scan.ResultID v) in
          exists s',
            executeScan adapter now completedAt scan s = (Returns tt, s')
            /\ deref s' scan = Some final
            /\ repository.scans (repository s') !! Scan.ID v = Some final
            /\ repository.scanResults (repository s')
               = repository.scanResults (repository s)
            /\ activeScans s' = delete (Scan.ID v) (activeScans s)).
Proof.
  intros adapter now completedAt scan s v Hv [old Hold].
  assert (Hlt : (scan < length (memory s))%nat) by (by eapply lookup_lt_Some).
  assert (Hbegin : forall answer,
             adapter (Scan.Options v) = answer ->
             executeScan adapter now completedAt scan s
             = executeScan_end answer completedAt scan
                 (mkScanService
                    (repository.with_scans
                       (<[Scan.ID v := started now v]> (repository.scans (repository s)))
                       (repository s))
                    (maxConcurrentScans s) (activeScans s)
                    (<[scan := started now v]> (memory s)))).
  { intros answer Ha. unfold executeScan. rewrite (executeScan_begin_runs _ _ _ v Hv).
    cbn [memory]. rewrite list_lookup_insert_eq by done.
    change (Scan.Options (started now v)) with (Scan.Options v). rewrite Ha.
    unfold repository.UpdateScan. cbn. by rewrite Hold. }
  split.
  - intros result Ha final. rewrite (Hbegin _ Ha).
    rewrite (executeScan_end_result _ _ _ _ (started now v))
      by (cbn; by apply list_lookup_insert_eq).
    eexists. split; [reflexivity |]. unfold deref. cbn.
    rewrite list_insert_insert_eq. rewrite list_lookup_insert_eq by done.
    unfold repository.UpdateScan. cbn. rewrite lookup_insert_eq. cbn.
    rewrite !lookup_insert_eq. done.
  - intros err Ha final. rewrite (Hbegin _ Ha).
    rewrite (executeScan_end_error _ _ _ _ (started now v))
      by (cbn; by apply list_lookup_insert_eq).
    eexists. split; [reflexivity |]. unfold deref. cbn.
    rewrite list_insert_insert_eq. rewrite list_lookup_insert_eq by done.
    unfold repository.UpdateScan. cbn. rewrite lookup_insert_eq. cbn.
    rewrite !lookup_insert_eq. done.
Qed.

Lemma executeScan_ends_the_job_witness :
  let o := ScanOptions.mk "10.0.0.5" "22,80" ScanTypeConnect 3 false false false [] (5 * Second) in
  let pending := Scan.mk "job-1" "alice" o ScanStatusPending 0 10 None None "" "" in
  let s := mkScanService (repository.mk {["job-1" := pending]} ∅ (60 * Minute))
             10 {["job-1" := 0%nat]} [pending] in
  let result := ScanResult.mk "res-1" "" "" 11 12 0 "nmap 10.0.0.5" "done" 1 1 [] in
  exists s',
    executeScan (fun _ => Returns result) 11 13 0%nat s = (Returns tt, s')
    /\ repository.scans (repository s') !! "job-1"
       = Some (Scan.mk "job-1" "alice" o ScanStatusCompleted 100 10 (Some 11) (Some 13)
                 "" "res-1")
    /\ activeScans s' = delete "job-1" (activeScans s).
Proof.
  intros o pending s result.
  destruct (executeScan_ends_the_job (fun _ => Returns result) 11 13 0%nat s pending)
    as [H _].
  - reflexivity.
  - exists pending. reflexivity.
  - destruct (H result eq_refl) as (s' & H1 & _ & H3 & _ & H5).
    exists s'. repeat split; assumption.
Defined.

(** X16. When the store has lost the scan's record before the goroutine
    starts (the reaper took it, or it was deleted), the goroutine still runs
    to its end and still removes the id from the active set; nothing about
    the scan is stored, but a result the adapter returned is stored all the
    same, tagged with the id of a scan the store does not hold. *)
Theorem executeScan_without_a_record :
  forall (adapter : ScanOptions.t -> outcome ScanResult.t) (now completedAt : Time)
         (scan : loc) (s : ScanService repository.MemoryScanRepository) (v : Scan.t)
         (result : ScanResult.t),
    memory s !! scan = Some v ->
    repository.scans (repository s) !! Scan.ID v = None ->
    adapter (Scan.Options v) = Returns result ->
    exists s',
      executeScan adapter now completedAt scan s = (Returns tt, s')
      /\ activeScans s' = delete (Scan.ID v) (activeScans s)
      /\ repository.scans (repository s') = repository.scans (repository s)
      /\ repository.scanResults (repository s') !! ScanResult.ID result
         = Some (set_ScanID_UserID (Scan.ID v) (Scan.UserID v) result)
      /\ (Scan.ID v ≠ "" ->
          repository.orphan (repository.scans (repository s'))
            (set_ScanID_UserID (Scan.ID v) (Scan.UserID v) result))
      /\ Scan.Status <$> deref s' scan = Some ScanStatusCompleted.
Proof.
  intros adapter now completedAt scan s v result Hv Hnone Ha.
  assert (Hlt : (scan < length (memory s))%nat) by (by eapply lookup_lt_Some).
  unfold executeScan. rewrite (executeScan_begin_runs _ _ _ v Hv).
  cbn [memory]. rewrite list_lookup_insert_eq by done.
  change (Scan.Options (started now v)) with (Scan.Options v). rewrite Ha.
  rewrite (executeScan_end_result _ _ _ _ (started now v))
    by (cbn; by apply list_lookup_insert_eq).
  eexists. split; [reflexivity |]. unfold deref. cbn.
  rewrite list_insert_insert_eq. rewrite list_lookup_insert_eq by done.
  unfold repository.UpdateScan. cbn. rewrite Hnone. cbn. rewrite Hnone. cbn.
  rewrite lookup_insert_eq. repeat split; try done.
Qed.

Lemma executeScan_without_a_record_witness :
  let o := ScanOptions.mk "10.0.0.5" "22,80" ScanTypeConnect 3 false false false [] (5 * Second) in
  let pending := Scan.mk "job-1" "alice" o ScanStatusPending 0 10 None None "" "" in
  let s := mkScanService (repository.NewMemoryScanRepository (60 * Minute))
             10 {["job-1" := 0%nat]} [pending] in
  let result := ScanResult.mk "res-1" "" "" 11 12 0 "nmap 10.0.0.5" "done" 1 1 [] in
  exists s',
    executeScan (fun _ => Returns result) 11 13 0%nat s = (Returns tt, s')
    /\ activeScans s' = delete "job-1" (activeScans s)
    /\ repository.scans (repository s') = repository.scans (repository s).
Proof.
  intros o pending s result.
  destruct (executeScan_without_a_record (fun _ => Returns result) 11 13 0%nat s pending result)
    as (s' & H1 & H2 & H3 & _).
  - reflexivity.
  - reflexivity.
  - reflexivity.
  - exists s'. repeat split; assumption.
Defined.

Section cancel_race.

Implicit Types s : ScanService repository.MemoryScanRepository.

(** [CancelScan] of a scan of the active set, written out. *)
Lemma CancelScan_active now id s scan v :
  activeScans s !! id = Some scan ->
  memory s !! scan = Some v ->
  Scan.Status v = ScanStatusRunning \/ Scan.Status v = ScanStatusPending ->
  Scan.ID v = id ->
  is_Some (repository.scans (repository s) !! id) ->
  CancelScan now id s
  = (Returns tt,
     mkScanService
       (repository.with_scans (<[id := cancelled now v]> (repository.scans (repository s)))
          (repository s))
       (maxConcurrentScans s) (delete id (activeScans s))
       (<[scan := cancelled now v]> (memory s))).
Proof.
  intros Ha Hm Hst Hid [w Hw]. pose proof (cancellable_test v Hst) as Ht.
  assert (Hlt : (scan < length (memory s))%nat) by (eapply lookup_lt_Some; eauto).
  unfold CancelScan, GetScan. rewrite Ha, Hm, Ht.
  unfold store. rewrite Hm. cbn.
  rewrite list_lookup_insert_eq by done. cbn.
  rewrite list_lookup_insert_eq by (rewrite length_insert; done). cbn.
  unfold repository.UpdateScan. cbn. rewrite Hid, Hw.
  by rewrite list_insert_insert_eq.
Qed.

End cancel_race.

(** X12. Cancelling twice. Once [CancelScan] has succeeded for a scan, a
    second [CancelScan] of the same id that follows it directly, with no step
    of the job's goroutine between the two calls and whatever the clock
    shows, fails with the type [ErrInvalidInput] and leaves the active set,
    the store and the cancelled scan as the first call left them. The
    refusal does not last: for a job of the active set, once its goroutine
    has taken its first step after the first call and marked the scan
    Running again, the second [CancelScan] succeeds and the scan is
    cancelled a second time, with the later completion time. *)
Theorem CancelScan_twice :
  forall (now later : Time) (id : string)
         (s : ScanService repository.MemoryScanRepository) (v : Scan.t),
    observe id s = Some v ->
    Scan.Status v = ScanStatusRunning \/ Scan.Status v = ScanStatusPending ->
    Scan.ID v = id ->
    is_Some (repository.scans (repository s) !! id) ->
    exists s1,
      CancelScan now id s = (Returns tt, s1)
      /\ (exists e s2,
             CancelScan later id s1 = (Fails e, s2)
             /\ Type_of e = Some ErrInvalidInput
             /\ activeScans s2 = activeScans s1
             /\ repository s2 = repository s1
             /\ observe id s2 = Some (cancelled now v)
             /\ Scan.CompletedAt (cancelled now v) = Some now)
      /\ (forall (scan : loc) (start : Time),
             activeScans s !! id = Some scan ->
             exists s1' s2',
               executeScan_begin start scan s1 = (Returns tt, s1')
               /\ observe id s1' = Some (started start (cancelled now v))
               /\ CancelScan later id s1' = (Returns tt, s2')
               /\ observe id s2' = Some (cancelled later (started start (cancelled now v)))
               /\ Scan.Status (cancelled later (started start (cancelled now v)))
                  = ScanStatusCancelled
               /\ Scan.CompletedAt (cancelled later (started start (cancelled now v)))
                  = Some later).
Proof.
  intros now later id s v Ho Hst Hid Hin.
  destruct (CancelScan_cancellable now id s v Ho Hst Hid Hin) as (s1 & Hc & _ & _ & Ho1).
  exists s1. split; [exact Hc |]. split.
  - destruct (CancelScan_terminal later id s1 (cancelled now v) Ho1)
      as (s2 & Hc2 & Ha & Hr & _ & Ho2); [discriminate | discriminate |].
    exists (NewInvalidInput "scan is not running or pending" nil), s2.
    repeat split; assumption.
  - intros scan start Ha.
    assert (Hm : memory s !! scan = Some v).
    { destruct (observe_cases _ _ _ Ho) as [(scan' & Ha' & Hm' & _) | (Ha' & _)];
        congruence. }
    assert (Hlt : (scan < length (memory s))%nat) by (by eapply lookup_lt_Some).
    rewrite (CancelScan_active now id s scan v Ha Hm Hst Hid Hin) in Hc.
    injection Hc as <-.
    set (s1 := mkScanService _ _ _ _) in *.
    assert (Hm1 : memory s1 !! scan = Some (cancelled now v))
      by (by apply list_lookup_insert_eq).
    pose proof (executeScan_begin_runs start scan s1 (cancelled now v) Hm1) as Hb.
    set (s1' := mkScanService _ _ _ _) in Hb.
    assert (Ho1' : observe id s1' = Some (started start (cancelled now v))).
    { apply observe_stored.
      - cbn. apply lookup_delete_eq.
      - cbn. unfold repository.UpdateScan. cbn. rewrite Hid.
        rewrite lookup_insert_eq. cbn. apply lookup_insert_eq. }
    assert (Hin1' : is_Some (repository.scans (repository s1') !! id)).
    { destruct (observe_cases _ _ _ Ho1') as [(scan' & Ha' & _) | (_ & Hr & _)].
      - cbn in Ha'. by rewrite lookup_delete_eq in Ha'.
      - eauto. }
    destruct (CancelScan_cancellable later id s1' (started start (cancelled now v)) Ho1')
      as (s2' & Hc2 & _ & _ & Ho2'); [by left | exact Hid | exact Hin1' |].
    exists s1', s2'. repeat split; assumption.
Qed.

Lemma CancelScan_twice_witness :
  let o := ScanOptions.mk "10.0.0.5" "22,80" ScanTypeConnect 3 false false false [] (5 * Second) in
  let pending := Scan.mk "job-1" "alice" o ScanStatusPending 0 10 None None "" "" in
  let s := mkScanService (repository.mk {["job-1" := pending]} ∅ (60 * Minute))
             10 {["job-1" := 0%nat]} [pending] in
  exists s1,
    CancelScan 20 "job-1" s = (Returns tt, s1)
    /\ (exists e s2,
           CancelScan 30 "job-1" s1 = (Fails e, s2) /\ Type_of e = Some ErrInvalidInput)
    /\ (exists s1' s2',
           executeScan_begin 25 0%nat s1 = (Returns tt, s1')
           /\ CancelScan 30 "job-1" s1' = (Returns tt, s2')).
Proof.
  intros o pending s.
  destruct (CancelScan_twice 20 30 "job-1" s pending)
    as (s1 & H1 & (e & s2 & H2 & H3 & _) & Hrace).
  - reflexivity.
  - right. reflexivity.
  - reflexivity.
  - exists pending. reflexivity.
  - destruct (Hrace 0%nat 25) as (s1' & s2' & Hb & _ & Hc & _); [reflexivity |].
    exists s1. split; [exact H1 |]. split.
    + exists e, s2. split; assumption.
    + exists s1', s2'. split; assumption.
Defined.

(** X17. Cancelling a running job does not stop its goroutine, and the
    goroutine has the last word. For a job of the active set with its
    record in the store: after the goroutine has marked it Running,
    [CancelScan] succeeds and the scan reads Cancelled; when the adapter
    then returns, the goroutine writes through the pointer it still holds,
    and the scan everyone sees afterwards is Completed (with the result
    stored) or Failed, with the later completion time, not Cancelled. *)
Theorem executeScan_overwrites_a_cancellation :
  forall (now cancelledAt completedAt : Time) (id : string) (scan : loc)
         (s : ScanService repository.MemoryScanRepository) (v : Scan.t)
         (answer : outcome ScanResult.t),
    activeScans s !! id = Some scan ->
    memory s !! scan = Some v ->
    Scan.ID v = id ->
    is_Some (repository.scans (repository s) !! id) ->
    (forall msg, answer ≠ Panics msg) ->
    exists s1 s2 s3 final,
      executeScan_begin now scan s = (Returns tt, s1)
      /\ CancelScan cancelledAt id s1 = (Returns tt, s2)
      /\ Scan.Status <$> observe id s2 = Some ScanStatusCancelled
      /\ executeScan_end answer completedAt scan s2 = (Returns tt, s3)
      /\ observe id s3 = Some final
      /\ Scan.CompletedAt final = Some completedAt
      /\ match answer with
         | Returns result =>
             Scan.Status final = ScanStatusCompleted
             /\ Scan.ResultID final = ScanResult.ID result
             /\ is_Some (repository.scanResults (repository s3) !! ScanResult.ID result)
         | _ => Scan.Status final = ScanStatusFailed
         end.
Proof.
  intros now cancelledAt completedAt id scan s v answer Ha Hv Hid [old Hold] Hnp.
  assert (Hlt : (scan < length (memory s))%nat) by (by eapply lookup_lt_Some).
  rewrite (executeScan_begin_runs _ _ _ v Hv).
  set (s1 := mkScanService _ _ _ _).
  assert (Hs1 : repository.scans (repository s1)
                = <[id := started now v]> (repository.scans (repository s))).
  { unfold s1, repository.UpdateScan. cbn. rewrite Hid, Hold. done. }
  assert (Hc : CancelScan cancelledAt id s1
               = (Returns tt,
                  mkScanService
                    (repository.with_scans
                       (<[id := cancelled cancelledAt (started now v)]>
                          (repository.scans (repository s1))) (repository s1))
                    (maxConcurrentScans s1) (delete id (activeScans s1))
                    (<[scan := cancelled cancelledAt (started now v)]> (memory s1)))).
  { apply CancelScan_active.
    - exact Ha.
    - cbn. by apply list_lookup_insert_eq.
    - left. reflexivity.
    - exact Hid.
    - rewrite Hs1, lookup_insert_eq. eauto. }
  set (s2 := mkScanService _ _ _ _) in Hc.
  assert (Hm2 : memory s2 !! scan = Some (cancelled cancelledAt (started now v))).
  { cbn. apply list_lookup_insert_eq. by rewrite length_insert. }
  assert (Hr2 : repository.scans (repository s2) !! id
                = Some (cancelled cancelledAt (started now v))).
  { cbn. apply lookup_insert_eq. }
  assert (Ha2 : activeScans s2 !! id = None) by (cbn; apply lookup_delete_eq).
  destruct answer as [result | err | msg]; [| | by destruct (Hnp msg)].
  - pose proof (executeScan_end_result result completedAt scan s2 _ Hm2) as He.
    change (Scan.ID (cancelled cancelledAt (started now v))) with (Scan.ID v) in He.
    change (Scan.UserID (cancelled cancelledAt (started now v))) with (Scan.UserID v) in He.
    rewrite Hid in He.
    set (s3 := mkScanService _ _ _ _) in He.
    exists s1, s2, s3, (completed completedAt (ScanResult.ID result)
                          (cancelled cancelledAt (started now v))).
    split; [done |]. split; [exact Hc |]. split.
    { rewrite (observe_stored id s2 _ Ha2 Hr2). done. }
    split; [exact He |]. split.
    { apply observe_stored.
      - cbn. apply lookup_delete_eq.
      - unfold s3, repository.UpdateScan. cbn [repository].
        change (Scan.ID (completed completedAt (ScanResult.ID result)
                           (cancelled cancelledAt (started now v)))) with (Scan.ID v).
        rewrite Hid. cbn. rewrite lookup_insert_eq. cbn. apply lookup_insert_eq. }
    split; [done |]. split; [done |]. split; [done |].
    unfold s3, repository.UpdateScan. cbn [repository].
    change (Scan.ID (completed completedAt (ScanResult.ID result)
                       (cancelled cancelledAt (started now v)))) with (Scan.ID v).
    rewrite Hid. cbn. rewrite lookup_insert_eq. cbn. rewrite lookup_insert_eq. eauto.
  - pose proof (executeScan_end_error err completedAt scan s2 _ Hm2) as He.
    change (Scan.ID (cancelled cancelledAt (started now v))) with (Scan.ID v) in He.
    rewrite Hid in He.
    set (s3 := mkScanService _ _ _ _) in He.
    exists s1, s2, s3, (failed completedAt err (cancelled cancelledAt (started now v))).
    split; [done |]. split; [exact Hc |]. split.
    { rewrite (observe_stored id s2 _ Ha2 Hr2). done. }
    split; [exact He |]. split.
    { apply observe_stored.
      - cbn. apply lookup_delete_eq.
      - unfold s3, repository.UpdateScan. cbn [repository].
        change (Scan.ID (failed completedAt err (cancelled cancelledAt (started now v))))
          with (Scan.ID v).
        rewrite Hid. cbn. rewrite lookup_insert_eq. cbn. apply lookup_insert_eq. }
    split; done.
Qed.

Lemma executeScan_overwrites_a_cancellation_witness :
  let o := ScanOptions.mk "10.0.0.5" "22,80" ScanTypeConnect 3 false false false [] (5 * Second) in
  let pending := Scan.mk "job-1" "alice" o ScanStatusPending 0 10 None None "" "" in
  let s := mkScanService (repository.mk {["job-1" := pending]} ∅ (60 * Minute))
             10 {["job-1" := 0%nat]} [pending] in
  let result := ScanResult.mk "res-1" "" "" 11 12 0 "nmap 10.0.0.5" "done" 1 1 [] in
  exists s1 s2 s3 final,
    executeScan_begin 11 0%nat s = (Returns tt, s1)
    /\ CancelScan 12 "job-1" s1 = (Returns tt, s2)
    /\ Scan.Status <$> observe "job-1" s2 = Some ScanStatusCancelled
    /\ executeScan_end (Returns result) 13 0%nat s2 = (Returns tt, s3)
    /\ observe "job-1" s3 = Some final
    /\ Scan.Status final = ScanStatusCompleted.
Proof.
  intros o pending s result.
  destruct (executeScan_overwrites_a_cancellation 11 12 13 "job-1" 0%nat s pending
              (Returns result))
    as (s1 & s2 & s3 & final & H1 & H2 & H3 & H4 & H5 & _ & H7 & _).
  - reflexivity.
  - reflexivity.
  - reflexivity.
  - exists pending. reflexivity.
  - discriminate.
  - exists s1, s2, s3, final. repeat split; assumption.
Defined.

(** ** More on the adapter *)

Section adapter_more.

Import adapters.

Variable Atoi : string -> Z * error.
Variable ParseFloat : string -> float * error.
Variable ParseTime : string -> Time * error.

Lemma scripts_loop (xs : list XMLScript) : forall acc,
  foldl (fun scripts xmlScript =>
           scripts ++ [Script.mk (Script_ID xmlScript) (Script_Output xmlScript) ∅])
        acc xs
  = acc ++ ((fun x => Script.mk (Script_ID x) (Script_Output x) ∅) <$> xs).
Proof.
  induction xs as [| x xs IH]; intros acc; cbn; [by rewrite app_nil_r |].
  rewrite IH. by rewrite <- app_assoc.
Qed.

Lemma hostnames_loop (xs : list XMLHostname) : forall acc,
  foldl (fun names hostname => names ++ [Hostname_Name hostname]) acc xs
  = acc ++ (Hostname_Name <$> xs).
Proof.
  induction xs as [| x xs IH]; intros acc; cbn; [by rewrite app_nil_r |].
  rewrite IH. by rewrite <- app_assoc.
Qed.

Lemma ports_loop (xs : list XMLPort) : forall ports scripts,
  foldl port_step (ports, scripts) xs
  = (ports ++ (port_of <$> xs),
     scripts ++ (xs ≫= fun p => (fun x => Script.mk (Script_ID x) (Script_Output x) ∅)
                                   <$> Port_Scripts p)).
Proof.
  induction xs as [| x xs IH]; intros ports scripts; cbn [foldl].
  - cbn. by rewrite !app_nil_r.
  - unfold port_step at 2. rewrite scripts_loop, IH. cbn.
    by rewrite <- !app_assoc.
Qed.

Lemma first_ipv4_none ip (addrs : list XMLAddress) :
  Forall (fun a => AddrType a ≠ "ipv4") addrs -> first_ipv4 ip addrs = ip.
Proof.
  induction 1 as [| a addrs Ha _ IH]; cbn; [done |].
  by rewrite (bool_decide_eq_false_2 _ Ha).
Qed.

Lemma first_ipv4_found ip (before after : list XMLAddress) a :
  Forall (fun a => AddrType a ≠ "ipv4") before -> AddrType a = "ipv4" ->
  first_ipv4 ip (before ++ a :: after) = Addr a.
Proof.
  intros Hb Ha. induction Hb as [| b before Hb _ IH]; cbn.
  - by rewrite (bool_decide_eq_true_2 _ Ha).
  - by rewrite (bool_decide_eq_false_2 _ Hb).
Qed.

End adapter_more.

(** X18. What the mapping keeps of an up host. Its ports are the report's
    ports, one entry each, in report order; its scripts are the scripts of
    all its ports, in port order, each with its output verbatim and no
    structured data; its hostnames are the report's names in order; its
    operating system is the first match, or empty without one; its address
    is the first address of type "ipv4", whatever precedes it, or empty when
    the report has none. *)
Theorem convert_host_keeps_ports_scripts_and_address :
  forall (Atoi : string -> Z * error) (ParseFloat : string -> float * error)
         (ParseTime : string -> Time * error) (h : adapters.XMLHost),
    let host := adapters.convert_host Atoi ParseFloat ParseTime h in
    Host.Ports host = port_of <$> adapters.Host_Ports h
    /\ Host.Scripts host
       = (adapters.Host_Ports h ≫= fun p =>
            (fun x => Script.mk (adapters.Script_ID x) (adapters.Script_Output x) ∅)
              <$> adapters.Port_Scripts p)
    /\ Host.Hostnames host = adapters.Hostname_Name <$> adapters.Host_Hostnames h
    /\ Host.OS host = default "" (adapters.OSMatch_Name <$> head (adapters.Host_OS_Matches h))
    /\ (forall before a after,
           adapters.Host_Addresses h = before ++ a :: after ->
           Forall (fun b => adapters.AddrType b ≠ "ipv4") before ->
           adapters.AddrType a = "ipv4" ->
           Host.IP host = adapters.Addr a)
    /\ (Forall (fun b => adapters.AddrType b ≠ "ipv4") (adapters.Host_Addresses h) ->
        Host.IP host = "").
Proof.
  intros Atoi ParseFloat ParseTime h host. unfold host, adapters.convert_host.
  rewrite ports_loop, hostnames_loop. cbn.
  split; [done |]. split; [done |]. split; [done |].
  split; [by destruct (adapters.Host_OS_Matches h) |]. split.
  - intros before a after -> Hb Ha. by apply first_ipv4_found.
  - intros Hnone. by apply first_ipv4_none.
Qed.

Section command_line.

Import adapters.

Lemma buildCommandArgs_flags options :
  buildCommandArgs options
  = ScanOptions.Target options :: flags options ++ ScanOptions.ExtraOptions options.
Proof.
  unfold buildCommandArgs, flags.
  destruct (bool_decide (ScanOptions.Ports options ≠ ""));
    destruct ((ScanOptions.TimingTemplate' options >=? TimingParanoid)
              && (ScanOptions.TimingTemplate' options <=? TimingInsane));
    destruct (ScanOptions.ServiceDetection options);
    destruct (ScanOptions.OSDetection options);
    destruct (ScanOptions.ScriptScan options);
    cbn; rewrite <- ?app_assoc; cbn; rewrite ?app_nil_r; reflexivity.
Qed.

Lemma scan_type_flag_fixed t :
  (length (scan_type_flag t) <= 1)%nat
  /\ Forall (fun x => x ∈ ["-sS"; "-sT"; "-sU"; "-sV"; "-sC"; "-A"]) (scan_type_flag t).
Proof.
  unfold scan_type_flag.
  repeat (case_bool_decide;
    [split; [cbn; lia | apply Forall_singleton; set_unfold; tauto] |]).
  split; [cbn; lia | constructor].
Qed.

End command_line.

(** X19. The nmap command line. The first argument is always the target
    and the last arguments are the extra options, verbatim and in order.
    Between them stand at most seven arguments, each of them "-p", the port
    specification as given, one of the fixed flags, or "-T" with the timing
    level, the last only for a level from 0 to 5; without a port
    specification there is no "-p". *)
Theorem buildCommandArgs_shape :
  forall options : ScanOptions.t,
    adapters.buildCommandArgs options
    = ScanOptions.Target options :: flags options ++ ScanOptions.ExtraOptions options
    /\ (length (flags options) <= 7)%nat
    /\ Forall (fun x =>
                 x = ScanOptions.Ports options
                 \/ x ∈ ["-p"; "-sS"; "-sT"; "-sU"; "-sV"; "-sC"; "-A"; "-O"]
                 \/ (x = "-T" +:+ pretty (ScanOptions.TimingTemplate' options)
                     /\ 0 <= ScanOptions.TimingTemplate' options <= 5))
              (flags options)
    /\ (ScanOptions.Ports options = "" -> "-p" ∉ flags options).
Proof.
  intros options. split; [apply buildCommandArgs_flags |].
  destruct (scan_type_flag_fixed (ScanOptions.ScanType' options)) as [Hlen Hfixed].
  unfold flags. split; [| split].
  - rewrite !length_app.
    destruct (bool_decide _), (_ && _), (ScanOptions.ServiceDetection options),
      (ScanOptions.OSDetection options), (ScanOptions.ScriptScan options); cbn; lia.
  - repeat apply Forall_app_2.
    + case_bool_decide; [| apply Forall_nil_2].
      apply Forall_cons_2; [right; left; set_unfold; tauto |].
      apply Forall_singleton. by left.
    + eapply Forall_impl; [exact Hfixed |]. intros x Hx. right. left. set_unfold. tauto.
    + destruct (Z.geb_spec (ScanOptions.TimingTemplate' options) TimingParanoid);
        destruct (Z.leb_spec (ScanOptions.TimingTemplate' options) TimingInsane);
        cbn; try apply Forall_nil_2.
      apply Forall_singleton.
      right. right. unfold TimingParanoid, TimingInsane in *. split; [done | lia].
    + destruct (ScanOptions.ServiceDetection options); [| apply Forall_nil_2].
      apply Forall_singleton. right. left. set_unfold. tauto.
    + destruct (ScanOptions.OSDetection options); [| apply Forall_nil_2].
      apply Forall_singleton. right. left. set_unfold. tauto.
    + destruct (ScanOptions.ScriptScan options); [| apply Forall_nil_2].
      apply Forall_singleton. right. left. set_unfold. tauto.
  - intros Hp. rewrite (bool_decide_eq_false_2 (ScanOptions.Ports options ≠ ""))
      by (intros H; by apply H).
    cbn [app]. rewrite !not_elem_of_app. repeat split.
    + intros Hin. eapply Forall_forall in Hfixed; [| exact Hin].
      set_unfold. intuition discriminate.
    + destruct (_ && _); [| apply not_elem_of_nil].
      intros Hin%list_elem_of_singleton. discriminate Hin.
    + destruct (ScanOptions.ServiceDetection options); [| apply not_elem_of_nil].
      intros Hin%list_elem_of_singleton. discriminate Hin.
    + destruct (ScanOptions.OSDetection options); [| apply not_elem_of_nil].
      intros Hin%list_elem_of_singleton. discriminate Hin.
    + destruct (ScanOptions.ScriptScan options); [| apply not_elem_of_nil].
      intros Hin%list_elem_of_singleton. discriminate Hin.
Qed.

(** X20. How [ExecuteScan] ends. If it returns a result, the run of nmap
    succeeded, and the result carries the generated id, the start time, no
    scan id and no user id, and as command the nmap path followed by the
    arguments and the "-oX" of the temporary file. If it fails, the error has
    the type [ErrInternal], or the type [ErrTimeout] wrapping the context's
    error after a failed run; a failure to create the temporary file is
    [ErrInternal] whatever the context says. *)
Theorem ExecuteScan_outcomes :
  forall (Atoi : string -> Z * error) (ParseFloat : string -> float * error)
         (ParseTime : string -> Time * error)
         (a : adapters.NmapAdapter) (w : adapters.World) (scanOptions : ScanOptions.t),
    match adapters.ExecuteScan Atoi ParseFloat ParseTime a w scanOptions with
    | Returns result =>
        adapters.Run w = nil
        /\ ScanResult.ID result = adapters.NewUUID w
        /\ ScanResult.StartTime result = adapters.Now w
        /\ ScanResult.ScanID result = ""
        /\ ScanResult.UserID result = ""
        /\ exists tmpFileName,
            adapters.CreateTemp w = Returns tmpFileName
            /\ ScanResult.Command result
               = adapters.nmapPath a +:+ " "
                 +:+ String.concat " "
                       (adapters.buildCommandArgs scanOptions ++ ["-oX"; tmpFileName])
    | Fails e =>
        (Type_of e = Some ErrInternal
         \/ (Type_of e = Some ErrTimeout /\ adapters.Run w ≠ nil
             /\ (Unwrap e = adapters.Canceled \/ Unwrap e = adapters.DeadlineExceeded)))
        /\ (forall err, adapters.CreateTemp w = Fails err ->
                        e = Error ErrInternal "failed to create temporary file" err)
    | Panics _ =>
        (exists msg, adapters.CreateTemp w = Panics msg)
        \/ (exists msg, adapters.ReadFile w = Panics msg)
        \/ (exists data msg, adapters.Unmarshal w data = Panics msg)
    end.
Proof.
  intros Atoi ParseFloat ParseTime a w scanOptions. unfold adapters.ExecuteScan.
  destruct (adapters.CreateTemp w) as [tmp | err | msg] eqn:Htmp.
  - case_bool_decide as Hrun.
    + case_bool_decide as Hc; [| case_bool_decide as Hd].
      * split; [| discriminate]. right. cbn. rewrite Hc. auto.
      * split; [| discriminate]. right. cbn. rewrite Hd. auto.
      * split; [by left | discriminate].
    + assert (adapters.Run w = nil) by (destruct (decide (adapters.Run w = nil)); tauto).
      destruct (adapters.ReadFile w) as [data | err | msg] eqn:Hread.
      * destruct (adapters.Unmarshal w data) as [xml | err | msg] eqn:Hxml.
        -- cbn. repeat split; try done. eauto.
        -- split; [by left | discriminate].
        -- right. right. eauto.
      * split; [by left | discriminate].
      * right. left. eauto.
  - split; [by left |]. by intros ? [= ->].
  - left. eauto.
Qed.

(** ** The HTTP handlers *)

Section handler_facts.

Implicit Types s : ScanService repository.MemoryScanRepository.

(** The user id the handlers pass on is never empty. *)
Lemma user_of_not_empty user_id : handlers.user_of user_id ≠ "".
Proof. unfold handlers.user_of. by case_bool_decide. Qed.

(** The scans [ListScans] selects for a user that is not empty are stored
    scans of that user. *)
Lemma matching_elem userID (m : gmap string Scan.t) x :
  userID ≠ "" -> x ∈ repository.matching userID m ->
  Scan.UserID x = userID /\ exists id, m !! id = Some x.
Proof.
  intros Hu. unfold repository.matching. rewrite list_elem_of_filter.
  intros [[He | Ho] Hin]; [done |]. split; [done |].
  apply list_elem_of_fmap in Hin as [[id y] [-> Hin]].
  exists id. by apply elem_of_map_to_list.
Qed.

Lemma matching_length userID (m : gmap string Scan.t) :
  (length (repository.matching userID m) <= size m)%nat.
Proof.
  unfold repository.matching. etrans; [apply length_filter |].
  by rewrite length_fmap, length_map_to_list.
Qed.

(** The first piece of [strings.Split(s, "\n")]: the text before the first
    line feed. *)
Lemma SplitByte_head sep (text : string) :
  exists piece pieces,
    SplitByte sep text = piece :: pieces
    /\ (forall c, In c (String.list_ascii_of_string piece) -> c ≠ sep)
    /\ (text = piece \/ exists rest, text = piece +:+ String sep rest).
Proof.
  induction text as [| c text (piece & pieces & Hs & Hfree & Hrest)]; cbn [SplitByte].
  - exists "", []. split; [done |]. split; [intros c [] | by left].
  - case_bool_decide as Hc.
    + subst c. exists "", (SplitByte sep text). split; [done |].
      split; [intros c [] |]. right. by exists text.
    + rewrite Hs. exists (String c piece), pieces. split; [done |]. split.
      * intros c' [<- | Hin]; [done | by apply Hfree].
      * destruct Hrest as [-> | [rest ->]]; [by left |]. right. by exists rest.
Qed.

End handler_facts.

(** X21. The list endpoint: whatever the query parameters hold and however
    [strconv.Atoi] reads them, as long as the store holds at most
    [MaxInt - 100] scans the handler does not panic and answers 200 with a
    limit between 1 and 100, an offset that is not negative, and a page of at
    most [limit] scans, whose number is the reported count; every scan on
    the page is a stored scan of the requesting user (of ["default-user"]
    when the request carries no user id). *)
Theorem handlers_ListScans_clamps_the_page :
  forall (Atoi : string -> Z * error) (ks : list string) (user_id : string)
         (limit offset : option string)
         (s : ScanService repository.MemoryScanRepository),
    repository.range_order ks (repository.scans (repository s)) ->
    Z.of_nat (size (repository.scans (repository s))) + 100 <= MaxInt ->
    exists (scans : list Scan.t) (l o : Z),
      handlers.ListScans Atoi ks user_id limit offset s
      = Returns (handlers.JSON StatusOK
                   (handlers.scans_body scans l o (Z.of_nat (length scans))))
      /\ 1 <= l <= 100
      /\ 0 <= o
      /\ Z.of_nat (length scans) <= l
      /\ forall x, x ∈ scans ->
           Scan.UserID x = handlers.user_of user_id
           /\ exists id, repository.scans (repository s) !! id = Some x.
Proof.
  intros Atoi ks user_id limit offset s Hks Hsize.
  unfold handlers.ListScans, ListScans.
  set (userID := handlers.user_of user_id).
  set (l0 := (Atoi (default "10" limit)).1).
  set (o0 := (Atoi (default "0" offset)).1).
  set (l := if l0 <? 1 then 10 else if l0 >? 100 then 100 else l0).
  set (o := if o0 <? 0 then 0 else o0).
  assert (Hl : 1 <= l <= 100).
  { unfold l. destruct (Z.ltb_spec l0 1); [lia |]. destruct (Z.gtb_spec l0 100); lia. }
  assert (Ho : 0 <= o).
  { unfold o. destruct (Z.ltb_spec o0 0); lia. }
  destruct (sorted_scans ks userID (repository.scans (repository s)) Hks)
    as (Hperm & _ & Hlen).
  pose proof (matching_length userID (repository.scans (repository s))) as Hm.
  set (sorted := repository.sort_newest_first
                   (repository.collect ks userID (repository.scans (repository s)))) in *.
  destruct (Z.le_gt_cases (Z.of_nat (length sorted)) o) as [Hbeyond | Hin].
  - rewrite (ListScans_beyond ks userID l o (repository s)) by exact Hbeyond.
    exists [], l, o. split; [done |]. split; [lia |]. split; [lia |].
    split; [cbn; lia |]. intros x Hx. by apply not_elem_of_nil in Hx.
  - rewrite (ListScans_page ks userID l o (repository s)) by lia.
    fold sorted. exists (take (Z.to_nat l) (drop (Z.to_nat o) sorted)), l, o.
    split; [done |]. split; [lia |]. split; [lia |]. split.
    + rewrite length_take. lia.
    + intros x Hx.
      apply (matching_elem userID); [apply user_of_not_empty |].
      rewrite <- Hperm.
      by apply (subseteq_drop (Z.to_nat o)), (subseteq_take (Z.to_nat l)).
Qed.

Lemma handlers_ListScans_clamps_the_page_witness :
  let a := Scan.mk "a" "alice" (ScanOptions.mk "10.0.0.1" "" ScanTypeSYN 3 false false false [] 0)
             ScanStatusCompleted 100 10 None None "" "" in
  let b := Scan.mk "b" "bob" (ScanOptions.mk "10.0.0.2" "" ScanTypeSYN 3 false false false [] 0)
             ScanStatusPending 0 20 None None "" "" in
  let s := mkScanService
             (repository.with_scans (<["a" := a]> (<["b" := b]> ∅))
                (repository.NewMemoryScanRepository (60 * Minute)))
             5 ∅ [] in
  exists scans l o,
    handlers.ListScans (fun _ => (-3, nil)) ["a"; "b"] "alice" (Some "-3") None s
    = Returns (handlers.JSON StatusOK
                 (handlers.scans_body scans l o (Z.of_nat (length scans))))
    /\ 1 <= l <= 100.
Proof.
  intros a b s.
  destruct (handlers_ListScans_clamps_the_page (fun _ => (-3, nil)) ["a"; "b"] "alice"
              (Some "-3") None s) as (scans & l & o & Heq & Hl & _).
  - unfold repository.range_order. vm_compute. reflexivity.
  - vm_compute. discriminate.
  - exists scans, l, o. split; [exact Heq | exact Hl].
Defined.

(** X22. A request the service admits: with a target, room in the active
    set and a timeout of [n] seconds that fits a [time.Duration], the handler
    answers 202 with the new id, and the scan registered under that id is
    Pending for the requesting user, with the request's fields as its
    options and the timeout [n] seconds when [n] is positive and five
    minutes otherwise; the ports are the request's, also when they are
    empty. *)
Theorem handlers_StartScan_accepts :
  forall (now : Time) (id user_id : string) (req : handlers.StartScanRequest)
         (s : ScanService repository.MemoryScanRepository),
    let options :=
      ScanOptions.mk (handlers.Target req) (handlers.Ports req) (handlers.ScanType' req)
        (handlers.TimingTemplate' req) (handlers.ServiceDetection req)
        (handlers.OSDetection req) (handlers.ScriptScan req) (handlers.ExtraOptions req)
        (if 0 <? handlers.TimeoutSeconds req
         then handlers.TimeoutSeconds req * Second else 5 * Minute) in
    let s' := (handlers.StartScan now id (Returns req) user_id s).2 in
    handlers.Target req ≠ "" ->
    Z.of_nat (size (activeScans s)) < maxConcurrentScans s ->
    handlers.TimeoutSeconds req * Second <= MaxInt ->
    handlers.StartScan now id (Returns req) user_id s
    = (Returns (handlers.JSON StatusAccepted (handlers.started_body "Scan started" id)), s')
    /\ observe id s'
       = Some (Scan.mk id (handlers.user_of user_id) options ScanStatusPending 0 now
                 None None "" "")
    /\ 0 < ScanOptions.Timeout options.
Proof.
  intros now id user_id req s options s' Ht Hroom Hfit.
  assert (Hopt :
    (if handlers.TimeoutSeconds req >? 0
     then ScanOptions.with_Timeout (wrap64 (handlers.TimeoutSeconds req * Second))
            (ScanOptions.mk (handlers.Target req) (handlers.Ports req)
               (handlers.ScanType' req) (handlers.TimingTemplate' req)
               (handlers.ServiceDetection req) (handlers.OSDetection req)
               (handlers.ScriptScan req) (handlers.ExtraOptions req) 0)
     else ScanOptions.with_Timeout (5 * Minute)
            (ScanOptions.mk (handlers.Target req) (handlers.Ports req)
               (handlers.ScanType' req) (handlers.TimingTemplate' req)
               (handlers.ServiceDetection req) (handlers.OSDetection req)
               (handlers.ScriptScan req) (handlers.ExtraOptions req) 0))
    = options).
  { unfold options. rewrite Z.gtb_ltb.
    destruct (Z.ltb_spec 0 (handlers.TimeoutSeconds req)) as [Hpos | Hneg]; [| done].
    rewrite wrap64_id; [done |].
    unfold is_int, MinInt, MaxInt, Second, Nanosecond in *. lia. }
  assert (Hrun :
    handlers.StartScan now id (Returns req) user_id s
    = (Returns (handlers.JSON StatusAccepted (handlers.started_body "Scan started" id)),
       (StartScan now id (handlers.user_of user_id) options s).2)).
  { unfold handlers.StartScan. rewrite Hopt.
    rewrite (StartScan_admitted now id (handlers.user_of user_id) options s Ht Hroom).
    cbn. rewrite lookup_app_r by lia. rewrite Nat.sub_diag. cbn. reflexivity. }
  unfold s'. rewrite Hrun. cbn [snd]. split; [done |]. split.
  - rewrite (StartScan_admitted now id (handlers.user_of user_id) options s Ht Hroom).
    cbn [snd]. apply (observe_active _ _ (length (memory s))); cbn [activeScans memory].
    + apply lookup_insert_eq.
    + by apply list_lookup_middle.
  - unfold options. cbn. unfold Minute, Second, Nanosecond.
    destruct (Z.ltb_spec 0 (handlers.TimeoutSeconds req)); lia.
Qed.

Lemma handlers_StartScan_accepts_witness :
  let req := handlers.mkStartScanRequest "10.0.0.5" "" ScanTypeSYN 0 false false false [] 30 in
  let s := NewScanService (repository.NewMemoryScanRepository (60 * Minute)) 5 in
  (handlers.StartScan 1000 "job-1" (Returns req) "" s).1
  = Returns (handlers.JSON 202 (handlers.started_body "Scan started" "job-1"))
  /\ observe "job-1" (handlers.StartScan 1000 "job-1" (Returns req) "" s).2
     = Some (Scan.mk "job-1" "default-user"
               (ScanOptions.mk "10.0.0.5" "" ScanTypeSYN 0 false false false []
                  30000000000)
               ScanStatusPending 0 1000 None None "" "").
Proof.
  intros req s.
  destruct (handlers_StartScan_accepts 1000 "job-1" "" req s) as (H1 & H2 & _).
  - discriminate.
  - vm_compute. reflexivity.
  - vm_compute. discriminate.
  - split; [by rewrite H1 | exact H2].
Defined.

(** X23. A full service: when the active set has reached the limit, the
    handler answers a request that has a target with 500 and the text of the
    service's error, although that error has the type [ErrUnavailable], whose
    own status code is 503; nothing is registered or stored. *)
Theorem handlers_StartScan_at_capacity_answers_500 :
  forall (now : Time) (id user_id : string) (req : handlers.StartScanRequest)
         (s : ScanService repository.MemoryScanRepository),
    handlers.Target req ≠ "" ->
    maxConcurrentScans s <= Z.of_nat (size (activeScans s)) ->
    handlers.StartScan now id (Returns req) user_id s
    = (Returns (handlers.JSON StatusInternalServerError
                  (handlers.error_body
                     "Failed to start scan: UNAVAILABLE: maximum concurrent scans reached")),
       s)
    /\ StatusInternalServerError = 500
    /\ StatusCode ErrUnavailable = 503.
Proof.
  intros now id user_id req s Ht Hfull. split; [| done].
  unfold handlers.StartScan.
  set (options := if handlers.TimeoutSeconds req >? 0 then _ else _).
  assert (Hto : ScanOptions.Target options = handlers.Target req).
  { unfold options. by destruct (handlers.TimeoutSeconds req >? 0). }
  unfold StartScan.
  pose proof (validateScanOptions_target options) as Hv.
  rewrite Hto in Hv. specialize (Hv Ht).
  destruct (validateScanOptions options) as [o e]. cbn in Hv. subst e.
  destruct (Z.geb_spec (Z.of_nat (size (activeScans s))) (maxConcurrentScans s)); [| lia].
  reflexivity.
Qed.

Lemma handlers_StartScan_at_capacity_answers_500_witness :
  let req := handlers.mkStartScanRequest "10.0.0.5" "80" ScanTypeSYN 3 false false false [] 0 in
  let s := NewScanService (repository.NewMemoryScanRepository (60 * Minute)) 0 in
  handlers.StartScan 1000 "job-1" (Returns req) "alice" s
  = (Returns (handlers.JSON 500
                (handlers.error_body
                   "Failed to start scan: UNAVAILABLE: maximum concurrent scans reached")),
     s).
Proof.
  intros req s.
  apply (handlers_StartScan_at_capacity_answers_500 1000 "job-1" "alice" req s).
  - discriminate.
  - vm_compute. discriminate.
Defined.

(** X24. An id that is neither active nor stored: the scan endpoint answers
    404 and the cancel endpoint 500, both with the same not-found error of
    the service in the body; neither changes the service. *)
Theorem handlers_unknown_id :
  forall (now : Time) (id : string) (s : ScanService repository.MemoryScanRepository),
    id ≠ "" ->
    activeScans s !! id = None ->
    repository.scans (repository s) !! id = None ->
    let text := "NOT_FOUND: scan not found: NOT_FOUND: scan with ID " +:+ id +:+ " not found" in
    handlers.GetScan id s
    = (Returns (handlers.JSON StatusNotFound
                  (handlers.error_body ("Failed to get scan: " +:+ text))), s)
    /\ handlers.CancelScan now id s
       = (Returns (handlers.JSON StatusInternalServerError
                     (handlers.error_body ("Failed to cancel scan: " +:+ text))), s).
Proof.
  intros now id s Hid Ha Hr text.
  assert (Hget : GetScan id s
                 = (Fails (NewNotFound "scan not found"
                             (NewNotFound ("scan with ID " +:+ id +:+ " not found") nil)), s)).
  { unfold GetScan. rewrite Ha. cbn. unfold repository.GetScanByID. rewrite Hr.
    by destruct s. }
  unfold handlers.GetScan, handlers.CancelScan, CancelScan.
  rewrite bool_decide_eq_false_2 by done. rewrite Hget. done.
Qed.

Lemma handlers_unknown_id_witness :
  let s := NewScanService (repository.NewMemoryScanRepository (60 * Minute)) 5 in
  (handlers.GetScan "job-9" s).1
  = Returns (handlers.JSON 404
               (handlers.error_body
                  "Failed to get scan: NOT_FOUND: scan not found: NOT_FOUND: scan with ID job-9 not found"))
  /\ (handlers.CancelScan 1000 "job-9" s).1
     = Returns (handlers.JSON 500
                  (handlers.error_body
                     "Failed to cancel scan: NOT_FOUND: scan not found: NOT_FOUND: scan with ID job-9 not found")).
Proof.
  intros s.
  destruct (handlers_unknown_id 1000 "job-9" s) as [H1 H2].
  - discriminate.
  - reflexivity.
  - reflexivity.
  - split; [by rewrite H1 | by rewrite H2].
Defined.

(** X25. The health endpoint: when both runs of [nmap --version] succeed it
    answers 200 and reports as version the output of the second run up to
    its first line feed; when the first run fails it answers 503 whatever a
    second run would give, and when the second fails it answers 503 with the
    wrapped error of that run. *)
Theorem GetHealth_reports_the_first_line :
  forall (timestamp : string),
    (forall out1 out2 : string,
        exists version,
          handlers.GetHealth (out1, nil) (out2, nil) timestamp
          = Returns (handlers.JSON StatusOK
                       (handlers.healthy_body "healthy" version timestamp))
          /\ (forall c, In c (String.list_ascii_of_string version) -> c ≠ LF)
          /\ (out2 = version \/ exists rest, out2 = version +:+ String LF rest))
    /\ (forall (out1 : string) (err : error) (run2 : string * error),
           err ≠ nil ->
           handlers.GetHealth (out1, err) run2 timestamp
           = Returns (handlers.JSON StatusServiceUnavailable
                        (handlers.unhealthy_body "unhealthy"
                           "Nmap is not available: UNAVAILABLE: nmap is not available")))
    /\ (forall (out1 out2 msg : string),
           handlers.GetHealth (out1, nil) (out2, Plain msg) timestamp
           = Returns (handlers.JSON StatusServiceUnavailable
                        (handlers.unhealthy_body "unhealthy"
                           ("Failed to get nmap version: UNAVAILABLE: failed to get nmap version: UNAVAILABLE: failed to get nmap version: " +:+ msg)))).
Proof.
  intros timestamp. split; [| split].
  - intros out1 out2.
    destruct (SplitByte_head LF out2) as (piece & pieces & Hs & Hfree & Hrest).
    exists piece. unfold handlers.GetHealth, ValidateNmap, IsAvailable, GetNmapVersion,
      GetVersion. cbn. by rewrite Hs.
  - intros out1 err run2 Herr. by destruct err.
  - intros out1 out2 msg. reflexivity.
Qed.

(** ** The summary of a scan *)

Section summary_facts.

Lemma append_cons c (p q : string) : String c p +:+ q = String c (p +:+ q).
Proof. reflexivity. Qed.

Lemma append_empty (q : string) : "" +:+ q = q.
Proof. reflexivity. Qed.

Lemma prefix_append (p text : string) :
  String.prefix p text = true <-> exists post, text = p +:+ post.
Proof.
  revert text. induction p as [| c p IH]; intros text.
  - destruct text; cbn; (split; [intros _; by eexists | done]).
  - destruct text as [| d text]; cbn.
    + split; [done | by intros [post ?]].
    + destruct (Ascii.ascii_dec c d) as [-> | Hne].
      * rewrite IH. split; intros [post Hp]; exists post;
          rewrite append_cons in *; congruence.
      * split; [done | intros [post Hp]; rewrite append_cons in Hp; congruence].
Qed.

(** [strings.Contains(s, substr)] holds exactly when [substr] occurs in
    [s]. *)
Lemma Contains_occurs (text substr : string) :
  Contains text substr = true <-> exists pre post, text = pre +:+ substr +:+ post.
Proof.
  induction text as [| c text IH]; cbn [Contains].
  - rewrite orb_false_r, prefix_append. split.
    + intros [post Hp]. by exists "", post.
    + intros (pre & post & Hp). destruct pre as [| d pre].
      * by exists post.
      * by rewrite append_cons in Hp.
  - rewrite orb_true_iff, prefix_append, IH. split.
    + intros [[post Hp] | (pre & post & Hp)].
      * by exists "", post.
      * exists (String c pre), post. rewrite append_cons. by rewrite Hp.
    + intros (pre & post & Hp). destruct pre as [| d pre].
      * left. by exists post.
      * right. exists pre, post. rewrite append_cons in Hp. congruence.
Qed.

(** A counting loop over a slice: [n++] for each element that passes the
    test. *)
Lemma count_loop {A} (test : A -> bool) (l : list A) : forall n,
  0 <= n -> n + Z.of_nat (length l) <= MaxInt ->
  foldl (fun n x => if test x then wrap64 (n + 1) else n) n l
  = n + Z.of_nat (length (filter (fun x => Is_true (test x)) l)).
Proof.
  induction l as [| x l IH]; intros n Hn Hfit; cbn [foldl].
  - rewrite filter_nil. cbn. lia.
  - cbn [length] in Hfit. destruct (test x) eqn:Hx.
    + rewrite filter_cons_True by (by rewrite Hx).
      rewrite wrap64_id by (unfold is_int, MinInt, MaxInt in *; lia).
      rewrite IH by lia. cbn [length]. lia.
    + rewrite filter_cons_False by (rewrite Hx; intros []). apply IH; lia.
Qed.

(** The two nested loops: one count over the elements of all hosts. *)
Lemma count_nested {A} (items : Host.t -> list A) (test : A -> bool)
    (hosts : list Host.t) : forall n,
  0 <= n -> n + Z.of_nat (length (concat (items <$> hosts))) <= MaxInt ->
  foldl (fun n host => foldl (fun n x => if test x then wrap64 (n + 1) else n)
                             n (items host)) n hosts
  = n + Z.of_nat (length (filter (fun x => Is_true (test x)) (concat (items <$> hosts)))).
Proof.
  induction hosts as [| host hosts IH]; intros n Hn Hfit; cbn [foldl fmap list_fmap concat].
  - rewrite filter_nil. cbn. lia.
  - cbn [fmap list_fmap concat] in Hfit. rewrite length_app in Hfit.
    rewrite count_loop by lia. rewrite IH.
    + rewrite filter_app, length_app. lia.
    + lia.
    + pose proof (length_filter (fun x => Is_true (test x)) (items host)). lia.
Qed.

End summary_facts.

(** X26. The counts of a summary: for a result whose hosts carry at most
    [MaxInt] ports and scripts, [CreateScanSummary] reports as open ports the
    number of port entries, over all hosts, whose state is the word [open],
    and as vulnerabilities the number of script entries, over all hosts,
    whose output contains the word [VULNERABLE] somewhere; the host counts
    are the result's own. Without a result all four counts are 0 and the
    summary says that there are no results. *)
Theorem CreateScanSummary_counts :
  forall (Seconds : Duration -> float) (scan : Scan.t) (result : ScanResult.t),
    let ports := concat (Host.Ports <$> ScanResult.Hosts result) in
    let scripts := concat (Host.Scripts <$> ScanResult.Hosts result) in
    let vulnerable script := Is_true (Contains (Script.Output script) "VULNERABLE") in
    let summary := CreateScanSummary Seconds scan (Some result) in
    let without := CreateScanSummary Seconds scan None in
    Z.of_nat (length ports) <= MaxInt ->
    Z.of_nat (length scripts) <= MaxInt ->
    ScanSummary.OpenPorts summary
    = Z.of_nat (length (filter (fun port => Port.State port = "open") ports))
    /\ ScanSummary.VulnCount summary = Z.of_nat (length (filter vulnerable scripts))
    /\ (forall script,
          vulnerable script
          <-> exists pre post, Script.Output script = pre +:+ "VULNERABLE" +:+ post)
    /\ ScanSummary.TotalHosts summary = ScanResult.TotalHosts result
    /\ ScanSummary.UpHosts summary = ScanResult.UpHosts result
    /\ ScanSummary.HasResults summary = true
    /\ ScanSummary.OpenPorts without = 0
    /\ ScanSummary.VulnCount without = 0
    /\ ScanSummary.TotalHosts without = 0
    /\ ScanSummary.UpHosts without = 0
    /\ ScanSummary.HasResults without = false.
Proof.
  intros Seconds scan result ports scripts vulnerable summary without Hports Hscripts.
  split; [| split; [| split; [| done]]].
  - unfold summary, CreateScanSummary. cbn [ScanSummary.OpenPorts].
    unfold count_open_ports.
    rewrite (count_nested Host.Ports (fun port => bool_decide (Port.State port = "open")))
      by (fold ports; lia).
    fold ports. rewrite Z.add_0_l. do 2 f_equal.
    apply list_filter_iff. intros port. by rewrite bool_decide_spec.
  - unfold summary, CreateScanSummary. cbn [ScanSummary.VulnCount].
    unfold count_vulnerable.
    rewrite (count_nested Host.Scripts
               (fun script => Contains (Script.Output script) "VULNERABLE"))
      by (fold scripts; lia).
    by rewrite Z.add_0_l.
  - intros script. unfold vulnerable. rewrite Is_true_true. apply Contains_occurs.
Qed.

Lemma CreateScanSummary_counts_witness :
  let host :=
    Host.mk "10.0.0.5" [] "up" ""
      [Port.mk 22 "tcp" "open" "ssh" "" "" ""; Port.mk 23 "tcp" "closed" "" "" "" "";
       Port.mk 80 "tcp" "open" "http" "" "" ""]
      [Script.mk "ssl-heartbleed" "State: VULNERABLE (Exploitable)" ∅;
       Script.mk "http-title" "Welcome" ∅]
      (HostMetadata.mk 0 0 0 "" "") in
  let result := ScanResult.mk "r1" "" "" 0 0 0 "" "" 1 1 [host] in
  let scan := Scan.mk "job-1" "alice"
                (ScanOptions.mk "10.0.0.5" "" ScanTypeSYN 3 false false false [] 0)
                ScanStatusCompleted 100 10 (Some 20) (Some 30) "" "r1" in
  ScanSummary.OpenPorts (CreateScanSummary (fun _ => 10%float) scan (Some result)) = 2
  /\ ScanSummary.VulnCount (CreateScanSummary (fun _ => 10%float) scan (Some result)) = 1.
Proof.
  intros host result scan.
  destruct (CreateScanSummary_counts (fun _ => 10%float) scan result)
    as (H1 & H2 & _).
  - vm_compute. discriminate.
  - vm_compute. discriminate.
  - split; [rewrite H1 | rewrite H2]; vm_compute; reflexivity.
Defined.

(** ** The configuration *)

Section config_facts.

Lemma default_string_filled value field :
  value ≠ "" -> config.default_string value field ≠ "".
Proof. unfold config.default_string. by case_bool_decide. Qed.

Lemma default_int_filled value field : value ≠ 0 -> config.default_int value field ≠ 0.
Proof. unfold config.default_int. by case_bool_decide. Qed.

Lemma default_string_set value field :
  field ≠ "" -> config.default_string value field = field.
Proof. unfold config.default_string. by case_bool_decide. Qed.

Lemma default_int_set value field : field ≠ 0 -> config.default_int value field = field.
Proof. unfold config.default_int. by case_bool_decide. Qed.

Lemma setDefaults_complete c : config.complete (config.setDefaults c).
Proof.
  unfold config.complete, config.setDefaults. cbn.
  repeat split;
    (apply default_string_filled || apply default_int_filled); done.
Qed.

Lemma setDefaults_of_complete c : config.complete c -> config.setDefaults c = c.
Proof.
  destruct c as [[] [[] []] [] [] []]. unfold config.complete, config.setDefaults. cbn.
  intros (? & ? & ? & ? & ? & ? & ? & ? & ? & ? & ? & ? & ? & ? & ? & ?).
  rewrite !default_string_set, !default_int_set by done. reflexivity.
Qed.

End config_facts.

(** X27. Completing a configuration: after [setDefaults] no field holds the
    zero value of its type; a configuration without such a field is returned
    as it is, so completing twice is completing once; and a field that was
    set keeps its value, so a concurrency limit or a retention period that
    is negative stays negative. *)
Theorem setDefaults_completes_once :
  forall (c : config.Config),
    config.complete (config.setDefaults c)
    /\ (config.complete c -> config.setDefaults c = c)
    /\ config.setDefaults (config.setDefaults c) = config.setDefaults c
    /\ (config.NmapConfig.MaxConcurrentScans (config.Nmap c) ≠ 0 ->
        config.NmapConfig.MaxConcurrentScans (config.Nmap (config.setDefaults c))
        = config.NmapConfig.MaxConcurrentScans (config.Nmap c))
    /\ (config.StorageConfig.RetentionPeriod (config.Storage c) ≠ 0 ->
        config.StorageConfig.RetentionPeriod (config.Storage (config.setDefaults c))
        = config.StorageConfig.RetentionPeriod (config.Storage c)).
Proof.
  intros c. split; [apply setDefaults_complete |].
  split; [apply setDefaults_of_complete |].
  split; [apply setDefaults_of_complete, setDefaults_complete |].
  split; intros Hset; cbn; by apply default_int_set.
Qed.

Lemma setDefaults_completes_once_witness :
  let c := config.mkConfig (config.AppConfig.mk "scanner" "1.0")
             (config.ServerConfig.mk (config.HTTPServerConfig.mk 8080 1 1 1)
                (config.GRPCServerConfig.mk 9090 1))
             (config.NmapConfig.mk "/usr/bin/nmap" 1 (-1))
             (config.LogConfig.mk "debug" "console" "stderr")
             (config.StorageConfig.mk "memory" (-1)) in
  config.setDefaults c = c.
Proof.
  intros c. destruct (setDefaults_completes_once c) as (_ & Hsame & _).
  apply Hsame. vm_compute. repeat split; discriminate.
Defined.

(** X28. The configured limit at the door: in a service whose limit is the
    completed configuration's, a request with a target is always refused as
    unavailable, leaving the service as it was, when the configured limit is
    negative; when it is 0, the default 5 applies and the request is admitted
    exactly when fewer than five scans are active. *)
Theorem configured_limit_gates_StartScan :
  forall (cfg : config.Config) (now : Time) (id userID : string)
         (options : ScanOptions.t) (s : ScanService repository.MemoryScanRepository),
    maxConcurrentScans s
    = config.NmapConfig.MaxConcurrentScans (config.Nmap (config.setDefaults cfg)) ->
    ScanOptions.Target options ≠ "" ->
    (config.NmapConfig.MaxConcurrentScans (config.Nmap cfg) < 0 ->
     StartScan now id userID options s
     = (Fails (NewUnavailable "maximum concurrent scans reached" nil), s))
    /\ (config.NmapConfig.MaxConcurrentScans (config.Nmap cfg) = 0 ->
        (Z.of_nat (size (activeScans s)) < 5 ->
         (StartScan now id userID options s).1 = Returns (length (memory s)))
        /\ (5 <= Z.of_nat (size (activeScans s)) ->
            StartScan now id userID options s
            = (Fails (NewUnavailable "maximum concurrent scans reached" nil), s))).
Proof.
  intros cfg now id userID options s Hmax Ht.
  assert (Hfull : maxConcurrentScans s <= Z.of_nat (size (activeScans s)) ->
                  StartScan now id userID options s
                  = (Fails (NewUnavailable "maximum concurrent scans reached" nil), s)).
  { intros Hfull. unfold StartScan.
    pose proof (validateScanOptions_target options Ht) as Hv.
    destruct (validateScanOptions options) as [o e]. cbn in Hv. subst e.
    by destruct (Z.geb_spec (Z.of_nat (size (activeScans s))) (maxConcurrentScans s));
      [| lia]. }
  cbn in Hmax. unfold config.default_int in Hmax. split.
  - intros Hneg. apply Hfull.
    rewrite bool_decide_eq_false_2 in Hmax by lia. lia.
  - intros Hzero. rewrite bool_decide_eq_true_2 in Hmax by done. split.
    + intros Hroom. rewrite StartScan_admitted by (done || lia). reflexivity.
    + intros Hbusy. apply Hfull. lia.
Qed.

Lemma configured_limit_gates_StartScan_witness :
  let cfg := config.mkConfig (config.AppConfig.mk "" "")
               (config.ServerConfig.mk (config.HTTPServerConfig.mk 0 0 0 0)
                  (config.GRPCServerConfig.mk 0 0))
               (config.NmapConfig.mk "" 0 (-2))
               (config.LogConfig.mk "" "" "")
               (config.StorageConfig.mk "" 0) in
  let o := ScanOptions.mk "10.0.0.5" "22" ScanTypeSYN 3 false false false [] (5 * Second) in
  let s := config.scanService (config.setDefaults cfg) in
  StartScan 1000 "job-1" "alice" o s
  = (Fails (NewUnavailable "maximum concurrent scans reached" nil), s).
Proof.
  intros cfg o s.
  destruct (configured_limit_gates_StartScan cfg 1000 "job-1" "alice" o s) as [Hneg _].
  - reflexivity.
  - discriminate.
  - apply Hneg. vm_compute. reflexivity.
Defined.

(** ** Port lists *)

Section port_facts.

Lemma ports_of_piece_bounds Sscanf r ports :
  utils.ports_of_piece Sscanf r = Returns ports ->
  ports ≠ [] /\ Forall (fun port => 1 <= port <= 65535) ports.
Proof.
  unfold utils.ports_of_piece. destruct (Contains r "-").
  - destruct (SplitByte utils.hyphen r) as [| part0 [| part1 [| ? ?]]]; try done.
    destruct (Sscanf part0) as [start |]; [| done].
    destruct (Sscanf part1) as [end_ |]; [| done].
    destruct (Z.gtb_spec start end_); [done |].
    destruct (Z.ltb_spec start 1); [done |].
    destruct (Z.gtb_spec end_ 65535); [done |]. cbn.
    intros [= <-]. split.
    + rewrite seqZ_cons by lia. done.
    + apply Forall_seqZ. lia.
  - destruct (Sscanf r) as [port |]; [| done].
    destruct (Z.ltb_spec port 1); [done |].
    destruct (Z.gtb_spec port 65535); [done |]. cbn.
    intros [= <-]. split; [done |]. apply Forall_singleton. lia.
Qed.

(** The loop only appends to the slice it was given. *)
Lemma collect_ports_acc Sscanf ranges : forall acc,
  utils.collect_ports Sscanf ranges acc
  = match utils.collect_ports Sscanf ranges [] with
    | Returns ports => Returns (acc ++ ports)
    | other => other
    end.
Proof.
  induction ranges as [| r ranges IH]; intros acc; cbn [utils.collect_ports].
  - by rewrite app_nil_r.
  - destruct (utils.ports_of_piece Sscanf r) as [more | err | msg]; [| done | done].
    rewrite (IH (acc ++ more)), (IH ([] ++ more)). cbn [app].
    destruct (utils.collect_ports Sscanf ranges []); [| done | done].
    by rewrite app_assoc.
Qed.

Lemma collect_ports_bounds Sscanf ranges : forall ports,
  ranges ≠ [] ->
  utils.collect_ports Sscanf ranges [] = Returns ports ->
  ports ≠ [] /\ Forall (fun port => 1 <= port <= 65535) ports.
Proof.
  induction ranges as [| r ranges IH]; intros ports Hne; [done |].
  cbn [utils.collect_ports].
  destruct (utils.ports_of_piece Sscanf r) as [more | err | msg] eqn:Hr; [| done | done].
  apply ports_of_piece_bounds in Hr as [Hmore Hbounds].
  rewrite collect_ports_acc. cbn [app].
  destruct (utils.collect_ports Sscanf ranges []) as [rest | |] eqn:Hrest; [| done | done].
  intros [= <-]. split.
  - by destruct more.
  - apply Forall_app. split; [done |].
    destruct ranges as [| r' ranges'].
    + cbn in Hrest. injection Hrest as <-. constructor.
    + by apply (IH rest).
Qed.

Lemma SplitByte_not_nil sep (text : string) : SplitByte sep text ≠ [].
Proof. destruct (SplitByte_head sep text) as (piece & pieces & -> & _). done. Qed.

(** Splitting at the first separator. *)
Lemma SplitByte_first sep (piece rest : string) :
  (forall c, In c (String.list_ascii_of_string piece) -> c ≠ sep) ->
  SplitByte sep (piece +:+ String sep rest) = piece :: SplitByte sep rest
  /\ SplitByte sep piece = [piece].
Proof.
  induction piece as [| c piece IH]; intros Hfree.
  - rewrite append_empty. cbn [SplitByte]. by rewrite bool_decide_eq_true_2.
  - rewrite append_cons. cbn [SplitByte].
    rewrite bool_decide_eq_false_2 by (apply Hfree; by left).
    destruct IH as [-> ->]; [intros c' Hc'; apply Hfree; by right |]. done.
Qed.

End port_facts.

(** X29. The ports of a list: whatever the text and however the numbers in
    it are read, when [PortRangeToSlice] returns ports there is at least one,
    and each lies between 1 and 65535. *)
Theorem PortRangeToSlice_in_bounds :
  forall (Sscanf : string -> option Z) (portRange : string) (ports : list Z),
    utils.PortRangeToSlice Sscanf portRange = Returns ports ->
    ports ≠ [] /\ Forall (fun port => 1 <= port <= 65535) ports.
Proof.
  intros Sscanf portRange ports. unfold utils.PortRangeToSlice.
  apply collect_ports_bounds, SplitByte_not_nil.
Qed.

Lemma PortRangeToSlice_in_bounds_witness :
  let Sscanf (text : string) :=
    if bool_decide (text = "20") then Some 20
    else if bool_decide (text = "25") then Some 25
    else if bool_decide (text = "80") then Some 80 else None in
  utils.PortRangeToSlice Sscanf "20-25,80" = Returns [20; 21; 22; 23; 24; 25; 80]
  /\ Forall (fun port => 1 <= port <= 65535) [20; 21; 22; 23; 24; 25; 80].
Proof.
  intros Sscanf.
  assert (Hrun : utils.PortRangeToSlice Sscanf "20-25,80"
                 = Returns [20; 21; 22; 23; 24; 25; 80]) by (vm_compute; reflexivity).
  split; [exact Hrun |].
  exact (proj2 (PortRangeToSlice_in_bounds Sscanf "20-25,80" _ Hrun)).
Defined.

(** X30. A comma joins two lists: for a first piece without a comma, the
    ports of [piece,rest] are the ports of [piece] followed by those of
    [rest]; an error in [piece] is the error of the whole, and otherwise an
    error in [rest] is. *)
Theorem PortRangeToSlice_comma :
  forall (Sscanf : string -> option Z) (piece rest : string),
    (forall c, In c (String.list_ascii_of_string piece) -> c ≠ utils.comma) ->
    utils.PortRangeToSlice Sscanf (piece +:+ String utils.comma rest)
    = match utils.PortRangeToSlice Sscanf piece with
      | Returns first =>
          match utils.PortRangeToSlice Sscanf rest with
          | Returns more => Returns (first ++ more)
          | other => other
          end
      | other => other
      end.
Proof.
  intros Sscanf piece rest Hfree. unfold utils.PortRangeToSlice.
  destruct (SplitByte_first utils.comma piece rest Hfree) as [-> ->].
  cbn [utils.collect_ports].
  destruct (utils.ports_of_piece Sscanf piece) as [first | err | msg]; [| done | done].
  cbn [app]. apply collect_ports_acc.
Qed.

Lemma PortRangeToSlice_comma_witness :
  let Sscanf (text : string) :=
    if bool_decide (text = "22") then Some 22
    else if bool_decide (text = "80") then Some 80
    else if bool_decide (text = "443") then Some 443 else None in
  utils.PortRangeToSlice Sscanf "22,80,443" = Returns [22; 80; 443].
Proof.
  intros Sscanf.
  assert (Hfree : forall c, In c (String.list_ascii_of_string "22") -> c ≠ utils.comma)
    by (intros c [<- | [<- | []]]; discriminate).
  pose proof (PortRangeToSlice_comma Sscanf "22" "80,443" Hfree) as Hrun.
  vm_compute in Hrun. vm_compute. exact Hrun.
Defined.
